(** * A UICC emulator: disk store, VA selection and APDU handlers

    Shallow embedding of the C sources

    - [src/fs/disk.c]            lookup tables, image load, file walk,
                                 record accessors;
    - [include/uicc/common.h]    the VA operations ([va_select_file],
                                 [swicc_va_reset], [swicc_va_select_*]);
    - [src/apduh.c]              the interindustry APDU handlers.

    Conventions.  Machine integers are [Z] with the wrap-around of the C
    type written out ([u8], [u16], [u32]).  Byte buffers are [list Z].
    A pointer to a tree of the forest is the index of the tree in the
    list that stands for the linked list, [None] being [NULL].  A loop
    whose number of iterations is not bounded by its data takes a fuel
    argument and yields [None] when the fuel runs out; a function also
    yields [None] where C gives the program no defined result (a read
    outside a block, a division by zero).  The
    return codes [SWICC_RET_*] used by the VA sources are the [UICC_RET_*]
    codes of the other files (the project was renamed), and a call to
    [swicc_disk_*] is a call to the [uicc_disk_*] function of [disk.c]. *)

From Stdlib Require Import ZArith List Bool Lia.
Import ListNotations.
Local Open Scope Z_scope.

(** ** Machine integers and raw memory *)

Definition u8 (x : Z) : Z := x mod 256.
Definition u16 (x : Z) : Z := x mod 65536.
Definition u32 (x : Z) : Z := x mod 4294967296.

Definition UINT8_MAX : Z := 255.
Definition UINT32_MAX : Z := 4294967295.

(** Little-endian integer stored in a run of bytes (the host is
    little-endian: the image is read through packed structs). *)
Fixpoint le_decode (l : list Z) : Z :=
  match l with
  | [] => 0
  | b :: t => b + 256 * le_decode t
  end.

Fixpoint le_encode (n : nat) (w : Z) : list Z :=
  match n with
  | O => []
  | S k => (w mod 256) :: le_encode k (w / 256)
  end.

(** [&b[off]] read for [n] bytes, and [memcpy(&b[off], src, |src|)]. *)
Definition buf_read (b : list Z) (off n : Z) : list Z :=
  firstn (Z.to_nat n) (skipn (Z.to_nat off) b).

Definition buf_write (b : list Z) (off : Z) (src : list Z) : list Z :=
  firstn (Z.to_nat off) b ++ src ++ skipn (Z.to_nat off + length src) b.

(** [memmove(&b[dst], &b[src], n)] inside one buffer. *)
Definition buf_move (b : list Z) (dst src n : Z) : list Z :=
  buf_write b dst (buf_read b src n).

(** [memcmp] over two runs of bytes of the same length: the sign of the
    first difference. *)
Fixpoint memcmp (a b : list Z) : Z :=
  match a, b with
  | x :: a', y :: b' =>
      if x <? y then -1 else if y <? x then 1 else memcmp a' b'
  | _, _ => 0
  end.

(** ** Return codes and item types *)

Inductive uicc_ret_et : Type :=
| UICC_RET_UNKNOWN
| UICC_RET_SUCCESS
| UICC_RET_ERROR
| UICC_RET_PARAM_BAD
| UICC_RET_APDU_UNHANDLED
| UICC_RET_BUFFER_TOO_SHORT
| UICC_RET_FS_NOT_FOUND.

Definition ret_eqb (a b : uicc_ret_et) : bool :=
  match a, b with
  | UICC_RET_UNKNOWN, UICC_RET_UNKNOWN
  | UICC_RET_SUCCESS, UICC_RET_SUCCESS
  | UICC_RET_ERROR, UICC_RET_ERROR
  | UICC_RET_PARAM_BAD, UICC_RET_PARAM_BAD
  | UICC_RET_APDU_UNHANDLED, UICC_RET_APDU_UNHANDLED
  | UICC_RET_BUFFER_TOO_SHORT, UICC_RET_BUFFER_TOO_SHORT
  | UICC_RET_FS_NOT_FOUND, UICC_RET_FS_NOT_FOUND => true
  | _, _ => false
  end.

Inductive uicc_fs_item_type_et : Type :=
| UICC_FS_ITEM_TYPE_INVALID
| UICC_FS_ITEM_TYPE_FILE_MF
| UICC_FS_ITEM_TYPE_FILE_ADF
| UICC_FS_ITEM_TYPE_FILE_DF
| UICC_FS_ITEM_TYPE_FILE_EF_TRANSPARENT
| UICC_FS_ITEM_TYPE_FILE_EF_LINEARFIXED
| UICC_FS_ITEM_TYPE_FILE_EF_CYCLIC
| UICC_FS_ITEM_TYPE_DATO_BERTLV
| UICC_FS_ITEM_TYPE_HEX
| UICC_FS_ITEM_TYPE_ASCII.

Definition item_type_eqb (a b : uicc_fs_item_type_et) : bool :=
  match a, b with
  | UICC_FS_ITEM_TYPE_INVALID, UICC_FS_ITEM_TYPE_INVALID
  | UICC_FS_ITEM_TYPE_FILE_MF, UICC_FS_ITEM_TYPE_FILE_MF
  | UICC_FS_ITEM_TYPE_FILE_ADF, UICC_FS_ITEM_TYPE_FILE_ADF
  | UICC_FS_ITEM_TYPE_FILE_DF, UICC_FS_ITEM_TYPE_FILE_DF
  | UICC_FS_ITEM_TYPE_FILE_EF_TRANSPARENT,
    UICC_FS_ITEM_TYPE_FILE_EF_TRANSPARENT
  | UICC_FS_ITEM_TYPE_FILE_EF_LINEARFIXED,
    UICC_FS_ITEM_TYPE_FILE_EF_LINEARFIXED
  | UICC_FS_ITEM_TYPE_FILE_EF_CYCLIC, UICC_FS_ITEM_TYPE_FILE_EF_CYCLIC
  | UICC_FS_ITEM_TYPE_DATO_BERTLV, UICC_FS_ITEM_TYPE_DATO_BERTLV
  | UICC_FS_ITEM_TYPE_HEX, UICC_FS_ITEM_TYPE_HEX
  | UICC_FS_ITEM_TYPE_ASCII, UICC_FS_ITEM_TYPE_ASCII => true
  | _, _ => false
  end.

(** The enumeration values, in declaration order from 0. *)
Definition item_type_to_Z (t : uicc_fs_item_type_et) : Z :=
  match t with
  | UICC_FS_ITEM_TYPE_INVALID => 0
  | UICC_FS_ITEM_TYPE_FILE_MF => 1
  | UICC_FS_ITEM_TYPE_FILE_ADF => 2
  | UICC_FS_ITEM_TYPE_FILE_DF => 3
  | UICC_FS_ITEM_TYPE_FILE_EF_TRANSPARENT => 4
  | UICC_FS_ITEM_TYPE_FILE_EF_LINEARFIXED => 5
  | UICC_FS_ITEM_TYPE_FILE_EF_CYCLIC => 6
  | UICC_FS_ITEM_TYPE_DATO_BERTLV => 7
  | UICC_FS_ITEM_TYPE_HEX => 8
  | UICC_FS_ITEM_TYPE_ASCII => 9
  end.

(** ** Files, trees, lookup tables, disk (the structs of [uicc/fs]) *)

Record uicc_fs_item_hdr_st : Type := {
  size : Z;          (* uint32_t *)
  lcs : Z;
  type : uicc_fs_item_type_et;
  offset_trel : Z;   (* uint32_t *)
  offset_prel : Z    (* uint32_t *)
}.

Record uicc_fs_file_hdr_st : Type := {
  id : Z;            (* uicc_fs_id_kt, uint16_t *)
  sid : Z;           (* uicc_fs_sid_kt, uint8_t *)
  name : list Z      (* char[UICC_FS_NAME_LEN_MAX + 1] *)
}.

(** [hdr_spec] is a union in C; a member is read only under the item
    type it belongs to, so the members are kept side by side. *)
Record uicc_fs_hdr_spec_st : Type := {
  aid_rid : list Z;  (* hdr_spec.adf.aid.rid *)
  aid_pix : list Z;  (* hdr_spec.adf.aid.pix *)
  rcrd_size : Z      (* hdr_spec.ef_linearfixed / ef_cyclic .rcrd_size *)
}.

(** [data] stands for the pointer into the tree buffer: the bytes from
    the place it points at to the end of the buffer ([nil] for a null
    pointer); the first [data_size] of them are the contents of the
    file. *)
Record uicc_fs_file_st : Type := {
  hdr_item : uicc_fs_item_hdr_st;
  hdr_file : uicc_fs_file_hdr_st;
  hdr_spec : uicc_fs_hdr_spec_st;
  data : list Z;
  data_size : Z      (* uint32_t *)
}.

(** A struct after [memset(.., 0, ..)]. *)
Definition file_zero : uicc_fs_file_st :=
  {| hdr_item := {| size := 0; lcs := 0; type := UICC_FS_ITEM_TYPE_INVALID;
                    offset_trel := 0; offset_prel := 0 |};
     hdr_file := {| id := 0; sid := 0; name := [] |};
     hdr_spec := {| aid_rid := []; aid_pix := []; rcrd_size := 0 |};
     data := [];
     data_size := 0 |}.

Record uicc_disk_lut_st : Type := {
  buf1 : option (list Z);   (* NULL is None *)
  buf2 : option (list Z);
  size_item1 : Z;
  size_item2 : Z;
  count : Z;
  count_max : Z
}.

Definition lut_zero : uicc_disk_lut_st :=
  {| buf1 := None; buf2 := None; size_item1 := 0; size_item2 := 0;
     count := 0; count_max := 0 |}.

(** A tree; its [next] pointer is the tail of the list it sits in. *)
Record uicc_disk_tree_st : Type := {
  buf : list Z;
  len : Z;
  tree_size : Z;             (* the member [size] *)
  lutsid : uicc_disk_lut_st
}.

Record uicc_disk_st : Type := {
  root : list uicc_disk_tree_st;   (* NULL is [] *)
  lutid : uicc_disk_lut_st
}.

Definition tree_ptr : Type := option nat.

Definition tree_deref (disk : uicc_disk_st) (p : tree_ptr)
  : option uicc_disk_tree_st :=
  match p with
  | None => None
  | Some i => nth_error (root disk) i
  end.

Definition UICC_FS_DEPTH_MAX : Z := 3.
Definition UICC_FS_ID_MISSING : Z := 0.
Definition UICC_FS_SID_MISSING : Z := 0.
Definition UICC_FS_ADF_AID_RID_LEN : Z := 5.
Definition UICC_FS_ADF_AID_PIX_LEN : Z := 11.
Definition UICC_FS_ADF_AID_LEN : Z :=
  UICC_FS_ADF_AID_RID_LEN + UICC_FS_ADF_AID_PIX_LEN.
Definition UICC_FS_NAME_LEN_MAX : Z := 16.

Definition LUT_COUNT_START : Z := 64.
Definition LUT_COUNT_RESIZE : Z := 8.

(** ** The packed image layout and the file parser *)

(** The two packed header structs of [uicc/fs/common.h] that [disk.c]
    takes the size of.  [uicc_fs_item_hdr_raw_st] is [size:u32],
    [lcs:u8], [type:u8] and [offset_prel:u32].
    [uicc_fs_adf_hdr_raw_st] is the packed file header (the item header
    followed by [id:u16], [sid:u8] and [name:[17]]) followed by
    [rid:[5]] and [pix:[11]]. *)
Definition sizeof_item_hdr_raw : Z := 10.
Definition sizeof_adf_hdr_raw : Z := 46.

(** Modelled from the spec: [uicc_fs_file_raw_st], the struct that
    [disk.c] takes the size of, is declared in no header among the
    sources.  It is the packed header of a file on the image, "a packed
    item header (10 bytes) followed by a file header: id:u16 LE, sid:u8,
    name:[17]". *)
Definition sizeof_file_raw : Z := 30.

(** Modelled from the spec: the type tag is one of the ten enumerated
    values; a byte outside the enumeration names no type and is read as
    the invalid one. *)
Definition item_type_of_Z (b : Z) : uicc_fs_item_type_et :=
  if b =? 1 then UICC_FS_ITEM_TYPE_FILE_MF
  else if b =? 2 then UICC_FS_ITEM_TYPE_FILE_ADF
  else if b =? 3 then UICC_FS_ITEM_TYPE_FILE_DF
  else if b =? 4 then UICC_FS_ITEM_TYPE_FILE_EF_TRANSPARENT
  else if b =? 5 then UICC_FS_ITEM_TYPE_FILE_EF_LINEARFIXED
  else if b =? 6 then UICC_FS_ITEM_TYPE_FILE_EF_CYCLIC
  else if b =? 7 then UICC_FS_ITEM_TYPE_DATO_BERTLV
  else if b =? 8 then UICC_FS_ITEM_TYPE_HEX
  else if b =? 9 then UICC_FS_ITEM_TYPE_ASCII
  else UICC_FS_ITEM_TYPE_INVALID.

(** Modelled from the spec: [uicc_fs_item_hdr_prs] is declared in
    [uicc/fs/common.h] and defined in no source file.  It decodes the
    10-byte packed item header; [offset_trel] is supplied by the
    caller, as [disk.c] calls it. *)
Definition uicc_fs_item_hdr_prs (item_hdr_raw : list Z) (offset : Z)
  : uicc_fs_item_hdr_st :=
  {| size := le_decode (buf_read item_hdr_raw 0 4);
     lcs := nth 4 item_hdr_raw 0;
     type := item_type_of_Z (nth 5 item_hdr_raw 0);
     offset_trel := offset;
     offset_prel := le_decode (buf_read item_hdr_raw 6 4) |}.

(** Modelled from the spec: the length of the type-specific part that
    follows the file header on the image; "ADF roots additionally embed
    rid:[5], pix:[11].  Linear-fixed and cyclic EFs add rcrd_size:u8". *)
Definition hdr_spec_len (t : uicc_fs_item_type_et) : Z :=
  match t with
  | UICC_FS_ITEM_TYPE_FILE_ADF => UICC_FS_ADF_AID_LEN
  | UICC_FS_ITEM_TYPE_FILE_EF_LINEARFIXED
  | UICC_FS_ITEM_TYPE_FILE_EF_CYCLIC => 1
  | _ => 0
  end.

(** Modelled from the spec: "given a tree and a tree-relative offset,
    decode the file header at that location; derive [data_size =
    header.size - size_of_specific_header] and expose the remaining
    bytes as [data]".  A header that does not lie inside the [len] bytes
    of the tree is not decoded: the parse reports an error. *)
Definition uicc_fs_file_prs (tree : uicc_disk_tree_st) (offset : Z)
  : uicc_ret_et * uicc_fs_file_st :=
  if (offset <? 0) || (len tree <? offset + sizeof_file_raw)
  then (UICC_RET_ERROR, file_zero)
  else
    let raw := buf_read (buf tree) offset (len tree - offset) in
    let item := uicc_fs_item_hdr_prs raw offset in
    let hlen := sizeof_file_raw + hdr_spec_len (type item) in
    if len tree <? offset + hlen then (UICC_RET_ERROR, file_zero)
    else
      let dsize := u32 (size item - hlen) in
      (UICC_RET_SUCCESS,
       {| hdr_item := item;
          hdr_file := {| id := le_decode (buf_read raw 10 2);
                         sid := nth 12 raw 0;
                         name := buf_read raw 13 17 |};
          hdr_spec :=
            match type item with
            | UICC_FS_ITEM_TYPE_FILE_ADF =>
                {| aid_rid := buf_read raw 30 5;
                   aid_pix := buf_read raw 35 11;
                   rcrd_size := 0 |}
            | UICC_FS_ITEM_TYPE_FILE_EF_LINEARFIXED
            | UICC_FS_ITEM_TYPE_FILE_EF_CYCLIC =>
                {| aid_rid := []; aid_pix := [];
                   rcrd_size := nth 30 raw 0 |}
            | _ => {| aid_rid := []; aid_pix := []; rcrd_size := 0 |}
            end;
          data := buf_read raw hlen (len tree - offset - hlen);
          data_size := dsize |}).

(** [uicc_disk_tree_file_root]: the file at offset 0, which must be an
    MF or an ADF. *)
Definition uicc_disk_tree_file_root (tree : option uicc_disk_tree_st)
  : uicc_ret_et * uicc_fs_file_st :=
  match tree with
  | None => (UICC_RET_PARAM_BAD, file_zero)
  | Some t =>
      let '(r, file_root) := uicc_fs_file_prs t 0 in
      match r with
      | UICC_RET_SUCCESS =>
          match type (hdr_item file_root) with
          | UICC_FS_ITEM_TYPE_FILE_ADF
          | UICC_FS_ITEM_TYPE_FILE_MF => (UICC_RET_SUCCESS, file_root)
          | _ => (UICC_RET_ERROR, file_root)
          end
      | _ => (UICC_RET_ERROR, file_root)
      end
  end.

(** Modelled from the spec: [swicc_disk_tree_file_parent] is called by
    [va_select_file] but defined in no source file.  [offset_prel] is
    "the offset from the start of the parent item's header to this
    item's header, or 0 if this item is a tree root", so the parent is
    the file parsed [offset_prel] bytes before the file (the root being
    its own parent). *)
Definition swicc_disk_tree_file_parent (tree : option uicc_disk_tree_st)
    (file : uicc_fs_file_st) : uicc_ret_et * uicc_fs_file_st :=
  match tree with
  | None => (UICC_RET_PARAM_BAD, file_zero)
  | Some t =>
      uicc_fs_file_prs t
        (offset_trel (hdr_item file) - offset_prel (hdr_item file))
  end.

(** ** The depth-first file walk, [uicc_disk_tree_file_foreach] *)

Fixpoint stack_set (s : list Z) (i : nat) (v : Z) : list Z :=
  match s, i with
  | [], _ => []
  | _ :: t, O => v :: t
  | h :: t, S k => h :: stack_set t k v
  end.

Definition stack_at (s : list Z) (i : Z) : Z := nth (Z.to_nat i) s 0.
Definition stack_put (s : list Z) (i v : Z) : list Z :=
  stack_set s (Z.to_nat i) v.

Section Foreach.
Context {U : Type}.
(** [fs_file_foreach_cb]; the user data is threaded through. *)
Variable cb :
  uicc_disk_tree_st -> uicc_fs_file_st -> U -> uicc_ret_et * U.

(** The [while (depth < UICC_FS_DEPTH_MAX)] loop; one unit of fuel per
    iteration, [None] when the fuel runs out. *)
Fixpoint foreach_loop (fuel : nat) (tree : uicc_disk_tree_st)
    (root_size : Z) (stack_data_idx : list Z) (depth : Z) (u : U)
  : option (uicc_ret_et * U) :=
  match fuel with
  | O => None
  | S fuel' =>
    if depth <? UICC_FS_DEPTH_MAX then
      let pop := stack_at stack_data_idx (depth - 1) >=? root_size in
      let depth1 := if pop then depth - 1 else depth in
      if pop && (depth1 <? 1) then Some (UICC_RET_SUCCESS, u)
      else
        let stack1 :=
          if pop
          then stack_put stack_data_idx (depth1 - 1)
                 (stack_at stack_data_idx depth1)
          else stack_data_idx in
        let '(r, file_nstd) :=
          uicc_fs_file_prs tree (stack_at stack1 (depth1 - 1)) in
        match r with
        | UICC_RET_SUCCESS =>
          let nstd_hdr_len :=
            sizeof_file_raw +
            match type (hdr_item file_nstd) with
            | UICC_FS_ITEM_TYPE_FILE_ADF => sizeof_adf_hdr_raw
            | _ => 0
            end in
          let '(r_cb, u1) := cb tree file_nstd u in
          match r_cb with
          | UICC_RET_SUCCESS =>
            match type (hdr_item file_nstd) with
            | UICC_FS_ITEM_TYPE_FILE_MF
            | UICC_FS_ITEM_TYPE_FILE_ADF
            | UICC_FS_ITEM_TYPE_FILE_DF =>
                let stack2 :=
                  stack_put stack1 depth1 (stack_at stack1 (depth1 - 1)) in
                let depth2 := depth1 + 1 in
                (* both operands are uint32_t: the sum wraps before it
                   is widened to the uint64_t [data_idx_new] *)
                let data_idx_new :=
                  u32 (stack_at stack2 (depth2 - 1) + nstd_hdr_len) in
                if data_idx_new >? UINT32_MAX
                then Some (UICC_RET_ERROR, u1)
                else foreach_loop fuel' tree root_size
                       (stack_put stack2 (depth2 - 1) data_idx_new)
                       depth2 u1
            | UICC_FS_ITEM_TYPE_FILE_EF_TRANSPARENT
            | UICC_FS_ITEM_TYPE_FILE_EF_LINEARFIXED
            | UICC_FS_ITEM_TYPE_FILE_EF_CYCLIC =>
                foreach_loop fuel' tree root_size
                  (stack_put stack1 (depth1 - 1)
                     (u32 (stack_at stack1 (depth1 - 1) +
                           size (hdr_item file_nstd))))
                  depth1 u1
            | UICC_FS_ITEM_TYPE_INVALID => Some (UICC_RET_ERROR, u1)
            | _ => foreach_loop fuel' tree root_size stack1 depth1 u1
            end
          | _ => Some (r_cb, u1)
          end
        | _ => Some (r, u)
        end
    else Some (UICC_RET_SUCCESS, u)
  end.

Definition uicc_disk_tree_file_foreach (fuel : nat)
    (tree : option uicc_disk_tree_st) (userdata : U)
  : option (uicc_ret_et * U) :=
  match tree with
  | None => Some (UICC_RET_PARAM_BAD, userdata)
  | Some t =>
      let '(r, file_root) := uicc_disk_tree_file_root (Some t) in
      match r with
      | UICC_RET_SUCCESS =>
          let '(r_cb, u1) := cb t file_root userdata in
          match r_cb with
          | UICC_RET_SUCCESS =>
              match type (hdr_item file_root) with
              | UICC_FS_ITEM_TYPE_FILE_MF
              | UICC_FS_ITEM_TYPE_FILE_ADF =>
                  let hdr_len :=
                    sizeof_file_raw +
                    match type (hdr_item file_root) with
                    | UICC_FS_ITEM_TYPE_FILE_ADF => sizeof_adf_hdr_raw
                    | _ => 0
                    end in
                  foreach_loop fuel t (size (hdr_item file_root))
                    [hdr_len; 0; 0] 1 u1
              | _ => Some (UICC_RET_ERROR, u1)
              end
          | _ => Some (r_cb, u1)
          end
      | _ => Some (UICC_RET_ERROR, userdata)
      end
  end.
End Foreach.

(** ** Lookup tables *)

Definition buf_of (b : option (list Z)) : list Z :=
  match b with
  | Some l => l
  | None => []
  end.

(** The binary search of [lut_insert]: [while (start < end)].  The
    interval shrinks at every iteration, so [end - start] units of fuel
    are never used up. *)
Fixpoint lut_insert_search (fuel : nat) (b1 : list Z) (size1 : Z)
    (entry_item1 : list Z) (start end_ : Z) : Z :=
  match fuel with
  | O => start
  | S fuel' =>
      if start <? end_ then
        let mid := u32 (start + end_) / 2 in
        if memcmp (buf_read b1 (size1 * mid) size1)
                  (buf_read entry_item1 0 size1) <? 0
        then lut_insert_search fuel' b1 size1 entry_item1 (u32 (mid + 1)) end_
        else lut_insert_search fuel' b1 size1 entry_item1 start mid
      else start
  end.

(** The linear scans of the two lookups: the index at which the loop
    [while (entry_idx < lut->count)] is left. *)
Fixpoint lut_scan (n : nat) (b1 : list Z) (size1 : Z) (key : list Z)
    (entry_idx : Z) : Z :=
  match n with
  | O => entry_idx
  | S k =>
      if memcmp (buf_read b1 (size1 * entry_idx) size1)
                (buf_read key 0 size1) =? 0
      then entry_idx
      else lut_scan k b1 size1 key (u32 (entry_idx + 1))
  end.

Record uicc_disk_tree_iter_st : Type := {
  iter_tree : nat;     (* the tree pointed at, as a position in the forest *)
  iter_tree_idx : Z    (* uint8_t *)
}.

Definition uicc_disk_tree_iter (disk : uicc_disk_st)
  : uicc_ret_et * uicc_disk_tree_iter_st :=
  match root disk with
  | _ :: _ => (UICC_RET_SUCCESS, {| iter_tree := 0; iter_tree_idx := 0 |})
  | [] => (UICC_RET_ERROR, {| iter_tree := 0; iter_tree_idx := 0 |})
  end.

(** [uicc_disk_tree_iter_next]: the iterator moves only when there is a
    next tree. *)
Definition uicc_disk_tree_iter_next (disk : uicc_disk_st)
    (tree_iter : uicc_disk_tree_iter_st)
  : uicc_ret_et * uicc_disk_tree_iter_st * tree_ptr :=
  match nth_error (root disk) (S (iter_tree tree_iter)) with
  | Some _ =>
      let it := {| iter_tree := S (iter_tree tree_iter);
                   iter_tree_idx := u8 (iter_tree_idx tree_iter + 1) |} in
      (UICC_RET_SUCCESS, it, Some (iter_tree it))
  | None => (UICC_RET_FS_NOT_FOUND, tree_iter, None)
  end.

(** [uicc_disk_tree_iter_idx]: every iteration of its loop moves one tree
    down the list, so the length of the list bounds them. *)
Fixpoint tree_iter_idx_loop (fuel : nat) (disk : uicc_disk_st)
    (tree_iter : uicc_disk_tree_iter_st) (tree_idx : Z)
  : uicc_ret_et * tree_ptr :=
  if iter_tree_idx tree_iter =? tree_idx
  then (UICC_RET_SUCCESS, Some (iter_tree tree_iter))
  else
    match fuel with
    | O => (UICC_RET_FS_NOT_FOUND, None)
    | S fuel' =>
        let '(r, it, _) := uicc_disk_tree_iter_next disk tree_iter in
        match r with
        | UICC_RET_SUCCESS => tree_iter_idx_loop fuel' disk it tree_idx
        | _ => (r, None)
        end
    end.

Definition uicc_disk_tree_iter_idx (disk : uicc_disk_st)
    (tree_iter : uicc_disk_tree_iter_st) (tree_idx : Z)
  : uicc_ret_et * tree_ptr :=
  tree_iter_idx_loop (length (root disk)) disk tree_iter tree_idx.

Definition uicc_disk_lutsid_empty (tree : uicc_disk_tree_st)
  : uicc_disk_tree_st :=
  {| buf := buf tree; len := len tree; tree_size := tree_size tree;
     lutsid := lut_zero |}.

Definition uicc_disk_lutid_empty (disk : uicc_disk_st) : uicc_disk_st :=
  {| root := root disk; lutid := lut_zero |}.

(** [uicc_disk_root_empty]: every tree is freed, then the ID LUT. *)
Definition uicc_disk_root_empty (disk : uicc_disk_st) : uicc_disk_st :=
  uicc_disk_lutid_empty {| root := []; lutid := lutid disk |}.

Definition disk_zero : uicc_disk_st := {| root := []; lutid := lut_zero |}.

Definition uicc_disk_lutsid_lookup (tree : option uicc_disk_tree_st)
    (sid : Z) : uicc_ret_et * uicc_fs_file_st :=
  match tree with
  | None => (UICC_RET_PARAM_BAD, file_zero)
  | Some t =>
      let l := lutsid t in
      match buf1 l with
      | None => (UICC_RET_ERROR, file_zero)
      | Some b1 =>
          if negb (size_item1 l =? 1) || negb (size_item2 l =? 4)
          then (UICC_RET_ERROR, file_zero)
          else
            let entry_idx :=
              lut_scan (Z.to_nat (count l)) b1 (size_item1 l) [sid] 0 in
            if entry_idx >=? count l
            then (UICC_RET_FS_NOT_FOUND, file_zero)
            else
              let offset :=
                le_decode (buf_read (buf_of (buf2 l))
                             (size_item2 l * entry_idx) 4) in
              if offset >=? len t then (UICC_RET_ERROR, file_zero)
              else
                let '(r, file) := uicc_fs_file_prs t offset in
                match r with
                | UICC_RET_SUCCESS => (UICC_RET_SUCCESS, file)
                | _ => (UICC_RET_ERROR, file)
                end
      end
  end.

(** The key of the ID LUT: the FID stored most significant byte first
    ([__builtin_bswap16] on the little-endian host, then [memcmp]). *)
Definition id_be_bytes (id : Z) : list Z := [u8 (id / 256); u8 id].

Definition uicc_disk_lutid_lookup (disk : uicc_disk_st) (id : Z)
  : uicc_ret_et * tree_ptr * uicc_fs_file_st :=
  let l := lutid disk in
  match buf1 l with
  | None => (UICC_RET_ERROR, None, file_zero)
  | Some b1 =>
      if negb (size_item1 l =? 2) || negb (size_item2 l =? 4 + 1)
      then (UICC_RET_ERROR, None, file_zero)
      else
        let entry_idx :=
          lut_scan (Z.to_nat (count l)) b1 (size_item1 l)
            (id_be_bytes id) 0 in
        if entry_idx >=? count l
        then (UICC_RET_FS_NOT_FOUND, None, file_zero)
        else
          let offset :=
            le_decode (buf_read (buf_of (buf2 l))
                         (size_item2 l * entry_idx + 0) 4) in
          let tree_idx :=
            nth (Z.to_nat (size_item2 l * entry_idx + 4))
                (buf_of (buf2 l)) 0 in
          let '(r_iter, tree_iter) := uicc_disk_tree_iter disk in
          match r_iter with
          | UICC_RET_SUCCESS =>
              let '(r_idx, tree) :=
                uicc_disk_tree_iter_idx disk tree_iter tree_idx in
              match r_idx, tree_deref disk tree with
              | UICC_RET_SUCCESS, Some t =>
                  if len t <=? offset then (UICC_RET_ERROR, tree, file_zero)
                  else
                    let '(r, file) := uicc_fs_file_prs t offset in
                    match r with
                    | UICC_RET_SUCCESS => (UICC_RET_SUCCESS, tree, file)
                    | _ => (UICC_RET_ERROR, tree, file)
                    end
              | _, _ => (UICC_RET_ERROR, tree, file_zero)
              end
          | _ => (UICC_RET_ERROR, None, file_zero)
          end
  end.

Section Disk.
(** What a fresh allocation holds: [malloc] does not initialise its
    block, byte [i] of a new block is [junk i].  Allocation itself is
    taken to succeed. *)
Variable junk : nat -> Z.

Definition malloc (n : Z) : list Z := map junk (seq 0 (Z.to_nat n)).

(** [lut_insert]: a full table is given new, larger buffers; the
    entries are then placed by binary search on [buf1]. *)
Definition lut_insert (lut : uicc_disk_lut_st)
    (entry_item1 entry_item2 : list Z) : uicc_ret_et * uicc_disk_lut_st :=
  let lut1 :=
    if count lut >=? count_max lut then
      let cm := u32 (count_max lut + LUT_COUNT_RESIZE) in
      {| buf1 := Some (malloc (cm * size_item1 lut));
         buf2 := Some (malloc (cm * size_item2 lut));
         size_item1 := size_item1 lut; size_item2 := size_item2 lut;
         count := count lut; count_max := cm |}
    else lut in
  let s1 := size_item1 lut1 in
  let s2 := size_item2 lut1 in
  let n := count lut1 in
  let start :=
    lut_insert_search (S (Z.to_nat n)) (buf_of (buf1 lut1)) s1
      entry_item1 0 n in
  let b1 :=
    buf_write
      (buf_move (buf_of (buf1 lut1)) (s1 * (start + 1)) (s1 * start)
         (s1 * (n - start)))
      (s1 * start) (buf_read entry_item1 0 s1) in
  let b2 :=
    buf_write
      (buf_move (buf_of (buf2 lut1)) (s2 * (start + 1)) (s2 * start)
         (s2 * (n - start)))
      (s2 * start) (buf_read entry_item2 0 s2) in
  (UICC_RET_SUCCESS,
   {| buf1 := Some b1; buf2 := Some b2;
      size_item1 := s1; size_item2 := s2;
      count := u32 (n + 1); count_max := count_max lut1 |}).

(** [lutid_rebuild_cb]; the user data is the LUT, with the index of the
    tree being walked. *)
Definition lutid_rebuild_cb (tree_idx : Z) (tree : uicc_disk_tree_st)
    (file : uicc_fs_file_st) (lutid : uicc_disk_lut_st)
  : uicc_ret_et * uicc_disk_lut_st :=
  if id (hdr_file file) =? UICC_FS_ID_MISSING
  then (UICC_RET_SUCCESS, lutid)
  else
    lut_insert lutid (id_be_bytes (id (hdr_file file)))
      (le_encode 4 (offset_trel (hdr_item file)) ++ [tree_idx]).

Fixpoint lutid_rebuild_loop (fuel : nat) (trees : list uicc_disk_tree_st)
    (tree_idx : Z) (ret : uicc_ret_et) (l : uicc_disk_lut_st)
  : option (uicc_ret_et * uicc_disk_lut_st) :=
  match trees with
  | [] => Some (ret, l)
  | t :: rest =>
      match uicc_disk_tree_file_foreach (lutid_rebuild_cb tree_idx) fuel
              (Some t) l with
      | None => None
      | Some (UICC_RET_SUCCESS, l1) =>
          lutid_rebuild_loop fuel rest (u8 (tree_idx + 1))
            UICC_RET_SUCCESS l1
      | Some (r, _) => Some (r, lut_zero)
      end
  end.

Definition uicc_disk_lutid_rebuild (fuel : nat) (disk : uicc_disk_st)
  : option (uicc_ret_et * uicc_disk_st) :=
  let l0 :=
    {| buf1 := Some (malloc (LUT_COUNT_START * 2));
       buf2 := Some (malloc (LUT_COUNT_START * (4 + 1)));
       size_item1 := 2; size_item2 := 4 + 1;
       count := 0; count_max := LUT_COUNT_START |} in
  match lutid_rebuild_loop fuel (root disk) 0 UICC_RET_ERROR l0 with
  | None => None
  | Some (r, l) => Some (r, {| root := root disk; lutid := l |})
  end.

(** [lutsid_rebuild_cb] inserts into the SID LUT of the tree being
    walked; the LUT is the user data and is stored back afterwards. *)
Definition lutsid_rebuild_cb (tree : uicc_disk_tree_st)
    (file : uicc_fs_file_st) (l : uicc_disk_lut_st)
  : uicc_ret_et * uicc_disk_lut_st :=
  if sid (hdr_file file) =? UICC_FS_SID_MISSING
  then (UICC_RET_SUCCESS, l)
  else
    lut_insert l [sid (hdr_file file)]
      (le_encode 4 (offset_trel (hdr_item file))).

Definition uicc_disk_lutsid_rebuild (fuel : nat) (tree : uicc_disk_tree_st)
  : option (uicc_ret_et * uicc_disk_tree_st) :=
  let l0 :=
    {| buf1 := Some (malloc (LUT_COUNT_START * 1));
       buf2 := Some (malloc (LUT_COUNT_START * 4));
       size_item1 := 1; size_item2 := 4;
       count := 0; count_max := LUT_COUNT_START |} in
  match uicc_disk_tree_file_foreach lutsid_rebuild_cb fuel (Some tree) l0 with
  | None => None
  | Some (UICC_RET_SUCCESS, l) =>
      Some (UICC_RET_SUCCESS,
            {| buf := buf tree; len := len tree;
               tree_size := tree_size tree; lutsid := l |})
  | Some (r, _) => Some (r, uicc_disk_lutsid_empty tree)
  end.
End Disk.

(** ** Image builders for the example disks *)

Definition name17 (s : list Z) : list Z :=
  firstn 17 (s ++ repeat 0 17).

Definition raw_file_hdr (sz : Z) (t : uicc_fs_item_type_et)
    (oprel fid fsid : Z) (nm : list Z) : list Z :=
  le_encode 4 sz ++ [0; item_type_to_Z t] ++ le_encode 4 oprel ++
  le_encode 2 fid ++ [fsid] ++ name17 nm.

Definition raw_ef_transparent (oprel fid fsid : Z) (contents : list Z)
  : list Z :=
  raw_file_hdr (sizeof_file_raw + Z.of_nat (length contents))
    UICC_FS_ITEM_TYPE_FILE_EF_TRANSPARENT oprel fid fsid [] ++ contents.

Definition raw_ef_linearfixed (oprel fid fsid rsize : Z) (contents : list Z)
  : list Z :=
  raw_file_hdr (sizeof_file_raw + 1 + Z.of_nat (length contents))
    UICC_FS_ITEM_TYPE_FILE_EF_LINEARFIXED oprel fid fsid [] ++
  [rsize] ++ contents.

Definition raw_folder (t : uicc_fs_item_type_et) (oprel fid fsid : Z)
    (contents : list Z) : list Z :=
  raw_file_hdr (sizeof_file_raw + Z.of_nat (length contents))
    t oprel fid fsid [] ++ contents.

Definition tree_of_image (img : list Z) : uicc_disk_tree_st :=
  {| buf := img; len := Z.of_nat (length img);
     tree_size := Z.of_nat (length img); lutsid := lut_zero |}.

(** ** Records of an EF

    A division by a zero [rcrd_size] has no defined result in C: the two
    accessors return [None] there. *)

Definition file_rcrd_size (file : uicc_fs_file_st) : Z :=
  rcrd_size (hdr_spec file).

Definition uicc_disk_file_rcrd_cnt (tree : option uicc_disk_tree_st)
    (file : uicc_fs_file_st) : option (uicc_ret_et * Z) :=
  match tree with
  | None => Some (UICC_RET_PARAM_BAD, 0)
  | Some _ =>
      match type (hdr_item file) with
      | UICC_FS_ITEM_TYPE_FILE_EF_LINEARFIXED
      | UICC_FS_ITEM_TYPE_FILE_EF_CYCLIC =>
          if file_rcrd_size file =? 0 then None
          else Some (UICC_RET_SUCCESS,
                     u32 (data_size file / file_rcrd_size file))
      | _ => Some (UICC_RET_ERROR, 0)
      end
  end.

(** [uicc_disk_file_rcrd]: on success, [*buf] (the bytes from the start
    of the record on) and [*len]. *)
Definition uicc_disk_file_rcrd (tree : option uicc_disk_tree_st)
    (file : uicc_fs_file_st) (idx : Z)
  : option (uicc_ret_et * list Z * Z) :=
  match tree with
  | None => Some (UICC_RET_PARAM_BAD, [], 0)
  | Some _ =>
      match type (hdr_item file) with
      | UICC_FS_ITEM_TYPE_FILE_EF_LINEARFIXED
      | UICC_FS_ITEM_TYPE_FILE_EF_CYCLIC =>
          let rsize := file_rcrd_size file in
          match uicc_disk_file_rcrd_cnt tree file with
          | None => None
          | Some (UICC_RET_SUCCESS, rcrd_cnt) =>
              if idx >=? rcrd_cnt then Some (UICC_RET_FS_NOT_FOUND, [], 0)
              else
                let rcrd_offset := u32 (rsize * idx) in
                if rcrd_offset >=? data_size file
                then Some (UICC_RET_ERROR, [], 0)
                else Some (UICC_RET_SUCCESS,
                           skipn (Z.to_nat rcrd_offset) (data file), rsize)
          | Some _ => Some (UICC_RET_ERROR, [], 0)
          end
      | _ => Some (UICC_RET_ERROR, [], 0)
      end
  end.

(** ** The virtual application (VA) *)

Record uicc_fs_rcrd_st : Type := { idx : Z }.

(** The selection state.  [cur_root] is the member READ BINARY copies
    from; no VA operation of the sources assigns it, they only clear it
    with the rest of the struct. *)
Record uicc_fs_va_st : Type := {
  cur_tree : tree_ptr;
  cur_root : uicc_fs_file_st;
  cur_adf : uicc_fs_file_st;
  cur_df : uicc_fs_file_st;
  cur_ef : uicc_fs_file_st;
  cur_file : uicc_fs_file_st;
  cur_rcrd : uicc_fs_rcrd_st
}.

(** [memset(&fs->va, 0, sizeof(fs->va))]. *)
Definition va_zero : uicc_fs_va_st :=
  {| cur_tree := None; cur_root := file_zero; cur_adf := file_zero;
     cur_df := file_zero; cur_ef := file_zero; cur_file := file_zero;
     cur_rcrd := {| idx := 0 |} |}.

Record uicc_fs_st : Type := {
  disk : uicc_disk_st;
  va : uicc_fs_va_st
}.

Definition fs_set_va (fs : uicc_fs_st) (v : uicc_fs_va_st) : uicc_fs_st :=
  {| disk := disk fs; va := v |}.

Definition is_ef (t : uicc_fs_item_type_et) : bool :=
  match t with
  | UICC_FS_ITEM_TYPE_FILE_EF_TRANSPARENT
  | UICC_FS_ITEM_TYPE_FILE_EF_LINEARFIXED
  | UICC_FS_ITEM_TYPE_FILE_EF_CYCLIC => true
  | _ => false
  end.

(** The EFs that hold records. *)
Definition is_rcrd_ef (t : uicc_fs_item_type_et) : bool :=
  match t with
  | UICC_FS_ITEM_TYPE_FILE_EF_LINEARFIXED
  | UICC_FS_ITEM_TYPE_FILE_EF_CYCLIC => true
  | _ => false
  end.

Definition va_select_file (fs : uicc_fs_st) (tree : tree_ptr)
    (file : uicc_fs_file_st) : uicc_ret_et * uicc_fs_st :=
  let '(ret, file_root) :=
    uicc_disk_tree_file_root (tree_deref (disk fs) tree) in
  match ret with
  | UICC_RET_SUCCESS =>
      let '(ret, file_parent) :=
        swicc_disk_tree_file_parent (tree_deref (disk fs) tree) file in
      match ret with
      | UICC_RET_SUCCESS =>
          match type (hdr_item file) with
          | UICC_FS_ITEM_TYPE_FILE_MF
          | UICC_FS_ITEM_TYPE_FILE_ADF =>
              (ret,
               fs_set_va fs
                 {| cur_tree := tree; cur_root := file_zero;
                    cur_adf := file; cur_df := file; cur_ef := file_zero;
                    cur_file := file; cur_rcrd := {| idx := 0 |} |})
          | UICC_FS_ITEM_TYPE_FILE_DF =>
              (ret,
               fs_set_va fs
                 {| cur_tree := tree; cur_root := file_zero;
                    cur_adf := file_root; cur_df := file;
                    cur_ef := file_zero;
                    cur_file := file; cur_rcrd := {| idx := 0 |} |})
          | UICC_FS_ITEM_TYPE_FILE_EF_TRANSPARENT
          | UICC_FS_ITEM_TYPE_FILE_EF_LINEARFIXED
          | UICC_FS_ITEM_TYPE_FILE_EF_CYCLIC =>
              (ret,
               fs_set_va fs
                 {| cur_tree := tree; cur_root := file_zero;
                    cur_adf := file_root; cur_df := file_parent;
                    cur_ef := file;
                    cur_file := file; cur_rcrd := {| idx := 0 |} |})
          | _ => (UICC_RET_ERROR, fs)
          end
      | _ => (ret, fs)
      end
  | _ => (ret, fs)
  end.

Definition swicc_va_select_file_id (fs : uicc_fs_st) (fid : Z)
  : uicc_ret_et * uicc_fs_st :=
  let '(ret, tree, file) := uicc_disk_lutid_lookup (disk fs) fid in
  match ret with
  | UICC_RET_SUCCESS => va_select_file fs tree file
  | _ => (ret, fs)
  end.

Definition swicc_va_select_file_sid (fs : uicc_fs_st) (sid : Z)
  : uicc_ret_et * uicc_fs_st :=
  let '(ret, file) :=
    uicc_disk_lutsid_lookup (tree_deref (disk fs) (cur_tree (va fs))) sid in
  match ret with
  | UICC_RET_SUCCESS => va_select_file fs (cur_tree (va fs)) file
  | _ => (ret, fs)
  end.

Definition swicc_va_reset (fs : uicc_fs_st) : uicc_ret_et * uicc_fs_st :=
  let fs0 := fs_set_va fs va_zero in
  let '(ret, _) := uicc_disk_tree_iter (disk fs0) in
  match ret with
  | UICC_RET_SUCCESS => swicc_va_select_file_id fs0 16128 (* 0x3F00 *)
  | _ => (ret, fs0)
  end.

(** The [do ... while (ret == SWICC_RET_SUCCESS)] loop of
    [swicc_va_select_adf]; every iteration moves the iterator one tree
    down the forest, whose length therefore bounds them. *)
Fixpoint select_adf_loop (fuel : nat) (fs : uicc_fs_st)
    (tree_iter : uicc_disk_tree_iter_st) (aid : list Z) (pix_len : Z)
  : uicc_ret_et * uicc_fs_st :=
  match fuel with
  | O => (UICC_RET_FS_NOT_FOUND, fs)
  | S fuel' =>
      let '(ret, it, tree) := uicc_disk_tree_iter_next (disk fs) tree_iter in
      match ret with
      | UICC_RET_SUCCESS =>
          let '(ret, file_root) :=
            uicc_disk_tree_file_root (tree_deref (disk fs) tree) in
          match ret with
          | UICC_RET_SUCCESS =>
              match type (hdr_item file_root) with
              | UICC_FS_ITEM_TYPE_FILE_ADF =>
                  if (memcmp (buf_read (aid_rid (hdr_spec file_root)) 0
                                UICC_FS_ADF_AID_RID_LEN)
                             (buf_read aid 0 UICC_FS_ADF_AID_RID_LEN) =? 0)
                     && (memcmp (buf_read (aid_pix (hdr_spec file_root)) 0
                                   pix_len)
                                (buf_read aid UICC_FS_ADF_AID_RID_LEN pix_len)
                         =? 0)
                  then va_select_file fs tree file_root
                  else select_adf_loop fuel' fs it aid pix_len
              | _ => (UICC_RET_ERROR, fs)
              end
          | _ => (ret, fs)
          end
      | _ => (ret, fs)
      end
  end.

Definition swicc_va_select_adf (fs : uicc_fs_st) (aid : list Z)
    (pix_len : Z) : uicc_ret_et * uicc_fs_st :=
  let '(ret, tree_iter) := uicc_disk_tree_iter (disk fs) in
  match ret with
  | UICC_RET_SUCCESS =>
      select_adf_loop (length (root (disk fs))) fs tree_iter aid pix_len
  | _ => (ret, fs)
  end.

Definition swicc_va_select_file_dfname (fs : uicc_fs_st)
    (df_name : list Z) (df_name_len : Z) : uicc_ret_et * uicc_fs_st :=
  (UICC_RET_UNKNOWN, fs).

Definition swicc_va_select_file_path (fs : uicc_fs_st) (path : list Z)
  : uicc_ret_et * uicc_fs_st :=
  (UICC_RET_UNKNOWN, fs).

Definition swicc_va_select_data_offset (fs : uicc_fs_st) (offset : Z)
  : uicc_ret_et * uicc_fs_st :=
  (UICC_RET_UNKNOWN, fs).

(** [fs->va.cur_rcrd = rcrd]. *)
Definition va_set_rcrd (v : uicc_fs_va_st) (rcrd : uicc_fs_rcrd_st)
  : uicc_fs_va_st :=
  {| cur_tree := cur_tree v; cur_root := cur_root v; cur_adf := cur_adf v;
     cur_df := cur_df v; cur_ef := cur_ef v; cur_file := cur_file v;
     cur_rcrd := rcrd |}.

Definition swicc_va_select_record_idx (fs : uicc_fs_st) (i : Z)
  : option (uicc_ret_et * uicc_fs_st) :=
  match type (hdr_item (cur_ef (va fs))) with
  | UICC_FS_ITEM_TYPE_FILE_EF_LINEARFIXED
  | UICC_FS_ITEM_TYPE_FILE_EF_CYCLIC =>
      match uicc_disk_file_rcrd_cnt
              (tree_deref (disk fs) (cur_tree (va fs))) (cur_ef (va fs)) with
      | None => None
      | Some (UICC_RET_SUCCESS, _) =>
          Some (UICC_RET_SUCCESS,
                fs_set_va fs (va_set_rcrd (va fs) {| idx := i |}))
      | Some _ => Some (UICC_RET_ERROR, fs)
      end
  | _ => Some (UICC_RET_ERROR, fs)
  end.

(** ** APDU commands, responses and the emulator state *)

(** Modelled from the spec: the status-byte enumeration of [uicc/apdu.h]
    is not among the sources; its members are named as the handlers
    name them, and their wire values are those of the status-word table
    (0x90 for the ACK-ALL procedure as well). *)
Inductive uicc_apdu_sw1_et : Type :=
| UICC_APDU_SW1_NORM_NONE
| UICC_APDU_SW1_NORM_BYTES_AVAILABLE
| UICC_APDU_SW1_PROC_ACK_ALL
| UICC_APDU_SW1_WARN_NVM_CHGN
| UICC_APDU_SW1_CHER_LEN
| UICC_APDU_SW1_CHER_CMD
| UICC_APDU_SW1_CHER_P1P2_INFO
| UICC_APDU_SW1_CHER_P1P2
| UICC_APDU_SW1_CHER_LE
| UICC_APDU_SW1_CHER_INS
| UICC_APDU_SW1_CHER_CLA
| UICC_APDU_SW1_CHER_UNK.

Definition sw1_raw (s : uicc_apdu_sw1_et) : Z :=
  match s with
  | UICC_APDU_SW1_NORM_NONE => 0x90
  | UICC_APDU_SW1_NORM_BYTES_AVAILABLE => 0x61
  | UICC_APDU_SW1_PROC_ACK_ALL => 0x90
  | UICC_APDU_SW1_WARN_NVM_CHGN => 0x62
  | UICC_APDU_SW1_CHER_LEN => 0x67
  | UICC_APDU_SW1_CHER_CMD => 0x69
  | UICC_APDU_SW1_CHER_P1P2_INFO => 0x6A
  | UICC_APDU_SW1_CHER_P1P2 => 0x6B
  | UICC_APDU_SW1_CHER_LE => 0x6C
  | UICC_APDU_SW1_CHER_INS => 0x6D
  | UICC_APDU_SW1_CHER_CLA => 0x6E
  | UICC_APDU_SW1_CHER_UNK => 0x6F
  end.

Record uicc_apdu_cmd_st : Type := {
  ins : Z;             (* cmd->hdr->ins *)
  p1 : Z;              (* cmd->hdr->p1 *)
  p2 : Z;              (* cmd->hdr->p2 *)
  p3 : Z;              (* *cmd->p3 *)
  cmd_data_len : Z;    (* cmd->data->len *)
  cmd_data_b : list Z  (* cmd->data->b *)
}.

(** [resp_data_b] holds the bytes a handler copied into [res->data.b]. *)
Record uicc_apdu_res_st : Type := {
  sw1 : uicc_apdu_sw1_et;
  sw2 : Z;
  resp_data_len : Z;
  resp_data_b : list Z
}.

Definition mk_res (s : uicc_apdu_sw1_et) (s2 : Z) : uicc_apdu_res_st :=
  {| sw1 := s; sw2 := s2; resp_data_len := 0; resp_data_b := [] |}.

(** The status word on the wire. *)
Definition sw_word (r : uicc_apdu_res_st) : Z := 256 * sw1_raw (sw1 r) + sw2 r.

(** [uicc_state->internal.res]: the bytes stashed for GET RESPONSE. *)
Record uicc_res_buf_st : Type := {
  res_b : list Z;
  res_len : Z;      (* uint16_t *)
  res_offset : Z    (* uint16_t *)
}.

(** [uicc_state->internal]. *)
Record uicc_st : Type := {
  fs : uicc_fs_st;
  res : uicc_res_buf_st
}.

Definition st_set_fs (st : uicc_st) (f : uicc_fs_st) : uicc_st :=
  {| fs := f; res := res st |}.

Definition st_set_res (st : uicc_st) (r : uicc_res_buf_st) : uicc_st :=
  {| fs := fs st; res := r |}.

(** A read of [n] bytes at [&d[off]]: [None] when it leaves the block
    [d] stands for (and for any read through a null pointer). *)
Definition mem_read (d : list Z) (off n : Z) : option (list Z) :=
  if n =? 0 then Some []
  else if off + n <=? Z.of_nat (length d) then Some (buf_read d off n)
  else None.

(** ** READ BINARY, [apduh_bin_read] *)

Definition apduh_bin_read (uicc_state : uicc_st) (cmd : uicc_apdu_cmd_st)
    (procedure_count : Z)
  : option (uicc_ret_et * uicc_st * uicc_apdu_res_st) :=
  if negb (ins cmd =? 0xB0) then
    Some (UICC_RET_SUCCESS, uicc_state, mk_res UICC_APDU_SW1_CHER_INS 0)
  else if procedure_count =? 0 then
    Some (UICC_RET_SUCCESS, uicc_state, mk_res UICC_APDU_SW1_PROC_ACK_ALL 0)
  else if negb (cmd_data_len cmd =? 0) then
    Some (UICC_RET_SUCCESS, uicc_state, mk_res UICC_APDU_SW1_CHER_LEN 0x02)
  else
    let len_expected := p3 cmd in
    let sid_use := negb (Z.land (p1 cmd) 0x80 =? 0) in
    let fs0 := fs uicc_state in
    (* the parse of P1 and P2: either an early response, or the offset,
       the SID and the file to read *)
    let target : uicc_apdu_res_st + (Z * Z * uicc_fs_file_st) :=
      if sid_use then
        if negb (Z.land (p1 cmd) 0x60 =? 0)
        then inl (mk_res UICC_APDU_SW1_CHER_P1P2_INFO 0x86)
        else
          let sid := Z.land (p1 cmd) 0x1F in
          let offset := p2 cmd in
          let '(ret_lookup, file) :=
            uicc_disk_lutsid_lookup
              (tree_deref (disk fs0) (cur_tree (va fs0))) sid in
          match ret_lookup with
          | UICC_RET_FS_NOT_FOUND =>
              inl (mk_res UICC_APDU_SW1_CHER_P1P2_INFO 0x82)
          | UICC_RET_SUCCESS => inr (offset, sid, file)
          | _ => inl (mk_res UICC_APDU_SW1_CHER_UNK 0)
          end
      else
        let offset :=
          u16 (Z.lor (Z.shiftl (Z.land 0x7F (p1 cmd)) 8) (p2 cmd)) in
        let file := cur_ef (va fs0) in
        match type (hdr_item file) with
        | UICC_FS_ITEM_TYPE_INVALID =>
            inl (mk_res UICC_APDU_SW1_CHER_CMD 0x86)
        | _ => inr (offset, 0, file)
        end in
    match target with
    | inl r => Some (UICC_RET_SUCCESS, uicc_state, r)
    | inr (offset, sid, file) =>
        match type (hdr_item file) with
        | UICC_FS_ITEM_TYPE_FILE_EF_TRANSPARENT =>
            if offset >=? data_size file then
              Some (UICC_RET_SUCCESS, uicc_state,
                    mk_res UICC_APDU_SW1_CHER_P1P2 0)
            else
              let len_readable := u8 (data_size file - offset) in
              let len_read :=
                if len_expected >? len_readable then len_readable
                else len_expected in
              match mem_read (data (cur_root (va fs0))) offset len_read with
              | None => None
              | Some bytes =>
                  let r :=
                    if len_read <? len_expected
                    then {| sw1 := UICC_APDU_SW1_WARN_NVM_CHGN; sw2 := 0x82;
                            resp_data_len := len_read;
                            resp_data_b := bytes |}
                    else {| sw1 := UICC_APDU_SW1_NORM_NONE; sw2 := 0;
                            resp_data_len := len_read;
                            resp_data_b := bytes |} in
                  if sid_use then
                    let '(ret_sel, fs1) := swicc_va_select_file_sid fs0 sid in
                    match ret_sel with
                    | UICC_RET_SUCCESS =>
                        Some (UICC_RET_SUCCESS, st_set_fs uicc_state fs1, r)
                    | _ =>
                        Some (UICC_RET_SUCCESS, st_set_fs uicc_state fs1,
                              {| sw1 := UICC_APDU_SW1_CHER_UNK; sw2 := 0;
                                 resp_data_len := 0;
                                 resp_data_b := bytes |})
                    end
                  else Some (UICC_RET_SUCCESS, uicc_state, r)
              end
        | _ =>
            Some (UICC_RET_SUCCESS, uicc_state,
                  mk_res UICC_APDU_SW1_CHER_CMD 0x81)
        end
    end.

(** ** GET RESPONSE, [apduh_res_get] *)

Definition apduh_res_get (uicc_state : uicc_st) (cmd : uicc_apdu_cmd_st)
    (procedure_count : Z)
  : uicc_ret_et * uicc_st * uicc_apdu_res_st :=
  if procedure_count =? 0 then
    (UICC_RET_SUCCESS, uicc_state, mk_res UICC_APDU_SW1_PROC_ACK_ALL 0)
  else if negb (cmd_data_len cmd =? 0) then
    (UICC_RET_SUCCESS, uicc_state, mk_res UICC_APDU_SW1_CHER_LEN 0x01)
  else if negb (p1 cmd =? 0) || negb (p2 cmd =? 0) then
    (UICC_RET_SUCCESS, uicc_state, mk_res UICC_APDU_SW1_CHER_P1P2_INFO 0x86)
  else if p3 cmd =? 0 then
    (UICC_RET_SUCCESS, uicc_state, mk_res UICC_APDU_SW1_NORM_NONE 0)
  else
    let r := res uicc_state in
    let res_len_available := u16 (res_len r - res_offset r) in
    if res_len_available <? p3 cmd then
      (UICC_RET_SUCCESS, uicc_state, mk_res UICC_APDU_SW1_WARN_NVM_CHGN 0x82)
    else if res_len_available =? p3 cmd then
      (UICC_RET_SUCCESS,
       st_set_res uicc_state
         {| res_b := res_b r; res_len := res_len r;
            res_offset := res_len r |},
       {| sw1 := UICC_APDU_SW1_NORM_NONE; sw2 := 0;
          resp_data_len := p3 cmd;
          resp_data_b := buf_read (res_b r) 0 (p3 cmd) |})
    else
      let res_len_remaining := u16 (res_len_available - p3 cmd) in
      if res_len_remaining >? UINT8_MAX then
        (UICC_RET_SUCCESS, uicc_state, mk_res UICC_APDU_SW1_CHER_UNK 0)
      else
        (UICC_RET_SUCCESS,
         st_set_res uicc_state
           {| res_b := res_b r; res_len := res_len r;
              res_offset := u16 (res_offset r + p3 cmd) |},
         {| sw1 := UICC_APDU_SW1_NORM_BYTES_AVAILABLE;
            sw2 := u8 (res_len_available - p3 cmd);
            resp_data_len := p3 cmd;
            resp_data_b := buf_read (res_b r) 0 (p3 cmd) |}).

(** ** READ RECORD, [apduh_rcrd_read] *)

Inductive trgt_e : Type := TRGT_EF_CUR | TRGT_EF_SID | TRGT_MANY.
Inductive what_e : Type :=
  WHAT_P1 | WHAT_P1_TO_LAST | WHAT_LAST_TO_P1 | WHAT_RFU.
Inductive rcrd_meth_e : Type := METH_RCRD_ID | METH_RCRD_NUM.

Definition rcrd_p2_val (cmd : uicc_apdu_cmd_st) : Z :=
  Z.shiftr (Z.land (p2 cmd) 0xF8) 3.

Definition rcrd_trgt (cmd : uicc_apdu_cmd_st) : trgt_e :=
  if rcrd_p2_val cmd =? 0 then TRGT_EF_CUR
  else if rcrd_p2_val cmd =? 0x1F then TRGT_MANY
  else TRGT_EF_SID.

Definition rcrd_meth (cmd : uicc_apdu_cmd_st) : rcrd_meth_e :=
  if negb (Z.land (p2 cmd) 0x04 =? 0) then METH_RCRD_NUM else METH_RCRD_ID.

Definition rcrd_what (cmd : uicc_apdu_cmd_st) : what_e :=
  match rcrd_meth cmd with
  | METH_RCRD_NUM =>
      let w := Z.land (p2 cmd) 0x03 in
      if w =? 0 then WHAT_P1
      else if w =? 1 then WHAT_P1_TO_LAST
      else if w =? 2 then WHAT_LAST_TO_P1
      else WHAT_RFU
  | METH_RCRD_ID => WHAT_RFU
  end.

Definition apduh_rcrd_read (uicc_state : uicc_st) (cmd : uicc_apdu_cmd_st)
    (procedure_count : Z)
  : option (uicc_ret_et * uicc_st * uicc_apdu_res_st) :=
  let unk := mk_res UICC_APDU_SW1_CHER_UNK 0 in
  if negb (ins cmd =? 0xB2) then
    Some (UICC_RET_SUCCESS, uicc_state, mk_res UICC_APDU_SW1_CHER_INS 0)
  else if procedure_count =? 0 then
    Some (UICC_RET_SUCCESS, uicc_state, mk_res UICC_APDU_SW1_PROC_ACK_ALL 0)
  else if negb (cmd_data_len cmd =? 0) then
    Some (UICC_RET_SUCCESS, uicc_state, mk_res UICC_APDU_SW1_CHER_LEN 0x02)
  else
    let p2_val := rcrd_p2_val cmd in
    let trgt := rcrd_trgt cmd in
    let meth := rcrd_meth cmd in
    let what := rcrd_what cmd in
    if (p2 cmd =? 0xF8)
       || match meth with METH_RCRD_ID => true | _ => false end
       || match trgt with TRGT_MANY => true | _ => false end
    then
      Some (UICC_RET_SUCCESS, uicc_state,
            mk_res UICC_APDU_SW1_CHER_P1P2_INFO 0x81)
    else if (p2_val =? 0x1F)
            || match what with WHAT_RFU => true | _ => false end
            || (p1 cmd =? 0x00) || (p1 cmd =? 0xFF)
    then
      Some (UICC_RET_SUCCESS, uicc_state,
            mk_res UICC_APDU_SW1_CHER_P1P2_INFO 0x86)
    else
      let fs0 := fs uicc_state in
      let cur := tree_deref (disk fs0) (cur_tree (va fs0)) in
      let rcrd_idx := u8 (p1 cmd - 1) in
      let '(ret_ef, ef_cur) :=
        match trgt with
        | TRGT_EF_CUR => (UICC_RET_SUCCESS, cur_ef (va fs0))
        | _ => uicc_disk_lutsid_lookup cur p2_val
        end in
      match ret_ef with
      | UICC_RET_FS_NOT_FOUND =>
          Some (UICC_RET_SUCCESS, uicc_state,
                mk_res UICC_APDU_SW1_CHER_P1P2_INFO 0x82)
      | UICC_RET_SUCCESS =>
          match uicc_disk_file_rcrd cur ef_cur rcrd_idx with
          | None => None
          | Some (UICC_RET_FS_NOT_FOUND, _, _) =>
              Some (UICC_RET_SUCCESS, uicc_state,
                    mk_res UICC_APDU_SW1_CHER_P1P2_INFO 0x83)
          | Some (UICC_RET_SUCCESS, rcrd_buf, rcrd_len) =>
              if negb (p3 cmd =? rcrd_len) then
                Some (UICC_RET_SUCCESS, uicc_state,
                      mk_res UICC_APDU_SW1_CHER_LE rcrd_len)
              else
                let '(ret_file_select, fs1) :=
                  match trgt with
                  | TRGT_EF_SID =>
                      swicc_va_select_file_sid fs0 (sid (hdr_file ef_cur))
                  | _ => (UICC_RET_SUCCESS, fs0)
                  end in
                match ret_file_select with
                | UICC_RET_SUCCESS =>
                    match swicc_va_select_record_idx fs1 rcrd_idx with
                    | None => None
                    | Some (UICC_RET_SUCCESS, fs2) =>
                        match mem_read rcrd_buf 0 rcrd_len with
                        | None => None
                        | Some bytes =>
                            Some (UICC_RET_SUCCESS, st_set_fs uicc_state fs2,
                                  {| sw1 := UICC_APDU_SW1_NORM_NONE;
                                     sw2 := 0;
                                     resp_data_len := rcrd_len;
                                     resp_data_b := bytes |})
                        end
                    | Some (_, fs2) =>
                        Some (UICC_RET_SUCCESS, st_set_fs uicc_state fs2, unk)
                    end
                | _ => Some (UICC_RET_SUCCESS, st_set_fs uicc_state fs1, unk)
                end
          | Some _ => Some (UICC_RET_SUCCESS, uicc_state, unk)
          end
      | _ => Some (UICC_RET_SUCCESS, uicc_state, unk)
      end.

(** ** SELECT, [apduh_select] *)

Inductive meth_e : Type :=
| METH_RFU
| METH_MF_DF_EF
| METH_DF_NESTED
| METH_EF_NESTED
| METH_DF_PARENT
| METH_DF_NAME
| METH_MF_PATH
| METH_DF_PATH
| METH_DO
| METH_DO_PARENT.

Inductive uicc_fs_occ_et : Type :=
| UICC_FS_OCC_FIRST
| UICC_FS_OCC_LAST
| UICC_FS_OCC_NEXT
| UICC_FS_OCC_PREV.

Inductive data_req_e : Type :=
| DATA_REQ_RFU
| DATA_REQ_FCI
| DATA_REQ_FCP
| DATA_REQ_FMD
| DATA_REQ_TAGS
| DATA_REQ_ABSENT.

Definition select_meth (cmd : uicc_apdu_cmd_st) : meth_e :=
  let p := p1 cmd in
  if p =? 0x00 then METH_MF_DF_EF
  else if p =? 0x01 then METH_DF_NESTED
  else if p =? 0x02 then METH_EF_NESTED
  else if p =? 0x03 then METH_DF_PARENT
  else if p =? 0x04 then METH_DF_NAME
  else if p =? 0x08 then METH_MF_PATH
  else if p =? 0x09 then METH_DF_PATH
  else if p =? 0x10 then METH_DO
  else if p =? 0x13 then METH_DO_PARENT
  else METH_RFU.

Definition select_occ (cmd : uicc_apdu_cmd_st) : uicc_fs_occ_et :=
  let o := Z.land (p2 cmd) 0x03 in
  if o =? 0 then UICC_FS_OCC_FIRST
  else if o =? 1 then UICC_FS_OCC_LAST
  else if o =? 2 then UICC_FS_OCC_NEXT
  else UICC_FS_OCC_PREV.

Definition select_data_req (cmd : uicc_apdu_cmd_st) : data_req_e :=
  let d := Z.land (p2 cmd) 0x0C in
  if d =? 0x00 then DATA_REQ_FCI
  else if d =? 0x04 then DATA_REQ_FCP
  else if d =? 0x08 then
    match select_meth cmd with
    | METH_DO | METH_DO_PARENT => DATA_REQ_TAGS
    | _ => DATA_REQ_FMD
    end
  else if d =? 0x0C then DATA_REQ_ABSENT
  else DATA_REQ_RFU.

Definition occ_is_first (o : uicc_fs_occ_et) : bool :=
  match o with UICC_FS_OCC_FIRST => true | _ => false end.

(** The selection step of the handler (its [switch (meth)]). *)
Definition select_perform (fs0 : uicc_fs_st) (cmd : uicc_apdu_cmd_st)
  : uicc_ret_et * uicc_fs_st :=
  match select_meth cmd with
  | METH_MF_DF_EF =>
      if negb (cmd_data_len cmd =? 2) then
        if (cmd_data_len cmd >? UICC_FS_ADF_AID_LEN)
           || (cmd_data_len cmd <? UICC_FS_ADF_AID_RID_LEN)
        then (UICC_RET_ERROR, fs0)
        else swicc_va_select_adf fs0 (cmd_data_b cmd)
               (cmd_data_len cmd - UICC_FS_ADF_AID_RID_LEN)
      else
        swicc_va_select_file_id fs0
          (256 * nth 0 (cmd_data_b cmd) 0 + nth 1 (cmd_data_b cmd) 0)
  | METH_DF_NESTED | METH_EF_NESTED | METH_DF_PARENT => (UICC_RET_ERROR, fs0)
  | METH_DF_NAME =>
      if (cmd_data_len cmd =? 0) || negb (occ_is_first (select_occ cmd))
      then (UICC_RET_ERROR, fs0)
      else swicc_va_select_file_dfname fs0 (cmd_data_b cmd) (cmd_data_len cmd)
  | METH_MF_PATH | METH_DF_PATH =>
      if (cmd_data_len cmd <? 2) || negb (occ_is_first (select_occ cmd))
      then (UICC_RET_ERROR, fs0)
      else swicc_va_select_file_path fs0 (cmd_data_b cmd)
  | _ => (UICC_RET_ERROR, fs0)
  end.

Section Select.
(** The BER-TLV block of the handler (tag creation, the dry and the
    real run of the encoder, the stash into the response buffer) is
    written with the encoder of [uicc/dato.h] and the file descriptors
    of [uicc/fs], none of which is among the sources: it is a
    parameter taking the state, the selected file, whether it is a
    folder, and the kind of response asked for. *)
Variable bertlv_respond :
  uicc_st -> uicc_fs_file_st -> bool -> data_req_e ->
  uicc_st * uicc_apdu_res_st.

Definition apduh_select (uicc_state : uicc_st) (cmd : uicc_apdu_cmd_st)
    (procedure_count : Z) : uicc_ret_et * uicc_st * uicc_apdu_res_st :=
  let unk := mk_res UICC_APDU_SW1_CHER_UNK 0 in
  if negb (Z.land (p2 cmd) 0xF0 =? 0) then
    (UICC_RET_SUCCESS, uicc_state, mk_res UICC_APDU_SW1_CHER_P1P2_INFO 0x86)
  else if (procedure_count =? 0) && negb (cmd_data_len cmd =? 0) then
    (UICC_RET_SUCCESS, uicc_state, unk)
  else if (procedure_count =? 0) && (p3 cmd >? 0) then
    (UICC_RET_SUCCESS, uicc_state,
     {| sw1 := UICC_APDU_SW1_PROC_ACK_ALL; sw2 := 0;
        resp_data_len := p3 cmd; resp_data_b := [] |})
  else if negb (cmd_data_len cmd =? p3 cmd) && (procedure_count >=? 1) then
    (UICC_RET_SUCCESS, uicc_state, mk_res UICC_APDU_SW1_CHER_LEN 0x02)
  else
    let meth := select_meth cmd in
    let data_req := select_data_req cmd in
    if match meth with
       | METH_RFU | METH_DO | METH_DO_PARENT => true
       | _ => false
       end
       || match data_req with DATA_REQ_RFU => true | _ => false end
    then (UICC_RET_SUCCESS, uicc_state, mk_res UICC_APDU_SW1_CHER_P1P2 0)
    else
      let '(ret_select, fs1) := select_perform (fs uicc_state) cmd in
      let st1 := st_set_fs uicc_state fs1 in
      match ret_select with
      | UICC_RET_FS_NOT_FOUND =>
          (UICC_RET_SUCCESS, st1, mk_res UICC_APDU_SW1_CHER_P1P2_INFO 0x82)
      | UICC_RET_SUCCESS =>
          let selected : option (uicc_fs_file_st * bool) :=
            match type (hdr_item (cur_ef (va fs1))),
                  type (hdr_item (cur_df (va fs1))) with
            | UICC_FS_ITEM_TYPE_INVALID, UICC_FS_ITEM_TYPE_INVALID => None
            | UICC_FS_ITEM_TYPE_INVALID, _ => Some (cur_df (va fs1), true)
            | _, _ => Some (cur_ef (va fs1), false)
            end in
          match selected with
          | None => (UICC_RET_SUCCESS, st1, unk)
          | Some (file_selected, file_selected_type_folder) =>
              match data_req with
              | DATA_REQ_ABSENT =>
                  (UICC_RET_SUCCESS, st1, mk_res UICC_APDU_SW1_NORM_NONE 0)
              | _ =>
                  let '(st2, r) :=
                    bertlv_respond st1 file_selected
                      file_selected_type_folder data_req in
                  (UICC_RET_SUCCESS, st2, r)
              end
          end
      | _ => (UICC_RET_SUCCESS, st1, unk)
      end.
End Select.

(** ** Loading a disk image, [uicc_disk_load] *)

Definition UICC_DISK_MAGIC_LEN : Z := 8.

(** [fread(.., n, 1, f)] at position [pos] of a file holding [f]: the
    item is returned when the file still holds all of it. *)
Definition fread (f : list Z) (pos n : Z) : option (list Z) :=
  if pos + n <=? Z.of_nat (length f) then Some (buf_read f pos n) else None.

Definition tree_zero : uicc_disk_tree_st :=
  {| buf := []; len := 0; tree_size := 0; lutsid := lut_zero |}.

(** The test on the root of the tree being read: "the first one is the
    MF, and all other ones are ADFs". *)
Definition load_type_bad (tree_idx : Z) (t : uicc_fs_item_type_et) : bool :=
  item_type_eqb t UICC_FS_ITEM_TYPE_INVALID
  || ((tree_idx =? 0) && negb (item_type_eqb t UICC_FS_ITEM_TYPE_FILE_MF))
  || (negb (tree_idx =? 0)
      && negb (item_type_eqb t UICC_FS_ITEM_TYPE_FILE_ADF)).

Section Load.
Variable junk : nat -> Z.
(** The magic of the image format, a constant of a header that is not
    among the sources. *)
Variable UICC_DISK_MAGIC : list Z.

Definition magic_expected : list Z :=
  firstn (Z.to_nat UICC_DISK_MAGIC_LEN)
    (UICC_DISK_MAGIC ++ repeat 0 (Z.to_nat UICC_DISK_MAGIC_LEN)).

(** The [while (data_idx < f_len)] loop.  The file is read
    sequentially, so the read position is [data_idx].  A tree that is
    read takes more than ten bytes of the file, hence the fuel given
    by [uicc_disk_load] is never used up.  The node being filled is
    already linked into the forest when the loop is left early.
    The rest of an item is read into [&tree->buf[10]], a block of
    [size] bytes, with the length [size - 10]: when [size] is below 10
    that length has wrapped around and the read runs past the block,
    which has no defined result; when it is 10 the read is one of no
    bytes, and [fread] then reports no item. *)
Fixpoint load_loop (fuel : nat) (f : list Z) (f_len data_idx tree_idx : Z)
    (trees : list uicc_disk_tree_st)
  : option (uicc_ret_et * list uicc_disk_tree_st) :=
  match fuel with
  | O => None
  | S fuel' =>
      if data_idx <? f_len then
        match fread f data_idx sizeof_item_hdr_raw with
        | None => Some (UICC_RET_ERROR, trees ++ [tree_zero])
        | Some item_hdr_raw =>
            let item_hdr := uicc_fs_item_hdr_prs item_hdr_raw 0 in
            if load_type_bad tree_idx (type item_hdr)
            then Some (UICC_RET_ERROR, trees ++ [tree_zero])
            else if size item_hdr <? sizeof_item_hdr_raw then None
            else
              let rest_len := size item_hdr - sizeof_item_hdr_raw in
              match (if rest_len =? 0 then None
                     else fread f (data_idx + sizeof_item_hdr_raw)
                            rest_len) with
              | None =>
                  Some (UICC_RET_ERROR,
                        trees ++
                        [{| buf := malloc junk (size item_hdr); len := 0;
                            tree_size := size item_hdr;
                            lutsid := lut_zero |}])
              | Some rest =>
                  load_loop fuel' f f_len
                    (u32 (data_idx + size item_hdr))
                    (u8 (tree_idx + 1))
                    (trees ++
                     [{| buf := item_hdr_raw ++ rest;
                         len := size item_hdr;
                         tree_size := size item_hdr;
                         lutsid := lut_zero |}])
              end
        end
      else Some (UICC_RET_SUCCESS, trees)
  end.

(** The opening, the magic and the trees of the file; [None] for the
    file is a failed [fopen].  Seeking and closing are taken to
    succeed. *)
Definition load_read (file : option (list Z))
  : option (uicc_ret_et * list uicc_disk_tree_st) :=
  match file with
  | None => Some (UICC_RET_ERROR, [])
  | Some f =>
      let f_len := Z.of_nat (length f) in
      if f_len <=? UINT32_MAX then
        match fread f 0 UICC_DISK_MAGIC_LEN with
        | Some magic =>
            if memcmp magic magic_expected =? 0
            then load_loop (S (length f)) f f_len UICC_DISK_MAGIC_LEN 0 []
            else Some (UICC_RET_ERROR, [])
        | None => Some (UICC_RET_ERROR, [])
        end
      else Some (UICC_RET_ERROR, [])
  end.

(** "Create all the LUTs": the SID LUT of every tree, in order, up to
    the first failure. *)
Fixpoint load_lutsid (fuel : nat) (trees : list uicc_disk_tree_st)
  : option (uicc_ret_et * list uicc_disk_tree_st) :=
  match trees with
  | [] => Some (UICC_RET_SUCCESS, [])
  | t :: rest =>
      match uicc_disk_lutsid_rebuild junk fuel t with
      | None => None
      | Some (UICC_RET_SUCCESS, t1) =>
          match load_lutsid fuel rest with
          | None => None
          | Some (r, rest1) => Some (r, t1 :: rest1)
          end
      | Some (r, t1) => Some (r, t1 :: rest)
      end
  end.

(** [uicc_disk_load]; [fuel] bounds each of the file walks that build
    the LUTs. *)
Definition uicc_disk_load (fuel : nat) (disk : uicc_disk_st)
    (file : option (list Z)) : option (uicc_ret_et * uicc_disk_st) :=
  match root disk with
  | _ :: _ =>
      (* "Get rid of the current disk first before loading a new one." *)
      Some (UICC_RET_ERROR, disk)
  | [] =>
      match load_read file with
      | None => None
      | Some (UICC_RET_SUCCESS, []) =>
          Some (UICC_RET_ERROR, uicc_disk_root_empty disk_zero)
      | Some (UICC_RET_SUCCESS, trees) =>
          match load_lutsid fuel trees with
          | None => None
          | Some (UICC_RET_SUCCESS, trees1) =>
              match uicc_disk_lutid_rebuild junk fuel
                      {| root := trees1; lutid := lut_zero |} with
              | None => None
              | Some (UICC_RET_SUCCESS, d) => Some (UICC_RET_SUCCESS, d)
              | Some (r, d) => Some (r, uicc_disk_root_empty d)
              end
          | Some (r, trees1) =>
              Some (r, uicc_disk_root_empty
                         {| root := trees1; lutid := lut_zero |})
          end
      | Some (r, trees) =>
          Some (r, uicc_disk_root_empty
                     {| root := trees; lutid := lut_zero |})
      end
  end.
End Load.

(** ** Example disks and commands *)

(** The disk of the APDU scenarios: MF [3F00] containing DF [7FFF]
    containing the transparent EF [6F07] (SID 07, data 01 02 03 04 05). *)
Definition scenario_image : list Z :=
  raw_folder UICC_FS_ITEM_TYPE_FILE_MF 0 0x3F00 0
    (raw_folder UICC_FS_ITEM_TYPE_FILE_DF 30 0x7FFF 0
       (raw_ef_transparent 30 0x6F07 0x07 [1; 2; 3; 4; 5])).

Definition scenario_fs : uicc_fs_st :=
  {| disk := {| root := [tree_of_image scenario_image]; lutid := lut_zero |};
     va := va_zero |}.

(** The EF [6F07], at offset 60 of the tree. *)
Definition scenario_ef : uicc_fs_file_st :=
  snd (uicc_fs_file_prs (tree_of_image scenario_image) 60).

Definition res_buf_empty : uicc_res_buf_st :=
  {| res_b := repeat 0 256; res_len := 0; res_offset := 0 |}.

(** The state once the EF [6F07] is selected. *)
Definition scenario_selected : uicc_st :=
  {| fs := snd (va_select_file scenario_fs (Some 0%nat) scenario_ef);
     res := res_buf_empty |}.

(** A case 2 command: header, P3, no data. *)
Definition cmd_case2 (i a b c : Z) : uicc_apdu_cmd_st :=
  {| ins := i; p1 := a; p2 := b; p3 := c;
     cmd_data_len := 0; cmd_data_b := [] |}.

(** A transparent EF of 300 bytes directly under the MF, and a state in
    which it is the current EF and [cur_root] designates it as well. *)
Definition long_ef_image : list Z :=
  raw_folder UICC_FS_ITEM_TYPE_FILE_MF 0 0x3F00 0
    (raw_ef_transparent 30 0x6F10 0 (repeat 0xAB 300)).

Definition long_ef : uicc_fs_file_st :=
  snd (uicc_fs_file_prs (tree_of_image long_ef_image) 30).

Definition long_ef_state : uicc_st :=
  {| fs := {| disk := {| root := [tree_of_image long_ef_image];
                         lutid := lut_zero |};
              va := {| cur_tree := Some 0%nat; cur_root := long_ef;
                       cur_adf := file_zero; cur_df := file_zero;
                       cur_ef := long_ef; cur_file := long_ef;
                       cur_rcrd := {| idx := 0 |} |} |};
     res := res_buf_empty |}.

(** A callback that records the offset of every file it is given. *)
Definition visit_cb (tree : uicc_disk_tree_st) (file : uicc_fs_file_st)
    (seen : list Z) : uicc_ret_et * list Z :=
  (UICC_RET_SUCCESS, seen ++ [offset_trel (hdr_item file)]).

(** An MF with two sibling DFs, each holding one transparent EF: the
    files sit at offsets 0 (MF), 30 (DF), 60 (EF), 91 (DF), 121 (EF). *)
Definition siblings_image : list Z :=
  raw_folder UICC_FS_ITEM_TYPE_FILE_MF 0 0x3F00 0
    (raw_folder UICC_FS_ITEM_TYPE_FILE_DF 30 0x7F10 0
       (raw_ef_transparent 30 0x6F01 1 [0xAA]) ++
     raw_folder UICC_FS_ITEM_TYPE_FILE_DF 91 0x7F20 0
       (raw_ef_transparent 30 0x6F02 2 [0xBB])).

(** [n] one-byte transparent EFs laid side by side, with the FIDs
    [0x1001 + k], [0x1002 + k], ... *)
Fixpoint many_efs (n : nat) (k : Z) : list Z :=
  match n with
  | O => []
  | S m =>
      raw_ef_transparent (30 + 31 * k) (0x1001 + k) 0 [k] ++ many_efs m (k + 1)
  end.

(** An MF [3F00] holding 64 EFs: 65 files with a FID. *)
Definition many_image : list Z :=
  raw_folder UICC_FS_ITEM_TYPE_FILE_MF 0 0x3F00 0 (many_efs 64 0).

Definition many_disk : uicc_disk_st :=
  {| root := [tree_of_image many_image]; lutid := lut_zero |}.

(** Fresh memory that happens to be zero-filled. *)
Definition junk_zero (i : nat) : Z := 0.

(** Four bytes stashed for GET RESPONSE, none retrieved yet. *)
Definition stash_state : uicc_st :=
  {| fs := scenario_fs;
     res := {| res_b := [0x11; 0x22; 0x33; 0x44] ++ repeat 0 252;
               res_len := 4; res_offset := 0 |} |}.

(** The state left by a first [C0 00 00 02]. *)
Definition stash_state_2 : uicc_st :=
  snd (fst (apduh_res_get stash_state (cmd_case2 0xC0 0 0 2) 1)).

(** A magic for the example images, and the disk obtained by loading
    an image with it (the empty disk if the load does not succeed). *)
Definition example_magic : list Z :=
  [0x55; 0x49; 0x43; 0x43; 0x2D; 0x46; 0x53; 0x00].

Definition loaded_disk (img : list Z) : uicc_disk_st :=
  match uicc_disk_load junk_zero example_magic 100 disk_zero
          (Some (example_magic ++ img)) with
  | Some (UICC_RET_SUCCESS, d) => d
  | _ => disk_zero
  end.

(** An MF [3F00] holding, side by side, the transparent EF [6F07] (SID
    07) at offset 30, a linear-fixed EF [6F3A] (SID 03) of two records
    of four bytes at offset 65, and a linear-fixed EF [6F3B] (SID 04)
    with records of four bytes and no contents at offset 104. *)
Definition flat_image : list Z :=
  raw_folder UICC_FS_ITEM_TYPE_FILE_MF 0 0x3F00 0
    (raw_ef_transparent 30 0x6F07 0x07 [1; 2; 3; 4; 5] ++
     raw_ef_linearfixed 65 0x6F3A 0x03 4 [10; 11; 12; 13; 20; 21; 22; 23] ++
     raw_ef_linearfixed 104 0x6F3B 0x04 4 []).

(** The tree of the loaded flat disk, with its SID LUT. *)
Definition flat_tree : uicc_disk_tree_st :=
  hd tree_zero (root (loaded_disk flat_image)).

Definition flat_fs : uicc_fs_st :=
  {| disk := loaded_disk flat_image; va := va_zero |}.

(** The same files under a root whose FID is [2F00]: no file of this
    disk has the FID [3F00]. *)
Definition nomf_image : list Z :=
  raw_folder UICC_FS_ITEM_TYPE_FILE_MF 0 0x2F00 0
    (raw_ef_transparent 30 0x6F07 0x07 [1; 2; 3; 4; 5]).

(** ... with the EF [6F07] selected. *)
Definition nomf_selected : uicc_fs_st :=
  snd (swicc_va_select_file_id
         {| disk := loaded_disk nomf_image; va := va_zero |} 0x6F07).

(** The loaded flat disk with the EF [6F07] selected by its FID. *)
Definition flat_selected : uicc_st :=
  {| fs := snd (swicc_va_select_file_id flat_fs 0x6F07);
     res := res_buf_empty |}.

(** The loaded flat disk with the linear-fixed EF [6F3B], which holds
    no record, selected by its FID. *)
Definition empty_lf_selected : uicc_fs_st :=
  snd (swicc_va_select_file_id flat_fs 0x6F3B).

(** The loaded flat disk with its MF [3F00] selected. *)
Definition flat_mf_selected : uicc_fs_st :=
  snd (swicc_va_select_file_id flat_fs 0x3F00).

(** The transparent EF [6F07] of the flat disk, at offset 30. *)
Definition flat_ef : uicc_fs_file_st :=
  snd (uicc_fs_file_prs flat_tree 30).

(** The images of a file that [uicc_disk_load] reads through: the
    image at index [k] of the file is longer than an item header, its
    size field is its length, and its root has the type wanted at that
    index. *)
Definition image_ok (k : nat) (img : list Z) : bool :=
  (sizeof_item_hdr_raw <? Z.of_nat (length img))
  && (le_decode (buf_read img 0 4) =? Z.of_nat (length img))
  && negb (load_type_bad (Z.of_nat k) (item_type_of_Z (nth 5 img 0))).

Fixpoint images_ok (k : nat) (imgs : list (list Z)) : bool :=
  match imgs with
  | [] => true
  | img :: rest => image_ok k img && images_ok (S k) rest
  end.

(** A tree image whose root is a DF. *)
Definition df_root_image : list Z :=
  raw_folder UICC_FS_ITEM_TYPE_FILE_DF 0 0x7F10 0
    (raw_ef_transparent 30 0x6F01 1 [0xAA]).

(** An ADF image: the file header, the AID, one transparent EF. *)
Definition adf_image : list Z :=
  raw_file_hdr (sizeof_file_raw + UICC_FS_ADF_AID_LEN + 31)
    UICC_FS_ITEM_TYPE_FILE_ADF 0 0x7FF0 0 [] ++
  [0xA0; 0x00; 0x00; 0x00; 0x87] ++ repeat 0 11 ++
  raw_ef_transparent 46 0x6F01 1 [0xAA].

(** The loaded flat disk with the linear-fixed EF [6F3A] (two records
    of four bytes) selected, and with only the MF selected. *)
Definition lf_selected : uicc_st :=
  {| fs := snd (swicc_va_select_file_id flat_fs 0x6F3A);
     res := res_buf_empty |}.

Definition mf_selected : uicc_st :=
  {| fs := flat_mf_selected; res := res_buf_empty |}.

(** The linear-fixed EF [6F3A] of the flat disk, at offset 65. *)
Definition flat_lf : uicc_fs_file_st :=
  snd (uicc_fs_file_prs flat_tree 65).

(** A stand-in for the BER-TLV block of SELECT, for the examples: it
    stashes nothing and reports an unknown error. *)
Definition no_bertlv (st : uicc_st) (file : uicc_fs_file_st)
    (folder : bool) (req : data_req_e) : uicc_st * uicc_apdu_res_st :=
  (st, mk_res UICC_APDU_SW1_CHER_UNK 0).

(** A SELECT command with its data field. *)
Definition cmd_select (a b c : Z) (d : list Z) : uicc_apdu_cmd_st :=
  {| ins := 0xA4; p1 := a; p2 := b; p3 := c;
     cmd_data_len := Z.of_nat (length d); cmd_data_b := d |}.

(** An EF image inside a tree: its root is an EF, its size field is its
    length, and it holds at least its own header. *)
Definition ef_image_ok (img : list Z) : bool :=
  is_ef (item_type_of_Z (nth 5 img 0))
  && (le_decode (buf_read img 0 4) =? Z.of_nat (length img))
  && (sizeof_file_raw + hdr_spec_len (item_type_of_Z (nth 5 img 0))
      <=? Z.of_nat (length img)).

(** The offsets of images laid side by side from [off] on. *)
Fixpoint ef_offsets (off : Z) (efs : list (list Z)) : list Z :=
  match efs with
  | [] => []
  | img :: rest => off :: ef_offsets (off + Z.of_nat (length img)) rest
  end.

(** ** Unloading, saving and mounting a disk *)

(** [uicc_disk_unload]: the trees and the two kinds of LUT are freed,
    then the struct is cleared. *)
Definition uicc_disk_unload (disk : uicc_disk_st) : uicc_disk_st :=
  let disk1 := uicc_disk_root_empty disk in
  let disk2 := uicc_disk_lutid_empty disk1 in
  {| root := []; lutid := lut_zero |}.

(** The [while (tree != NULL)] loop of [uicc_disk_save]; [out] is what
    has been written to the file so far.  [fwrite(.., len, 1, f)] writes
    no item when [len] is 0, and reads [len] bytes of the tree buffer
    otherwise. *)
Fixpoint save_loop (trees : list uicc_disk_tree_st) (ret : uicc_ret_et)
    (out : list Z) : option (uicc_ret_et * list Z) :=
  match trees with
  | [] => Some (ret, out)
  | tree :: next =>
      if len tree =? 0 then Some (UICC_RET_ERROR, out)
      else
        match mem_read (buf tree) 0 (len tree) with
        | None => None
        | Some bytes => save_loop next UICC_RET_SUCCESS (out ++ bytes)
        end
  end.

(** [uicc_disk_save], with the magic of the image format as a
    parameter: the return code and the contents of the file written.
    Opening, writing and closing the file are taken to succeed. *)
Definition uicc_disk_save (UICC_DISK_MAGIC : list Z) (disk : uicc_disk_st)
  : option (uicc_ret_et * list Z) :=
  save_loop (root disk) UICC_RET_ERROR (magic_expected UICC_DISK_MAGIC).

(** [uicc_fs_disk_mount]: the disk struct is copied into the state when
    the state holds no disk. *)
Definition uicc_fs_disk_mount (uicc_state : uicc_st) (d : uicc_disk_st)
  : uicc_ret_et * uicc_st :=
  match root (disk (fs uicc_state)) with
  | [] =>
      (UICC_RET_SUCCESS,
       st_set_fs uicc_state {| disk := d; va := va (fs uicc_state) |})
  | _ :: _ => (UICC_RET_ERROR, uicc_state)
  end.

(** Entry [i] of a LUT: the items at [&lut->buf1[size_item1 * i]] and
    [&lut->buf2[size_item2 * i]]. *)
Definition lut_item1 (lut : uicc_disk_lut_st) (i : Z) : list Z :=
  buf_read (buf_of (buf1 lut)) (size_item1 lut * i) (size_item1 lut).

Definition lut_item2 (lut : uicc_disk_lut_st) (i : Z) : list Z :=
  buf_read (buf_of (buf2 lut)) (size_item2 lut * i) (size_item2 lut).

(** A table that [lut_insert] can extend in place: it is not full and
    its two buffers hold [count_max] entries. *)
Definition lut_has_room (lut : uicc_disk_lut_st) : Prop :=
  0 < size_item1 lut /\ 0 < size_item2 lut /\
  0 <= count lut < count_max lut /\ count_max lut <= 1073741824 /\
  size_item1 lut * count_max lut <= Z.of_nat (length (buf_of (buf1 lut))) /\
  size_item2 lut * count_max lut <= Z.of_nat (length (buf_of (buf2 lut))).

(** The items 1 of the entries in use are in increasing order (for the
    order of [memcmp]). *)
Definition lut_sorted (lut : uicc_disk_lut_st) : Prop :=
  forall i j, 0 <= i -> i <= j -> j < count lut ->
              memcmp (lut_item1 lut i) (lut_item1 lut j) <= 0.

(** The tree after an assignment to [tree->lutsid]. *)
Definition tree_set_lutsid (tree : uicc_disk_tree_st)
    (lut : uicc_disk_lut_st) : uicc_disk_tree_st :=
  {| buf := buf tree; len := len tree; tree_size := tree_size tree;
     lutsid := lut |}.

(** The index at which the scan of a lookup stops for [key]. *)
Definition lut_find (lut : uicc_disk_lut_st) (key : list Z) : Z :=
  lut_scan (Z.to_nat (count lut)) (buf_of (buf1 lut)) (size_item1 lut) key 0.

(** The table holds exactly the entries [es] (pairs of an item 1 and an
    item 2), each of them being what a lookup of its item 1 finds. *)
Definition lut_holds (lut : uicc_disk_lut_st)
    (es : list (list Z * list Z)) : Prop :=
  count lut = Z.of_nat (length es) /\
  (forall k v, In (k, v) es ->
     length k = Z.to_nat (size_item1 lut) /\
     lut_find lut k < count lut /\
     lut_item2 lut (lut_find lut k) = v) /\
  (forall k, length k = Z.to_nat (size_item1 lut) ->
             ~ In k (map fst es) -> lut_find lut k >= count lut).

(** The files of a tree made of a root header [hdr] and of the EF images
    [efs] laid side by side below it: what the parser gives at the
    offset of each. *)
Definition flat_files (hdr : list Z) (efs : list (list Z))
  : list uicc_fs_file_st :=
  map (fun off =>
         snd (uicc_fs_file_prs (tree_of_image (hdr ++ concat efs)) off))
      (0 :: ef_offsets (Z.of_nat (length hdr)) efs).

(** The root header of such a tree: 30 bytes, of type MF, whose size
    field is the length of the whole image. *)
Definition flat_root_ok (hdr : list Z) (efs : list (list Z)) : Prop :=
  length hdr = 30%nat /\ nth 5 hdr 0 = 1 /\
  le_decode (buf_read hdr 0 4) = Z.of_nat (length (hdr ++ concat efs)) /\
  Z.of_nat (length (hdr ++ concat efs)) <= UINT32_MAX.

(** A table as the two rebuilds allocate it: items of [s1] and [s2]
    bytes, buffers for [LUT_COUNT_START] entries. *)
Definition lut_fresh_shape (lut : uicc_disk_lut_st) (s1 s2 : Z) : Prop :=
  size_item1 lut = s1 /\ size_item2 lut = s2 /\
  count_max lut = LUT_COUNT_START /\ buf1 lut <> None /\
  s1 * LUT_COUNT_START <= Z.of_nat (length (buf_of (buf1 lut))) /\
  s2 * LUT_COUNT_START <= Z.of_nat (length (buf_of (buf2 lut))).

(** The files that get an entry in the SID LUT, and in the ID LUT. *)
Definition has_sid (f : uicc_fs_file_st) : bool :=
  negb (sid (hdr_file f) =? UICC_FS_SID_MISSING).

Definition has_id (f : uicc_fs_file_st) : bool :=
  negb (id (hdr_file f) =? UICC_FS_ID_MISSING).

(** The three EFs of the flat disk, and its root header. *)
Definition flat_efs : list (list Z) :=
  [raw_ef_transparent 30 0x6F07 0x07 [1; 2; 3; 4; 5];
   raw_ef_linearfixed 65 0x6F3A 0x03 4 [10; 11; 12; 13; 20; 21; 22; 23];
   raw_ef_linearfixed 104 0x6F3B 0x04 4 []].

Definition flat_hdr : list Z := firstn 30 flat_image.

(** An MF holding one EF whose size field is 0. *)
Definition zero_ef_image : list Z :=
  raw_file_hdr 60 UICC_FS_ITEM_TYPE_FILE_MF 0 0x3F00 0 [] ++
  raw_file_hdr 0 UICC_FS_ITEM_TYPE_FILE_EF_TRANSPARENT 30 0x6F01 1 [].

(** A tree whose image is all of its buffer, and is not empty. *)
Definition tree_image_ok (t : uicc_disk_tree_st) : Prop :=
  len t = Z.of_nat (length (buf t)) /\ 0 < len t.

(** ** The APDU dispatcher, [uicc_apduh_demux] *)

(** Modelled from the spec: the class byte of a command "is
    pre-classified as {INTERINDUSTRY, PROPRIETARY, RFU, INVALID}"; the
    enumeration is declared in [uicc/apdu.h], which is not among the
    sources, and its members are named as the dispatcher names them. *)
Inductive uicc_apdu_cla_type_et : Type :=
| UICC_APDU_CLA_TYPE_INVALID
| UICC_APDU_CLA_TYPE_RFU
| UICC_APDU_CLA_TYPE_INTERINDUSTRY
| UICC_APDU_CLA_TYPE_PROPRIETARY.

(** [uicc_apduh_ft]: a handler takes the state, the command and the
    procedure count, and gives a return code, the state and the
    response. *)
Definition uicc_apduh_ft : Type :=
  uicc_st -> uicc_apdu_cmd_st -> Z ->
  option (uicc_ret_et * uicc_st * uicc_apdu_res_st).

(** [apduh_unk], the handler of the instructions that are invalid or
    unknown. *)
Definition apduh_unk : uicc_apduh_ft :=
  fun uicc_state cmd procedure_count =>
    Some (UICC_RET_SUCCESS, uicc_state, mk_res UICC_APDU_SW1_CHER_INS 0).

(** [uicc_apduh_pro_register]: the handler of the proprietary class is
    a member of the state that the handlers above do not read; it is
    kept beside the state. *)
Definition uicc_apduh_pro_register (handler : option uicc_apduh_ft)
  : uicc_ret_et * option uicc_apduh_ft :=
  (UICC_RET_SUCCESS, handler).

Section Demux.
Variable bertlv_respond :
  uicc_st -> uicc_fs_file_st -> bool -> data_req_e ->
  uicc_st * uicc_apdu_res_st.

(** The table [uicc_apduh]: every instruction of the interindustry
    class has a handler, [apduh_unk] for all but six of them. *)
Definition uicc_apduh (i : Z) : uicc_apduh_ft :=
  if i =? 0xA4 then
    fun uicc_state cmd procedure_count =>
      Some (apduh_select bertlv_respond uicc_state cmd procedure_count)
  else if (i =? 0xB0) || (i =? 0xB1) then apduh_bin_read
  else if (i =? 0xB2) || (i =? 0xB3) then apduh_rcrd_read
  else if i =? 0xC0 then
    fun uicc_state cmd procedure_count =>
      Some (apduh_res_get uicc_state cmd procedure_count)
  else apduh_unk.

(** [uicc_apduh_demux]; [cla_type] is [cmd->hdr->cla.type] and
    [apduh_pro] is [uicc_state->internal.apduh_pro]. *)
Definition uicc_apduh_demux (apduh_pro : option uicc_apduh_ft)
    (uicc_state : uicc_st) (cla_type : uicc_apdu_cla_type_et)
    (cmd : uicc_apdu_cmd_st) (procedure_count : Z)
  : option (uicc_ret_et * uicc_st * uicc_apdu_res_st) :=
  let unhandled (st : uicc_st) (data_b : list Z) :=
    Some (UICC_RET_SUCCESS, st,
          {| sw1 := UICC_APDU_SW1_CHER_INS; sw2 := 0;
             resp_data_len := 0; resp_data_b := data_b |}) in
  match cla_type with
  | UICC_APDU_CLA_TYPE_INVALID
  | UICC_APDU_CLA_TYPE_RFU =>
      Some (UICC_RET_SUCCESS, uicc_state, mk_res UICC_APDU_SW1_CHER_CLA 0)
  | UICC_APDU_CLA_TYPE_INTERINDUSTRY =>
      match uicc_apduh (ins cmd) uicc_state cmd procedure_count with
      | None => None
      | Some (UICC_RET_APDU_UNHANDLED, st, res) =>
          unhandled st (resp_data_b res)
      | Some (ret, st, res) => Some (ret, st, res)
      end
  | UICC_APDU_CLA_TYPE_PROPRIETARY =>
      match apduh_pro with
      | None => unhandled uicc_state []
      | Some handler => handler uicc_state cmd procedure_count
      end
  end.
End Demux.

(** A stand-in for a proprietary handler that declines every command. *)
Definition pro_unhandled : uicc_apduh_ft :=
  fun uicc_state cmd procedure_count =>
    Some (UICC_RET_APDU_UNHANDLED, uicc_state, mk_res UICC_APDU_SW1_CHER_UNK 0).

(** A forest of two trees, the flat MF tree and the ADF tree, with no
    file selected. *)
Definition two_tree_fs : uicc_fs_st :=
  {| disk := {| root := [tree_of_image flat_image; tree_of_image adf_image];
                lutid := lut_zero |};
     va := va_zero |}.



(** * Properties *)

Ltac break_match :=
  match goal with
  | |- context [match ?x with _ => _ end] => destruct x eqn:?
  end.

(** Splits conjunctions only (never tries to close an equation). *)
Ltac split_all := repeat match goal with |- _ /\ _ => split end.

(** ** The example disks *)

Example le_decode_le_encode : le_decode (le_encode 4 0x12345678) = 0x12345678.
Proof. reflexivity. Qed.

Example flat_image_length : length flat_image = 135%nat.
Proof. reflexivity. Qed.

(** A tree whose files all sit directly under the root is walked from
    end to end. *)
Example foreach_flat_disk (k : nat) :
  uicc_disk_tree_file_foreach visit_cb (4 + k)
    (Some (tree_of_image flat_image)) [] =
  Some (UICC_RET_SUCCESS, [0; 30; 65; 104]).
Proof. vm_compute. reflexivity. Qed.

(** The flat disk loads, and each of its four files is found by FID. *)
Example loaded_flat_disk :
  uicc_disk_load junk_zero example_magic 100 disk_zero
    (Some (example_magic ++ flat_image)) =
    Some (UICC_RET_SUCCESS, loaded_disk flat_image) /\
  map (fun fid =>
         fst (fst (uicc_disk_lutid_lookup (loaded_disk flat_image) fid)))
      [0x3F00; 0x6F07; 0x6F3A; 0x6F3B] =
    repeat UICC_RET_SUCCESS 4 /\
  map (fun fid =>
         offset_trel
           (hdr_item
              (snd (uicc_disk_lutid_lookup (loaded_disk flat_image) fid))))
      [0x3F00; 0x6F07; 0x6F3A; 0x6F3B] = [0; 30; 65; 104].
Proof. split_all; vm_compute; reflexivity. Qed.

(** The walk that builds the SID LUT fails on the scenario disk (see
    [foreach_scenario_disk] below), and the load with it. *)
Example load_scenario_disk :
  uicc_disk_load junk_zero example_magic 100 disk_zero
    (Some (example_magic ++ scenario_image)) =
    Some (UICC_RET_ERROR, disk_zero).
Proof. vm_compute. reflexivity. Qed.

(** ** READ BINARY *)

(** In offset mode the handler answers out of [cur_root]: the bytes are
    those under [va.cur_root.data], the data of the current EF is never
    read, and the readable length goes through a cast to [uint8_t]. *)
Lemma apduh_bin_read_offset_mode (st : uicc_st) (cmd : uicc_apdu_cmd_st)
    (pc : Z) :
  ins cmd = 0xB0 -> pc <> 0 -> cmd_data_len cmd = 0 ->
  Z.land (p1 cmd) 0x80 = 0 ->
  type (hdr_item (cur_ef (va (fs st)))) =
    UICC_FS_ITEM_TYPE_FILE_EF_TRANSPARENT ->
  let ef := cur_ef (va (fs st)) in
  let offset := u16 (Z.lor (Z.shiftl (Z.land 0x7F (p1 cmd)) 8) (p2 cmd)) in
  let len_readable := u8 (data_size ef - offset) in
  let len_read := Z.min (p3 cmd) len_readable in
  offset < data_size ef ->
  apduh_bin_read st cmd pc =
    match mem_read (data (cur_root (va (fs st)))) offset len_read with
    | None => None
    | Some bytes =>
        Some (UICC_RET_SUCCESS, st,
              {| sw1 := if len_read <? p3 cmd
                        then UICC_APDU_SW1_WARN_NVM_CHGN
                        else UICC_APDU_SW1_NORM_NONE;
                 sw2 := if len_read <? p3 cmd then 0x82 else 0;
                 resp_data_len := len_read;
                 resp_data_b := bytes |})
    end.
Proof.
  intros Hins Hpc Hlc Hp1 Hty ef offset len_readable len_read Hoff.
  unfold apduh_bin_read.
  rewrite Hins, Hlc, Hp1. cbn [Z.eqb negb].
  replace (pc =? 0) with false by (symmetry; apply Z.eqb_neq; exact Hpc).
  cbn [Z.eqb negb Pos.eqb].
  rewrite Hty. cbv beta iota zeta. rewrite Hty.
  fold ef. fold offset.
  replace (offset >=? data_size ef) with false
    by (symmetry; rewrite Z.geb_leb; apply Z.leb_gt; exact Hoff).
  fold len_readable.
  assert (Hlr : (if p3 cmd >? len_readable then len_readable else p3 cmd)
                = len_read).
  { unfold len_read. rewrite Z.gtb_ltb.
    destruct (Z.ltb_spec len_readable (p3 cmd)); lia. }
  rewrite Hlr.
  destruct (mem_read (data (cur_root (va (fs st)))) offset len_read);
    [ | reflexivity ].
  destruct (len_read <? p3 cmd); reflexivity.
Qed.

Lemma apduh_bin_read_offset_mode_witness :
  apduh_bin_read long_ef_state (cmd_case2 0xB0 0 0 100) 1 =
  Some (UICC_RET_SUCCESS, long_ef_state,
        {| sw1 := UICC_APDU_SW1_WARN_NVM_CHGN; sw2 := 0x82;
           resp_data_len := 44; resp_data_b := repeat 0xAB 44 |}).
Proof.
  rewrite (apduh_bin_read_offset_mode long_ef_state
             (cmd_case2 0xB0 0 0 100) 1);
    [ reflexivity | reflexivity | discriminate | reflexivity
    | reflexivity | reflexivity | vm_compute; reflexivity ].
Defined.

(** C1 (the code departs from the claim).  Once the EF [6F07] holding
    01 02 03 04 05 is the current EF (selected by FID on the loaded flat
    disk, or selected on the scenario disk), the command [B0 00 00 05]
    yields no response at all: the handler copies from
    [va.cur_root.data], a member that the selection has cleared, and not
    from the data of the EF.  Where [cur_root] does designate readable
    bytes, a transparent EF of 300 bytes read with Ne = 100 returns 44
    bytes and SW 6282, the readable length being cut to eight bits. *)
Theorem C1_read_binary_scenario :
  fst (swicc_va_select_file_id flat_fs 0x6F07) = UICC_RET_SUCCESS /\
  type (hdr_item (cur_ef (va (fs flat_selected)))) =
    UICC_FS_ITEM_TYPE_FILE_EF_TRANSPARENT /\
  data_size (cur_ef (va (fs flat_selected))) = 5 /\
  buf_read (data (cur_ef (va (fs flat_selected)))) 0 5 = [1; 2; 3; 4; 5] /\
  apduh_bin_read flat_selected (cmd_case2 0xB0 0 0 5) 1 = None /\
  type (hdr_item (cur_ef (va (fs scenario_selected)))) =
    UICC_FS_ITEM_TYPE_FILE_EF_TRANSPARENT /\
  data_size (cur_ef (va (fs scenario_selected))) = 5 /\
  buf_read (data (cur_ef (va (fs scenario_selected)))) 0 5 = [1; 2; 3; 4; 5] /\
  data (cur_root (va (fs scenario_selected))) = [] /\
  apduh_bin_read scenario_selected (cmd_case2 0xB0 0 0 5) 1 = None /\
  data_size (cur_ef (va (fs long_ef_state))) = 300 /\
  option_map snd (apduh_bin_read long_ef_state (cmd_case2 0xB0 0 0 100) 1) =
    Some {| sw1 := UICC_APDU_SW1_WARN_NVM_CHGN; sw2 := 0x82;
            resp_data_len := 44; resp_data_b := repeat 0xAB 44 |}.
Proof.
  split_all; vm_compute; reflexivity.
Qed.

(** ** The file walk *)

(** *** Trees without DFs

    When every file below the root is an EF, the cursor of depth 1 moves
    from EF to EF and reaches the size of the root exactly at the end:
    the walk hands every file to the callback once, in order, and
    succeeds. *)

Lemma foreach_loop_done {U : Type}
    (cb : uicc_disk_tree_st -> uicc_fs_file_st -> U -> uicc_ret_et * U)
    (fuel : nat) (tree : uicc_disk_tree_st) (root_size c a b : Z) (u : U) :
  root_size <= c ->
  foreach_loop cb (S fuel) tree root_size [c; a; b] 1 u =
  Some (UICC_RET_SUCCESS, u).
Proof.
  intros Hc. cbn [foreach_loop].
  change (1 <? UICC_FS_DEPTH_MAX) with true. cbv beta iota zeta.
  unfold stack_at. change (Z.to_nat (1 - 1)) with 0%nat. cbn [nth].
  replace (c >=? root_size) with true
    by (symmetry; rewrite Z.geb_leb; apply Z.leb_le; lia).
  reflexivity.
Qed.

Lemma foreach_loop_ef {U : Type}
    (cb : uicc_disk_tree_st -> uicc_fs_file_st -> U -> uicc_ret_et * U)
    (fuel : nat) (tree : uicc_disk_tree_st) (root_size c a b : Z) (u : U)
    (f : uicc_fs_file_st) :
  c < root_size ->
  uicc_fs_file_prs tree c = (UICC_RET_SUCCESS, f) ->
  is_ef (type (hdr_item f)) = true ->
  foreach_loop cb (S fuel) tree root_size [c; a; b] 1 u =
  match fst (cb tree f u) with
  | UICC_RET_SUCCESS =>
      foreach_loop cb fuel tree root_size
        [u32 (c + size (hdr_item f)); a; b] 1 (snd (cb tree f u))
  | r => Some (r, snd (cb tree f u))
  end.
Proof.
  intros Hc Hf Hty. cbn [foreach_loop].
  change (1 <? UICC_FS_DEPTH_MAX) with true. cbv beta iota zeta.
  unfold stack_at. change (Z.to_nat (1 - 1)) with 0%nat. cbn [nth].
  replace (c >=? root_size) with false
    by (symmetry; rewrite Z.geb_leb; apply Z.leb_gt; lia).
  cbn [andb]. cbv iota. change (Z.to_nat (1 - 1)) with 0%nat. cbn [nth].
  rewrite Hf. 
  unfold stack_put. change (Z.to_nat (1 - 1)) with 0%nat. cbn [stack_set].
  destruct (cb tree f u) as [r u1]. cbn [fst snd].
  destruct r; try reflexivity.
  destruct (type (hdr_item f)); try discriminate Hty; reflexivity.
Qed.

Lemma buf_read_suffix (pre rest : list Z) :
  buf_read (pre ++ rest) (Z.of_nat (length pre))
    (Z.of_nat (length (pre ++ rest)) - Z.of_nat (length pre)) = rest.
Proof.
  unfold buf_read. rewrite Nat2Z.id.
  rewrite skipn_app, skipn_all, Nat.sub_diag. cbn [app skipn].
  apply firstn_all2. rewrite length_app. lia.
Qed.

Lemma file_prs_ef_inside (pre img post : list Z) :
  ef_image_ok img = true ->
  let t := tree_of_image (pre ++ img ++ post) in
  let r := uicc_fs_file_prs t (Z.of_nat (length pre)) in
  fst r = UICC_RET_SUCCESS /\
  is_ef (type (hdr_item (snd r))) = true /\
  size (hdr_item (snd r)) = Z.of_nat (length img) /\
  offset_trel (hdr_item (snd r)) = Z.of_nat (length pre).
Proof.
  intros Hok t r. unfold ef_image_ok in Hok.
  apply andb_prop in Hok. destruct Hok as [Hok Hlen].
  apply andb_prop in Hok. destruct Hok as [Hty Hsz].
  apply Z.eqb_eq in Hsz. apply Z.leb_le in Hlen.
  assert (H30 : 30 <= Z.of_nat (length img)).
  { unfold sizeof_file_raw in Hlen.
    destruct (item_type_of_Z (nth 5 img 0)); cbn in Hlen; lia. }
  subst r. unfold uicc_fs_file_prs, t, tree_of_image. cbn [buf len].
  replace (Z.of_nat (length pre) <? 0) with false
    by (symmetry; apply Z.ltb_ge; lia).
  assert (Hl : Z.of_nat (length (pre ++ img ++ post)) =
               Z.of_nat (length pre) + Z.of_nat (length img)
               + Z.of_nat (length post))
    by (rewrite !length_app; lia).
  replace (Z.of_nat (length (pre ++ img ++ post))
           <? Z.of_nat (length pre) + sizeof_file_raw) with false
    by (symmetry; apply Z.ltb_ge; unfold sizeof_file_raw; lia).
  cbn [orb].
  rewrite buf_read_suffix.
  assert (Hnth : nth 5 (img ++ post) 0 = nth 5 img 0)
    by (apply app_nth1; lia).
  assert (Hrd : buf_read (img ++ post) 0 4 = buf_read img 0 4).
  { unfold buf_read. change (Z.to_nat 0) with 0%nat. rewrite !skipn_O.
    rewrite firstn_app.
    replace (Z.to_nat 4 - length img)%nat with 0%nat by lia.
    cbn [firstn]. apply app_nil_r. }
  cbv zeta. unfold uicc_fs_item_hdr_prs. cbn [type size].
  rewrite Hnth, Hrd, Hsz.
  replace (Z.of_nat (length (pre ++ img ++ post))
           <? Z.of_nat (length pre) +
              (sizeof_file_raw + hdr_spec_len (item_type_of_Z (nth 5 img 0))))
    with false by (symmetry; apply Z.ltb_ge; lia).
  cbn [fst snd hdr_item type size offset_trel].
  split; [ reflexivity | ]. split; [ exact Hty | ]. split; reflexivity.
Qed.

Lemma foreach_loop_flat (efs : list (list Z)) :
  forall (k : nat) (pre : list Z) (a b : Z) (seen : list Z),
    forallb ef_image_ok efs = true ->
    Z.of_nat (length (pre ++ concat efs)) <= UINT32_MAX ->
    foreach_loop visit_cb (S (length efs) + k)
      (tree_of_image (pre ++ concat efs))
      (Z.of_nat (length (pre ++ concat efs)))
      [Z.of_nat (length pre); a; b] 1 seen =
    Some (UICC_RET_SUCCESS, seen ++ ef_offsets (Z.of_nat (length pre)) efs).
Proof.
  induction efs as [ | img efs IH]; intros k pre a b seen Hok Hmax.
  - cbn [concat length ef_offsets Nat.add]. rewrite !app_nil_r.
    apply foreach_loop_done. lia.
  - cbn [forallb] in Hok. apply andb_prop in Hok. destruct Hok as [Hok1 Hok].
    cbn [concat length ef_offsets Nat.add].
    destruct (file_prs_ef_inside pre img (concat efs) Hok1)
      as (Hr & Hty & Hsz & Hoff).
    assert (H30 : 30 <= Z.of_nat (length img)).
    { unfold ef_image_ok in Hok1.
      apply andb_prop in Hok1. destruct Hok1 as [_ Hlen].
      apply Z.leb_le in Hlen. unfold sizeof_file_raw in Hlen.
      destruct (item_type_of_Z (nth 5 img 0)); cbn in Hlen; lia. }
    assert (Hl : Z.of_nat (length (pre ++ img ++ concat efs)) =
                 Z.of_nat (length pre) + Z.of_nat (length img)
                 + Z.of_nat (length (concat efs)))
      by (rewrite !length_app; lia).
    destruct (uicc_fs_file_prs (tree_of_image (pre ++ img ++ concat efs))
                (Z.of_nat (length pre))) as [r f] eqn:Hf.
    cbn [fst snd] in Hr, Hty, Hsz, Hoff. subst r.
    rewrite (foreach_loop_ef visit_cb _ _ _ _ a b seen f); try assumption;
      [ | lia ].
    unfold visit_cb. cbn [fst snd]. rewrite Hoff, Hsz.
    fold visit_cb.
    replace (u32 (Z.of_nat (length pre) + Z.of_nat (length img)))
      with (Z.of_nat (length (pre ++ img)))
      by (cbn [concat] in Hmax; unfold UINT32_MAX in Hmax;
          rewrite length_app, Nat2Z.inj_add; unfold u32;
          rewrite Z.mod_small; lia).
    rewrite (app_assoc pre img (concat efs)).
    change (S (length efs + k)) with (S (length efs) + k)%nat.
    rewrite (IH k (pre ++ img) a b (seen ++ [Z.of_nat (length pre)]) Hok)
      by (rewrite <- app_assoc; exact Hmax).
    rewrite <- app_assoc. cbn [app].
    rewrite length_app, Nat2Z.inj_add. reflexivity.
Qed.

(** X1.  The walk of a tree made of a root MF and of EFs: with enough
    fuel it succeeds, and the callback has been given the root and then
    every EF, once each and in the order of the image. *)
Theorem foreach_flat_tree (hdr : list Z) (efs : list (list Z)) (k : nat) :
  length hdr = 30%nat ->
  nth 5 hdr 0 = 1 ->
  le_decode (buf_read hdr 0 4) = Z.of_nat (length (hdr ++ concat efs)) ->
  forallb ef_image_ok efs = true ->
  Z.of_nat (length (hdr ++ concat efs)) <= UINT32_MAX ->
  uicc_disk_tree_file_foreach visit_cb (S (length efs) + k)
    (Some (tree_of_image (hdr ++ concat efs))) [] =
  Some (UICC_RET_SUCCESS, 0 :: ef_offsets 30 efs).
Proof.
  intros Hlen Hty Hsz Hok Hmax.
  assert (Hroot : exists f,
             uicc_fs_file_prs (tree_of_image (hdr ++ concat efs)) 0 =
               (UICC_RET_SUCCESS, f) /\
             type (hdr_item f) = UICC_FS_ITEM_TYPE_FILE_MF /\
             size (hdr_item f) = Z.of_nat (length (hdr ++ concat efs)) /\
             offset_trel (hdr_item f) = 0).
  { unfold uicc_fs_file_prs, tree_of_image. cbn [buf len].
    assert (Hl : Z.of_nat (length (hdr ++ concat efs)) =
                 30 + Z.of_nat (length (concat efs)))
      by (rewrite length_app, Hlen; lia).
    change (0 <? 0) with false.
    replace (Z.of_nat (length (hdr ++ concat efs)) <? 0 + sizeof_file_raw)
      with false by (symmetry; apply Z.ltb_ge; unfold sizeof_file_raw; lia).
    cbn [orb].
    replace (Z.of_nat (length (hdr ++ concat efs)) - 0)
      with (Z.of_nat (length (hdr ++ concat efs))) by lia.
    assert (Hall : buf_read (hdr ++ concat efs) 0
                     (Z.of_nat (length (hdr ++ concat efs))) =
                   hdr ++ concat efs).
    { unfold buf_read. change (Z.to_nat 0) with 0%nat. rewrite skipn_O.
      rewrite Nat2Z.id. apply firstn_all. }
    rewrite Hall.
    assert (Hnth : nth 5 (hdr ++ concat efs) 0 = nth 5 hdr 0)
      by (apply app_nth1; lia).
    assert (Hrd : buf_read (hdr ++ concat efs) 0 4 = buf_read hdr 0 4).
    { unfold buf_read. change (Z.to_nat 0) with 0%nat. rewrite !skipn_O.
      rewrite firstn_app.
      replace (Z.to_nat 4 - length hdr)%nat with 0%nat by lia.
      cbn [firstn]. apply app_nil_r. }
    cbv zeta. unfold uicc_fs_item_hdr_prs. cbn [type size].
    rewrite Hnth, Hrd, Hty, Hsz.
    change (item_type_of_Z 1) with UICC_FS_ITEM_TYPE_FILE_MF.
    cbn [hdr_spec_len].
    replace (Z.of_nat (length (hdr ++ concat efs))
             <? 0 + (sizeof_file_raw + 0))
      with false by (symmetry; apply Z.ltb_ge; unfold sizeof_file_raw; lia).
    eexists. split; [ reflexivity | ].
    cbn [hdr_item type size offset_trel]. split_all; reflexivity. }
  destruct Hroot as (f & Hf & Hft & Hfs & Hfo).
  unfold uicc_disk_tree_file_foreach, uicc_disk_tree_file_root.
  rewrite Hf. cbv beta iota zeta. rewrite Hft.
  unfold visit_cb at 1. cbv beta iota zeta. rewrite Hft, Hfs, Hfo.
  cbn [app]. unfold sizeof_file_raw.
  change (30 + 0) with (Z.of_nat 30). rewrite <- Hlen.
  rewrite (foreach_loop_flat efs k hdr 0 0 [0] Hok Hmax).
  rewrite Hlen. reflexivity.
Qed.

Lemma foreach_flat_tree_witness :
  uicc_disk_tree_file_foreach visit_cb 5 (Some (tree_of_image flat_image)) []
  = Some (UICC_RET_SUCCESS, [0; 30; 65; 104]).
Proof.
  exact (foreach_flat_tree
           (firstn 30 flat_image)
           [raw_ef_transparent 30 0x6F07 0x07 [1; 2; 3; 4; 5];
            raw_ef_linearfixed 65 0x6F3A 0x03 4
              [10; 11; 12; 13; 20; 21; 22; 23];
            raw_ef_linearfixed 104 0x6F3B 0x04 4 []]
           1 eq_refl eq_refl eq_refl eq_refl
           ltac:(vm_compute; discriminate)).
Defined.

(** *** Trees with DFs *)

(** On the scenario disk (one DF holding one EF) the three files are
    visited, but after the EF the cursor of the DF reaches the size of
    the root, the walk goes one level up and at once parses a file at
    the end of the tree: it ends with an error. *)
Lemma foreach_scenario_disk (k : nat) :
  uicc_disk_tree_file_foreach visit_cb (3 + k)
    (Some (tree_of_image scenario_image)) [] =
  Some (UICC_RET_ERROR, [0; 30; 60]).
Proof. vm_compute. reflexivity. Qed.

(** C2 (the code departs from the claim).  On an MF with two sibling
    DFs holding one EF each, the walk reports success after four
    callbacks: MF, first DF, its EF, second DF.  The second DF is met
    while the walk is still at the depth of the first one (a level is
    left only when the cursor reaches the size of the root), entering it
    brings the depth to [UICC_FS_DEPTH_MAX] and the loop stops; the EF at
    offset 121 is never handed to the callback. *)
Theorem C2_walk_skips_files (k : nat) :
  uicc_disk_tree_file_foreach visit_cb (4 + k)
    (Some (tree_of_image siblings_image)) [] =
  Some (UICC_RET_SUCCESS, [0; 30; 60; 91]) /\
  fst (uicc_fs_file_prs (tree_of_image siblings_image) 121) =
    UICC_RET_SUCCESS /\
  type (hdr_item (snd (uicc_fs_file_prs (tree_of_image siblings_image) 121)))
    = UICC_FS_ITEM_TYPE_FILE_EF_TRANSPARENT /\
  121 + size (hdr_item
                (snd (uicc_fs_file_prs (tree_of_image siblings_image) 121)))
    = len (tree_of_image siblings_image) /\
  ~ In 121 [0; 30; 60; 91].
Proof.
  split_all; try (vm_compute; reflexivity).
  intros H. repeat (destruct H as [H | H]; [discriminate H | ]). exact H.
Qed.

(** ** The ID lookup table *)

(** When the table is full, [lut_insert] takes fresh buffers and goes on
    with them: what it returns does not depend on the entries that were
    in the table. *)
Lemma lut_insert_full_forgets (junk : nat -> Z)
    (l l' : uicc_disk_lut_st) (e1 e2 : list Z) :
  count l >= count_max l ->
  size_item1 l' = size_item1 l -> size_item2 l' = size_item2 l ->
  count l' = count l -> count_max l' = count_max l ->
  lut_insert junk l' e1 e2 = lut_insert junk l e1 e2.
Proof.
  intros Hfull H1 H2 Hc Hm.
  unfold lut_insert.
  rewrite Hc, Hm, H1, H2.
  replace (count l >=? count_max l) with true
    by (symmetry; rewrite Z.geb_leb; apply Z.leb_le; lia).
  reflexivity.
Qed.

Lemma lut_insert_full_forgets_witness :
  lut_insert junk_zero
    {| buf1 := Some [0x3F; 0x00]; buf2 := Some [0; 0; 0; 0; 0];
       size_item1 := 2; size_item2 := 5; count := 1; count_max := 1 |}
    [0x6F; 0x07] [60; 0; 0; 0; 0] =
  lut_insert junk_zero
    {| buf1 := Some [0x2F; 0x00]; buf2 := Some [9; 0; 0; 0; 0];
       size_item1 := 2; size_item2 := 5; count := 1; count_max := 1 |}
    [0x6F; 0x07] [60; 0; 0; 0; 0].
Proof.
  apply lut_insert_full_forgets; cbn; (reflexivity || lia).
Defined.

(** C3 (the code departs from the claim).  The disk holds an MF [3F00]
    with 64 EFs [1001] .. [1040].  The rebuild succeeds and counts 65
    entries, but the 65th insertion found the table full: with fresh
    memory that is zero-filled, the FIDs of the first 64 files are gone,
    and looking up [3F00] or [1001] reports "not found"; only the last
    file is still found. *)
Theorem C3_lutid_growth_loses_entries (k : nat) :
  exists d,
    uicc_disk_lutid_rebuild junk_zero (66 + k) many_disk =
      Some (UICC_RET_SUCCESS, d) /\
    count (lutid d) = 65 /\
    id (hdr_file (snd (uicc_fs_file_prs (tree_of_image many_image) 0)))
      = 0x3F00 /\
    id (hdr_file (snd (uicc_fs_file_prs (tree_of_image many_image) 30)))
      = 0x1001 /\
    fst (fst (uicc_disk_lutid_lookup d 0x3F00)) = UICC_RET_FS_NOT_FOUND /\
    fst (fst (uicc_disk_lutid_lookup d 0x1001)) = UICC_RET_FS_NOT_FOUND /\
    fst (fst (uicc_disk_lutid_lookup d 0x1040)) = UICC_RET_SUCCESS.
Proof.
  eexists. split.
  - vm_compute. reflexivity.
  - split_all; vm_compute; reflexivity.
Qed.

(** ** GET RESPONSE *)

(** Whatever the cursor, the bytes handed out are the first [p3] bytes
    of the response buffer. *)
Lemma apduh_res_get_copies_from_start (st : uicc_st)
    (cmd : uicc_apdu_cmd_st) (pc : Z) :
  resp_data_len (snd (apduh_res_get st cmd pc)) <> 0 ->
  resp_data_b (snd (apduh_res_get st cmd pc)) =
    buf_read (res_b (res st)) 0 (p3 cmd).
Proof.
  unfold apduh_res_get.
  repeat match goal with
         | |- context [if ?c then _ else _] => destruct c
         end; cbn; intros H; try reflexivity; exfalso; apply H; reflexivity.
Qed.

Lemma apduh_res_get_copies_from_start_witness :
  resp_data_b (snd (apduh_res_get stash_state_2 (cmd_case2 0xC0 0 0 2) 1)) =
    buf_read (res_b (res stash_state_2)) 0 2.
Proof.
  apply (apduh_res_get_copies_from_start stash_state_2
           (cmd_case2 0xC0 0 0 2) 1).
  vm_compute. discriminate.
Defined.

(** What GET RESPONSE answers when at least [p3 > 0] bytes are pending:
    status word and cursor move as the bytes are handed out, but the
    bytes are read at the start of the buffer. *)
Lemma apduh_res_get_pending (st : uicc_st) (cmd : uicc_apdu_cmd_st)
    (pc : Z) :
  pc <> 0 -> cmd_data_len cmd = 0 -> p1 cmd = 0 -> p2 cmd = 0 ->
  0 < p3 cmd <= 255 ->
  0 <= res_offset (res st) <= res_len (res st) ->
  res_len (res st) <= 256 ->
  let available := res_len (res st) - res_offset (res st) in
  (p3 cmd < available ->
   apduh_res_get st cmd pc =
     (UICC_RET_SUCCESS,
      st_set_res st
        {| res_b := res_b (res st); res_len := res_len (res st);
           res_offset := res_offset (res st) + p3 cmd |},
      {| sw1 := UICC_APDU_SW1_NORM_BYTES_AVAILABLE;
         sw2 := available - p3 cmd;
         resp_data_len := p3 cmd;
         resp_data_b := buf_read (res_b (res st)) 0 (p3 cmd) |})) /\
  (p3 cmd = available ->
   apduh_res_get st cmd pc =
     (UICC_RET_SUCCESS,
      st_set_res st
        {| res_b := res_b (res st); res_len := res_len (res st);
           res_offset := res_len (res st) |},
      {| sw1 := UICC_APDU_SW1_NORM_NONE; sw2 := 0;
         resp_data_len := p3 cmd;
         resp_data_b := buf_read (res_b (res st)) 0 (p3 cmd) |})).
Proof.
  intros Hpc Hlc Hp1 Hp2 Hp3 Hoff Hlen available.
  unfold apduh_res_get.
  rewrite Hlc, Hp1, Hp2. cbn [Z.eqb negb orb].
  replace (pc =? 0) with false by (symmetry; apply Z.eqb_neq; exact Hpc).
  replace (p3 cmd =? 0) with false by (symmetry; apply Z.eqb_neq; lia).
  assert (Hav : u16 (res_len (res st) - res_offset (res st)) = available).
  { unfold u16, available. apply Z.mod_small. lia. }
  rewrite Hav.
  split; intros H.
  - replace (available <? p3 cmd) with false
      by (symmetry; apply Z.ltb_ge; lia).
    replace (available =? p3 cmd) with false
      by (symmetry; apply Z.eqb_neq; lia).
    assert (Hrem : u16 (available - p3 cmd) = available - p3 cmd).
    { unfold u16, available. apply Z.mod_small. lia. }
    rewrite Hrem.
    replace (available - p3 cmd >? UINT8_MAX) with false
      by (symmetry; rewrite Z.gtb_ltb; apply Z.ltb_ge;
          unfold UINT8_MAX, available; lia).
    replace (u8 (available - p3 cmd)) with (available - p3 cmd)
      by (symmetry; unfold u8, available; apply Z.mod_small; lia).
    replace (u16 (res_offset (res st) + p3 cmd))
      with (res_offset (res st) + p3 cmd)
      by (symmetry; unfold u16; apply Z.mod_small; lia).
    reflexivity.
  - replace (available <? p3 cmd) with false
      by (symmetry; apply Z.ltb_ge; lia).
    replace (available =? p3 cmd) with true
      by (symmetry; apply Z.eqb_eq; lia).
    reflexivity.
Qed.

(** C4 (the code departs from the claim).  With 11 22 33 44 stashed, a
    first [C0 00 00 02] returns 11 22 with SW 61 02 and moves the cursor
    to 2; the second [C0 00 00 02] returns SW 9000, sets the cursor to
    the length, and hands out 11 22 again instead of the pending bytes
    33 44: the copy always starts at the beginning of the buffer. *)
Theorem C4_get_response_repeats_chunk :
  apduh_res_get stash_state (cmd_case2 0xC0 0 0 2) 1 =
    (UICC_RET_SUCCESS, stash_state_2,
     {| sw1 := UICC_APDU_SW1_NORM_BYTES_AVAILABLE; sw2 := 2;
        resp_data_len := 2; resp_data_b := [0x11; 0x22] |}) /\
  res_offset (res stash_state_2) = 2 /\
  res_len (res stash_state_2) = 4 /\
  buf_read (res_b (res stash_state_2)) (res_offset (res stash_state_2)) 2 =
    [0x33; 0x44] /\
  snd (apduh_res_get stash_state_2 (cmd_case2 0xC0 0 0 2) 1) =
    {| sw1 := UICC_APDU_SW1_NORM_NONE; sw2 := 0;
       resp_data_len := 2; resp_data_b := [0x11; 0x22] |} /\
  res_offset (res (snd (fst (apduh_res_get stash_state_2
                               (cmd_case2 0xC0 0 0 2) 1)))) = 4.
Proof.
  split_all; vm_compute; reflexivity.
Qed.

(** ** The VA operations *)


(** A selection that does not succeed leaves the file system as it
    was. *)
Lemma va_select_file_failure (fs0 : uicc_fs_st) (tree : tree_ptr)
    (file : uicc_fs_file_st) :
  fst (va_select_file fs0 tree file) <> UICC_RET_SUCCESS ->
  snd (va_select_file fs0 tree file) = fs0.
Proof.
  unfold va_select_file.
  destruct (uicc_disk_tree_file_root (tree_deref (disk fs0) tree))
    as [r file_root].
  destruct r; cbn; try reflexivity.
  destruct (swicc_disk_tree_file_parent (tree_deref (disk fs0) tree) file)
    as [r file_parent].
  destruct r; cbn; try reflexivity.
  destruct (type (hdr_item file)); cbn; intros H;
    try reflexivity; exfalso; apply H; reflexivity.
Qed.

Lemma va_select_file_disk (fs0 : uicc_fs_st) (tree : tree_ptr)
    (file : uicc_fs_file_st) :
  disk (snd (va_select_file fs0 tree file)) = disk fs0.
Proof.
  unfold va_select_file.
  repeat break_match; reflexivity.
Qed.

Lemma select_adf_loop_failure (fuel : nat) (fs0 : uicc_fs_st)
    (it : uicc_disk_tree_iter_st) (aid : list Z) (pix_len : Z) :
  fst (select_adf_loop fuel fs0 it aid pix_len) <> UICC_RET_SUCCESS ->
  snd (select_adf_loop fuel fs0 it aid pix_len) = fs0.
Proof.
  revert it. induction fuel as [ | fuel IH]; intros it; cbn [select_adf_loop].
  - reflexivity.
  - destruct (uicc_disk_tree_iter_next (disk fs0) it) as [[r it'] tree].
    destruct r; cbn; try reflexivity.
    destruct (uicc_disk_tree_file_root (tree_deref (disk fs0) tree))
      as [r file_root].
    destruct r; cbn; try reflexivity.
    destruct (type (hdr_item file_root)); cbn; try reflexivity.
    break_match.
    + apply va_select_file_failure.
    + apply IH.
Qed.

Lemma select_file_sid_failure (fs0 : uicc_fs_st) (s : Z) :
  fst (swicc_va_select_file_sid fs0 s) <> UICC_RET_SUCCESS ->
  snd (swicc_va_select_file_sid fs0 s) = fs0.
Proof.
  unfold swicc_va_select_file_sid.
  destruct (uicc_disk_lutsid_lookup _ s) as [r f].
  destruct r; try reflexivity.
  apply va_select_file_failure.
Qed.

Lemma select_file_id_failure (fs0 : uicc_fs_st) (fid : Z) :
  fst (swicc_va_select_file_id fs0 fid) <> UICC_RET_SUCCESS ->
  snd (swicc_va_select_file_id fs0 fid) = fs0.
Proof.
  unfold swicc_va_select_file_id.
  destruct (uicc_disk_lutid_lookup _ fid) as [[r t] f].
  destruct r; try reflexivity.
  apply va_select_file_failure.
Qed.

Lemma select_adf_failure (fs0 : uicc_fs_st) (aid : list Z) (pix_len : Z) :
  fst (swicc_va_select_adf fs0 aid pix_len) <> UICC_RET_SUCCESS ->
  snd (swicc_va_select_adf fs0 aid pix_len) = fs0.
Proof.
  unfold swicc_va_select_adf.
  destruct (uicc_disk_tree_iter (disk fs0)) as [r it].
  destruct r; try reflexivity.
  apply select_adf_loop_failure.
Qed.

(** C5 (amended).  The four selection operations leave the file system,
    hence the VA tuple, exactly as it was when they return a code other
    than success.  [swicc_va_reset] clears the VA before it looks for
    the MF: when it fails, the VA is the cleared one, whatever it was
    before the call. *)
Theorem C5_va_failure_leaves_va (fs0 : uicc_fs_st) (aid : list Z)
    (pix_len fid s i : Z) :
  (fst (swicc_va_select_adf fs0 aid pix_len) <> UICC_RET_SUCCESS ->
   snd (swicc_va_select_adf fs0 aid pix_len) = fs0) /\
  (fst (swicc_va_select_file_id fs0 fid) <> UICC_RET_SUCCESS ->
   snd (swicc_va_select_file_id fs0 fid) = fs0) /\
  (fst (swicc_va_select_file_sid fs0 s) <> UICC_RET_SUCCESS ->
   snd (swicc_va_select_file_sid fs0 s) = fs0) /\
  (forall r fs1,
     swicc_va_select_record_idx fs0 i = Some (r, fs1) ->
     r <> UICC_RET_SUCCESS -> fs1 = fs0) /\
  (fst (swicc_va_reset fs0) <> UICC_RET_SUCCESS ->
   snd (swicc_va_reset fs0) = fs_set_va fs0 va_zero).
Proof.
  assert (Hid : forall f x,
             fst (swicc_va_select_file_id f x) <> UICC_RET_SUCCESS ->
             snd (swicc_va_select_file_id f x) = f).
  { intros f x. unfold swicc_va_select_file_id.
    destruct (uicc_disk_lutid_lookup (disk f) x) as [[r tree] file].
    destruct r; cbn; try reflexivity.
    apply va_select_file_failure. }
  split; [ | split; [ | split; [ | split ] ] ].
  - unfold swicc_va_select_adf.
    destruct (uicc_disk_tree_iter (disk fs0)) as [r it].
    destruct r; cbn; try reflexivity.
    apply select_adf_loop_failure.
  - apply Hid.
  - unfold swicc_va_select_file_sid.
    destruct (uicc_disk_lutsid_lookup _ s) as [r file].
    destruct r; cbn; try reflexivity.
    apply va_select_file_failure.
  - intros r fs1. unfold swicc_va_select_record_idx.
    repeat break_match; intros H Hr; inversion H; subst;
      try reflexivity; exfalso; apply Hr; reflexivity.
  - unfold swicc_va_reset.
    destruct (uicc_disk_tree_iter (disk (fs_set_va fs0 va_zero))) as [r it].
    destruct r; cbn; try reflexivity.
    apply Hid.
Qed.

Lemma C5_va_failure_leaves_va_witness :
  snd (swicc_va_select_adf nomf_selected [1; 2; 3; 4; 5] 0) = nomf_selected /\
  snd (swicc_va_select_file_id nomf_selected 0xDEAD) = nomf_selected /\
  snd (swicc_va_select_file_sid nomf_selected 9) = nomf_selected /\
  option_map snd (swicc_va_select_record_idx nomf_selected 0) =
    Some nomf_selected /\
  snd (swicc_va_reset nomf_selected) = fs_set_va nomf_selected va_zero.
Proof.
  destruct (C5_va_failure_leaves_va nomf_selected [1; 2; 3; 4; 5] 0 0xDEAD 9 0)
    as (Hadf & Hid & Hsid & Hrcrd & Hreset).
  split; [ | split; [ | split; [ | split ] ] ].
  - apply Hadf. vm_compute. discriminate.
  - apply Hid. vm_compute. discriminate.
  - apply Hsid. vm_compute. discriminate.
  - destruct (swicc_va_select_record_idx nomf_selected 0) as [[r f] | ] eqn:E.
    + cbn. f_equal. apply (Hrcrd r f eq_refl).
      vm_compute in E. injection E as Hr _. subst r. discriminate.
    + vm_compute in E. discriminate E.
  - apply Hreset. vm_compute. discriminate.
Defined.

(** C5, the claim as stated fails: on a disk without the FID [3F00],
    with the EF [6F07] selected, [swicc_va_reset] fails and the VA is no
    longer what it was (the current tree is gone). *)
Lemma C5_reset_changes_va_on_failure :
  fst (fst (uicc_disk_lutid_lookup (disk nomf_selected) 0x3F00)) =
    UICC_RET_FS_NOT_FOUND /\
  fst (swicc_va_reset nomf_selected) <> UICC_RET_SUCCESS /\
  cur_tree (va nomf_selected) = Some 0%nat /\
  va (snd (swicc_va_reset nomf_selected)) <> va nomf_selected.
Proof.
  split; [ vm_compute; reflexivity | ].
  split; [ vm_compute; discriminate | ].
  split; [ vm_compute; reflexivity | ].
  intros H. apply (f_equal cur_tree) in H. vm_compute in H. discriminate H.
Qed.

(** What [swicc_va_select_record_idx] computes, given a current tree
    and a record size other than zero. *)
Lemma select_record_idx_spec (fs0 : uicc_fs_st) (i : Z)
    (t : uicc_disk_tree_st) :
  tree_deref (disk fs0) (cur_tree (va fs0)) = Some t ->
  file_rcrd_size (cur_ef (va fs0)) <> 0 ->
  swicc_va_select_record_idx fs0 i =
    Some (if is_rcrd_ef (type (hdr_item (cur_ef (va fs0))))
          then (UICC_RET_SUCCESS,
                fs_set_va fs0 (va_set_rcrd (va fs0) {| idx := i |}))
          else (UICC_RET_ERROR, fs0)).
Proof.
  intros Ht Hsz.
  unfold swicc_va_select_record_idx, uicc_disk_file_rcrd_cnt.
  rewrite Ht.
  apply Z.eqb_neq in Hsz.
  destruct (type (hdr_item (cur_ef (va fs0)))); cbn [is_rcrd_ef];
    try reflexivity; rewrite Hsz; reflexivity.
Qed.

Lemma select_record_idx_spec_witness :
  swicc_va_select_record_idx empty_lf_selected 2 =
    Some (UICC_RET_SUCCESS,
          fs_set_va empty_lf_selected
            (va_set_rcrd (va empty_lf_selected) {| idx := 2 |})).
Proof.
  rewrite (select_record_idx_spec empty_lf_selected 2 flat_tree).
  - vm_compute. reflexivity.
  - vm_compute. reflexivity.
  - vm_compute. discriminate.
Defined.

(** C6 (the code departs from the claim).
    [swicc_va_select_record_idx] calls [uicc_disk_file_rcrd_cnt] and
    looks at its return code only: the count it is given is compared
    with nothing.  So, with a current tree and a current EF that is
    linear-fixed or cyclic with a record size other than zero, the
    selection of any index succeeds, however many records the EF holds.
    The linear-fixed EF [6F3B] of the flat disk has records of four
    bytes and no data, hence no record: its record count is 0, the
    sibling [uicc_disk_file_rcrd], which does compare the index with
    the count, finds no record 0 in it, and yet the selection of the
    records 0 and 7 succeeds and makes them current. *)
Theorem C6_select_record_without_records :
  (forall (fs0 : uicc_fs_st) (i : Z) (t : uicc_disk_tree_st),
     tree_deref (disk fs0) (cur_tree (va fs0)) = Some t ->
     is_rcrd_ef (type (hdr_item (cur_ef (va fs0)))) = true ->
     file_rcrd_size (cur_ef (va fs0)) <> 0 ->
     swicc_va_select_record_idx fs0 i =
       Some (UICC_RET_SUCCESS,
             fs_set_va fs0 (va_set_rcrd (va fs0) {| idx := i |}))) /\
  type (hdr_item (cur_ef (va empty_lf_selected))) =
    UICC_FS_ITEM_TYPE_FILE_EF_LINEARFIXED /\
  data_size (cur_ef (va empty_lf_selected)) = 0 /\
  file_rcrd_size (cur_ef (va empty_lf_selected)) = 4 /\
  uicc_disk_file_rcrd_cnt
    (tree_deref (disk empty_lf_selected) (cur_tree (va empty_lf_selected)))
    (cur_ef (va empty_lf_selected)) = Some (UICC_RET_SUCCESS, 0) /\
  uicc_disk_file_rcrd
    (tree_deref (disk empty_lf_selected) (cur_tree (va empty_lf_selected)))
    (cur_ef (va empty_lf_selected)) 0 =
    Some (UICC_RET_FS_NOT_FOUND, [], 0) /\
  option_map fst (swicc_va_select_record_idx empty_lf_selected 0) =
    Some UICC_RET_SUCCESS /\
  option_map (fun r => cur_rcrd (va (snd r)))
    (swicc_va_select_record_idx empty_lf_selected 7) = Some {| idx := 7 |}.
Proof.
  split.
  - intros fs0 i t Ht Hty Hsz.
    rewrite (select_record_idx_spec fs0 i t Ht Hsz), Hty. reflexivity.
  - split_all; vm_compute; reflexivity.
Qed.

(** The rule of [va_select_file] for an EF. *)
Lemma va_select_file_ef (fs0 fs1 : uicc_fs_st) (tree : tree_ptr)
    (file : uicc_fs_file_st) :
  is_ef (type (hdr_item file)) = true ->
  va_select_file fs0 tree file = (UICC_RET_SUCCESS, fs1) ->
  fst (uicc_disk_tree_file_root (tree_deref (disk fs0) tree)) =
    UICC_RET_SUCCESS /\
  fst (swicc_disk_tree_file_parent (tree_deref (disk fs0) tree) file) =
    UICC_RET_SUCCESS /\
  disk fs1 = disk fs0 /\
  va fs1 =
    {| cur_tree := tree;
       cur_root := file_zero;
       cur_adf := snd (uicc_disk_tree_file_root (tree_deref (disk fs0) tree));
       cur_df :=
         snd (swicc_disk_tree_file_parent (tree_deref (disk fs0) tree) file);
       cur_ef := file;
       cur_file := file;
       cur_rcrd := {| idx := 0 |} |}.
Proof.
  intros Hef. unfold va_select_file.
  destruct (uicc_disk_tree_file_root (tree_deref (disk fs0) tree))
    as [r file_root].
  destruct r; try (intros H; discriminate H).
  destruct (swicc_disk_tree_file_parent (tree_deref (disk fs0) tree) file)
    as [r file_parent].
  destruct r; try (intros H; discriminate H).
  destruct (type (hdr_item file)); try discriminate Hef;
    intros H; inversion H; subst; cbn; repeat split; reflexivity.
Qed.

(** C7.  When the file resolved by the ID LUT (by the SID LUT of the
    current tree) is an EF and the selection succeeds, the root file of
    the tree and the parent of the EF have been resolved, the disk is
    untouched, and the VA is the cleared VA with [cur_tree] the tree of
    the file, [cur_adf] the root file of that tree, [cur_df] the parent
    of the EF, [cur_ef] and [cur_file] the EF; this is so for the
    selection by SID as well. *)
Theorem C7_ef_selection (fs0 : uicc_fs_st) (fid s : Z) :
  (forall tree file fs1,
     uicc_disk_lutid_lookup (disk fs0) fid = (UICC_RET_SUCCESS, tree, file) ->
     is_ef (type (hdr_item file)) = true ->
     swicc_va_select_file_id fs0 fid = (UICC_RET_SUCCESS, fs1) ->
     fst (uicc_disk_tree_file_root (tree_deref (disk fs0) tree)) =
       UICC_RET_SUCCESS /\
     fst (swicc_disk_tree_file_parent (tree_deref (disk fs0) tree) file) =
       UICC_RET_SUCCESS /\
     disk fs1 = disk fs0 /\
     va fs1 =
       {| cur_tree := tree;
          cur_root := file_zero;
          cur_adf :=
            snd (uicc_disk_tree_file_root (tree_deref (disk fs0) tree));
          cur_df :=
            snd (swicc_disk_tree_file_parent
                   (tree_deref (disk fs0) tree) file);
          cur_ef := file;
          cur_file := file;
          cur_rcrd := {| idx := 0 |} |}) /\
  (forall file fs1,
     uicc_disk_lutsid_lookup
       (tree_deref (disk fs0) (cur_tree (va fs0))) s =
       (UICC_RET_SUCCESS, file) ->
     is_ef (type (hdr_item file)) = true ->
     swicc_va_select_file_sid fs0 s = (UICC_RET_SUCCESS, fs1) ->
     fst (uicc_disk_tree_file_root
            (tree_deref (disk fs0) (cur_tree (va fs0)))) =
       UICC_RET_SUCCESS /\
     fst (swicc_disk_tree_file_parent
            (tree_deref (disk fs0) (cur_tree (va fs0))) file) =
       UICC_RET_SUCCESS /\
     disk fs1 = disk fs0 /\
     va fs1 =
       {| cur_tree := cur_tree (va fs0);
          cur_root := file_zero;
          cur_adf :=
            snd (uicc_disk_tree_file_root
                   (tree_deref (disk fs0) (cur_tree (va fs0))));
          cur_df :=
            snd (swicc_disk_tree_file_parent
                   (tree_deref (disk fs0) (cur_tree (va fs0))) file);
          cur_ef := file;
          cur_file := file;
          cur_rcrd := {| idx := 0 |} |}).
Proof.
  split.
  - intros tree file fs1 Hl Hef. unfold swicc_va_select_file_id.
    rewrite Hl. intros Hs.
    exact (va_select_file_ef _ _ _ _ Hef Hs).
  - intros file fs1 Hl Hef. unfold swicc_va_select_file_sid.
    rewrite Hl. intros Hs.
    exact (va_select_file_ef _ _ _ _ Hef Hs).
Qed.

Lemma C7_ef_selection_witness :
  va (snd (swicc_va_select_file_id flat_fs 0x6F07)) =
    {| cur_tree := Some 0%nat;
       cur_root := file_zero;
       cur_adf := snd (uicc_fs_file_prs flat_tree 0);
       cur_df := snd (uicc_fs_file_prs flat_tree 0);
       cur_ef := flat_ef;
       cur_file := flat_ef;
       cur_rcrd := {| idx := 0 |} |} /\
  va (snd (swicc_va_select_file_sid flat_mf_selected 0x07)) =
    {| cur_tree := Some 0%nat;
       cur_root := file_zero;
       cur_adf := snd (uicc_fs_file_prs flat_tree 0);
       cur_df := snd (uicc_fs_file_prs flat_tree 0);
       cur_ef := flat_ef;
       cur_file := flat_ef;
       cur_rcrd := {| idx := 0 |} |}.
Proof.
  split.
  - destruct (C7_ef_selection flat_fs 0x6F07 0) as [Hid _].
    destruct (Hid (Some 0%nat) flat_ef
                (snd (swicc_va_select_file_id flat_fs 0x6F07)))
      as (_ & _ & _ & Hv).
    + vm_compute. reflexivity.
    + vm_compute. reflexivity.
    + vm_compute. reflexivity.
    + rewrite Hv. vm_compute. reflexivity.
  - destruct (C7_ef_selection flat_mf_selected 0 0x07) as [_ Hsid].
    destruct (Hsid flat_ef
                (snd (swicc_va_select_file_sid flat_mf_selected 0x07)))
      as (_ & _ & _ & Hv).
    + vm_compute. reflexivity.
    + vm_compute. reflexivity.
    + vm_compute. reflexivity.
    + rewrite Hv. vm_compute. reflexivity.
Defined.

(** ** Loading *)

Lemma buf_read_inside (pre x post : list Z) (o n : Z) :
  0 <= o -> 0 <= n -> o + n <= Z.of_nat (length x) ->
  buf_read (pre ++ x ++ post) (Z.of_nat (length pre) + o) n = buf_read x o n.
Proof.
  intros Ho Hn Hlen. unfold buf_read.
  replace (Z.to_nat (Z.of_nat (length pre) + o))
    with (length pre + Z.to_nat o)%nat by lia.
  rewrite skipn_app.
  rewrite (skipn_all2 pre) by lia.
  replace (length pre + Z.to_nat o - length pre)%nat with (Z.to_nat o) by lia.
  cbn [app].
  rewrite skipn_app.
  replace (Z.to_nat o - length x)%nat with 0%nat by lia.
  cbn [skipn].
  rewrite firstn_app.
  replace (Z.to_nat n - length (skipn (Z.to_nat o) x))%nat with 0%nat
    by (rewrite length_skipn; lia).
  cbn [firstn]. apply app_nil_r.
Qed.

Lemma buf_read_nth (l : list Z) (n : Z) (i : nat) :
  (i < Z.to_nat n)%nat -> nth i (buf_read l 0 n) 0 = nth i l 0.
Proof.
  intros Hi. unfold buf_read. cbn [Z.to_nat skipn].
  revert l i Hi. induction (Z.to_nat n) as [ | m IH]; intros l i Hi.
  - lia.
  - destruct l as [ | a l]; [ destruct i; reflexivity | ].
    destruct i as [ | i]; cbn; [ reflexivity | apply IH; lia ].
Qed.

Lemma buf_read_buf_read_prefix (l : list Z) (n m : Z) :
  0 <= m <= n -> buf_read (buf_read l 0 n) 0 m = buf_read l 0 m.
Proof.
  intros H. unfold buf_read. cbn [Z.to_nat skipn].
  rewrite firstn_firstn. f_equal. lia.
Qed.

Lemma buf_read_all (l : list Z) (o : Z) :
  0 <= o ->
  buf_read l 0 o ++ buf_read l o (Z.of_nat (length l) - o) = l.
Proof.
  intros Ho. unfold buf_read.
  change (Z.to_nat 0) with 0%nat. rewrite skipn_O.
  rewrite (firstn_all2 (skipn (Z.to_nat o) l)) by (rewrite length_skipn; lia).
  apply firstn_skipn.
Qed.

Lemma load_loop_step (junk : nat -> Z) (fuel : nat) (f : list Z)
    (f_len data_idx tree_idx : Z) (trees : list uicc_disk_tree_st)
    (item_hdr_raw : list Z) :
  (data_idx <? f_len) = true ->
  fread f data_idx sizeof_item_hdr_raw = Some item_hdr_raw ->
  load_loop junk (S fuel) f f_len data_idx tree_idx trees =
    let item_hdr := uicc_fs_item_hdr_prs item_hdr_raw 0 in
    if load_type_bad tree_idx (type item_hdr)
    then Some (UICC_RET_ERROR, trees ++ [tree_zero])
    else if size item_hdr <? sizeof_item_hdr_raw then None
    else
      let rest_len := size item_hdr - sizeof_item_hdr_raw in
      match (if rest_len =? 0 then None
             else fread f (data_idx + sizeof_item_hdr_raw) rest_len) with
      | None =>
          Some (UICC_RET_ERROR,
                trees ++
                [{| buf := malloc junk (size item_hdr); len := 0;
                    tree_size := size item_hdr; lutsid := lut_zero |}])
      | Some rest =>
          load_loop junk fuel f f_len (u32 (data_idx + size item_hdr))
            (u8 (tree_idx + 1))
            (trees ++
             [{| buf := item_hdr_raw ++ rest; len := size item_hdr;
                 tree_size := size item_hdr; lutsid := lut_zero |}])
      end.
Proof.
  intros Hlt Hrd. cbn [load_loop]. rewrite Hlt, Hrd. reflexivity.
Qed.

(** The loop reads through the well-typed trees and stops with an error
    at the first root of the wrong type. *)
Lemma load_loop_bad_root (junk : nat -> Z) (imgs : list (list Z)) :
  forall (fuel : nat) (f pre bad : list Z) (k : nat)
         (trees : list uicc_disk_tree_st),
    f = pre ++ concat imgs ++ bad ->
    Z.of_nat (length f) <= UINT32_MAX ->
    images_ok k imgs = true ->
    (k + length imgs <= 255)%nat ->
    (10 <= length bad)%nat ->
    load_type_bad (Z.of_nat (k + length imgs))
      (item_type_of_Z (nth 5 bad 0)) = true ->
    (length imgs < fuel)%nat ->
    exists trees',
      load_loop junk fuel f (Z.of_nat (length f)) (Z.of_nat (length pre))
        (Z.of_nat k) trees = Some (UICC_RET_ERROR, trees').
Proof.
  induction imgs as [ | img imgs IH];
    intros fuel f pre bad k trees Hf Hmax Hok Hk Hbad Hty Hfuel.
  - cbn [concat app length] in *.
    destruct fuel as [ | fuel]; [ lia | ].
    assert (Hlen : length f = (length pre + length bad)%nat)
      by (subst f; apply length_app).
    assert (Hrd : fread f (Z.of_nat (length pre)) sizeof_item_hdr_raw =
                  Some (buf_read bad 0 10)).
    { unfold fread, sizeof_item_hdr_raw.
      replace (Z.of_nat (length pre) + 10 <=? Z.of_nat (length f)) with true
        by (symmetry; apply Z.leb_le; lia).
      f_equal. subst f.
      rewrite <- (app_nil_r bad) at 1.
      rewrite <- (Z.add_0_r (Z.of_nat (length pre))).
      apply buf_read_inside; lia. }
    assert (Hlt : (Z.of_nat (length pre) <? Z.of_nat (length f)) = true)
      by (apply Z.ltb_lt; lia).
    rewrite (load_loop_step _ _ _ _ _ _ _ _ Hlt Hrd).
    cbn beta zeta. cbn [type uicc_fs_item_hdr_prs].
    rewrite buf_read_nth by (cbn; lia).
    replace (k + 0)%nat with k in Hty by lia.
    rewrite Hty. eexists. reflexivity.
  - cbn [concat length images_ok] in *.
    apply andb_prop in Hok. destruct Hok as [Hok1 Hok].
    unfold image_ok in Hok1.
    apply andb_prop in Hok1. destruct Hok1 as [Hok1 Hokt].
    apply andb_prop in Hok1. destruct Hok1 as [Hokl Hoks].
    apply Z.ltb_lt in Hokl. apply Z.eqb_eq in Hoks.
    apply negb_true_iff in Hokt.
    unfold sizeof_item_hdr_raw in Hokl.
    destruct fuel as [ | fuel]; [ lia | ].
    assert (Hf' : f = pre ++ img ++ (concat imgs ++ bad))
      by (subst f; rewrite <- app_assoc; reflexivity).
    assert (Hlen : length f =
                   (length pre + (length img
                                  + length (concat imgs ++ bad)))%nat)
      by (rewrite Hf'; rewrite !length_app; reflexivity).
    assert (Hrd : fread f (Z.of_nat (length pre)) sizeof_item_hdr_raw =
                  Some (buf_read img 0 10)).
    { unfold fread, sizeof_item_hdr_raw.
      replace (Z.of_nat (length pre) + 10 <=? Z.of_nat (length f)) with true
        by (symmetry; apply Z.leb_le; lia).
      f_equal. rewrite Hf'.
      rewrite <- (Z.add_0_r (Z.of_nat (length pre))).
      apply buf_read_inside; lia. }
    assert (Hlt : (Z.of_nat (length pre) <? Z.of_nat (length f)) = true)
      by (apply Z.ltb_lt; lia).
    rewrite (load_loop_step _ _ _ _ _ _ _ _ Hlt Hrd).
    cbn beta zeta. cbn [type size uicc_fs_item_hdr_prs].
    rewrite buf_read_nth by (cbn; lia).
    rewrite Hokt.
    rewrite buf_read_buf_read_prefix by lia.
    rewrite Hoks.
    unfold sizeof_item_hdr_raw.
    replace (Z.of_nat (length img) <? 10) with false
      by (symmetry; apply Z.ltb_ge; lia).
    replace (Z.of_nat (length img) - 10 =? 0) with false
      by (symmetry; apply Z.eqb_neq; lia).
    assert (Hrd2 : fread f (Z.of_nat (length pre) + 10)
                     (Z.of_nat (length img) - 10) =
                   Some (buf_read img 10 (Z.of_nat (length img) - 10))).
    { unfold fread.
      replace (Z.of_nat (length pre) + 10 + (Z.of_nat (length img) - 10)
               <=? Z.of_nat (length f)) with true
        by (symmetry; apply Z.leb_le; lia).
      f_equal. rewrite Hf'. apply buf_read_inside; lia. }
    rewrite Hrd2.
    replace (u32 (Z.of_nat (length pre) + Z.of_nat (length img)))
      with (Z.of_nat (length (pre ++ img))).
    2:{ rewrite length_app. unfold u32. rewrite Z.mod_small; [ lia | ].
        unfold UINT32_MAX in Hmax. lia. }
    replace (u8 (Z.of_nat k + 1)) with (Z.of_nat (S k)).
    2:{ unfold u8. rewrite Z.mod_small; lia. }
    apply (IH fuel f (pre ++ img) bad (S k)).
    + rewrite Hf'. rewrite <- app_assoc. reflexivity.
    + exact Hmax.
    + exact Hok.
    + lia.
    + exact Hbad.
    + replace (S k + length imgs)%nat with (k + S (length imgs))%nat by lia.
      exact Hty.
    + lia.
Qed.

Lemma memcmp_refl (l : list Z) : memcmp l l = 0.
Proof.
  induction l as [ | x l IH]; cbn; [ reflexivity | ].
  rewrite Z.ltb_irrefl. exact IH.
Qed.

Lemma images_ok_length (imgs : list (list Z)) :
  forall k, images_ok k imgs = true ->
            (length imgs <= length (concat imgs))%nat.
Proof.
  induction imgs as [ | img imgs IH]; intros k Hok; cbn [concat length].
  - lia.
  - cbn [images_ok] in Hok. apply andb_prop in Hok. destruct Hok as [H1 H2].
    unfold image_ok in H1.
    apply andb_prop in H1. destruct H1 as [H1 _].
    apply andb_prop in H1. destruct H1 as [H1 _].
    apply Z.ltb_lt in H1. unfold sizeof_item_hdr_raw in H1.
    rewrite length_app. specialize (IH (S k) H2). lia.
Qed.

Lemma magic_expected_length (magic : list Z) :
  length (magic_expected magic) = 8%nat.
Proof.
  unfold magic_expected, UICC_DISK_MAGIC_LEN.
  rewrite length_firstn, length_app, repeat_length.
  change (Z.to_nat 8) with 8%nat. lia.
Qed.

(** C8 (amended).  A load attempted on a disk that holds no tree and
    that does not succeed leaves the disk empty: no tree, hence no SID
    LUT, and no ID LUT.  A load attempted on a disk that already holds
    trees is refused with an error and leaves that disk as it is.  And
    the load does fail, leaving the disk empty, when the root of the tree
    at some index up to 255 is of the invalid type, is not an MF at
    index 0, or is not an ADF at a later index, the trees before it
    being well-formed. *)
Theorem C8_load_failure (junk : nat -> Z) (magic : list Z) (fuel : nat) :
  (forall disk file r d,
     uicc_disk_load junk magic fuel disk file = Some (r, d) ->
     r <> UICC_RET_SUCCESS ->
     d = match root disk with
         | [] => disk_zero
         | _ :: _ => disk
         end) /\
  (forall disk file,
     root disk <> [] ->
     uicc_disk_load junk magic fuel disk file =
     Some (UICC_RET_ERROR, disk)) /\
  (forall imgs bad,
     images_ok 0 imgs = true ->
     (length imgs <= 255)%nat ->
     (10 <= length bad)%nat ->
     load_type_bad (Z.of_nat (length imgs))
       (item_type_of_Z (nth 5 bad 0)) = true ->
     uicc_disk_load junk magic fuel disk_zero
       (Some (magic_expected magic ++ concat imgs ++ bad)) =
     Some (UICC_RET_ERROR, disk_zero)).
Proof.
  split.
  - intros disk0 file r d. unfold uicc_disk_load.
    destruct (root disk0) as [ | t ts].
    + destruct (load_read junk magic file) as [[r0 trees] | ];
        [ | intros H; discriminate H ].
      destruct r0; try (intros H Hr; inversion H; subst; reflexivity).
      destruct trees as [ | t0 trees];
        [ intros H Hr; inversion H; subst; reflexivity | ].
      destruct (load_lutsid junk fuel (t0 :: trees)) as [[r1 trees1] | ];
        [ | intros H; discriminate H ].
      destruct r1; try (intros H Hr; inversion H; subst; reflexivity).
      destruct (uicc_disk_lutid_rebuild junk fuel _) as [[r2 d2] | ];
        [ | intros H; discriminate H ].
      destruct r2; try (intros H Hr; inversion H; subst; reflexivity).
      intros H Hr. inversion H; subst. exfalso; apply Hr; reflexivity.
    + intros H _. inversion H. reflexivity.
  - split.
    { intros disk0 file Hroot. unfold uicc_disk_load.
      destruct (root disk0) as [ | t ts];
        [ exfalso; apply Hroot | ]; reflexivity. }
    intros imgs bad Hok Hn Hbad Hty.
    unfold uicc_disk_load. cbn [root disk_zero].
    unfold load_read.
    set (f := magic_expected magic ++ concat imgs ++ bad).
    destruct (Z.of_nat (length f) <=? UINT32_MAX) eqn:Hmax;
      [ | reflexivity ].
    apply Z.leb_le in Hmax.
    assert (Hmagic : fread f 0 UICC_DISK_MAGIC_LEN =
                     Some (magic_expected magic)).
    { unfold fread, UICC_DISK_MAGIC_LEN.
      pose proof (magic_expected_length magic) as Hl.
      assert (Hfl : (8 <= length f)%nat)
        by (unfold f; rewrite length_app; lia).
      replace (0 + 8 <=? Z.of_nat (length f)) with true
        by (symmetry; apply Z.leb_le; lia).
      f_equal. unfold f, buf_read.
      change (Z.to_nat 0) with 0%nat. rewrite skipn_O.
      change (Z.to_nat 8) with 8%nat. rewrite <- Hl.
      rewrite firstn_app, firstn_all, Nat.sub_diag. cbn [firstn].
      apply app_nil_r. }
    rewrite Hmagic, memcmp_refl. cbn [Z.eqb].
    destruct (load_loop_bad_root junk imgs (S (length f)) f
                (magic_expected magic) bad 0 [] eq_refl Hmax Hok
                ltac:(lia) Hbad Hty) as [trees' Hloop].
    { pose proof (images_ok_length imgs 0 Hok).
      unfold f. rewrite !length_app. lia. }
    rewrite magic_expected_length in Hloop.
    change (Z.of_nat 8) with UICC_DISK_MAGIC_LEN in Hloop.
    change (Z.of_nat 0) with 0 in Hloop.
    rewrite Hloop. reflexivity.
Qed.

Lemma C8_load_failure_witness :
  option_map snd
    (uicc_disk_load junk_zero example_magic 100 disk_zero None) =
    Some disk_zero /\
  uicc_disk_load junk_zero example_magic 100 many_disk
    (Some (example_magic ++ flat_image)) =
    Some (UICC_RET_ERROR, many_disk) /\
  uicc_disk_load junk_zero example_magic 100 disk_zero
    (Some (magic_expected example_magic ++
           concat [flat_image; adf_image] ++ df_root_image)) =
    Some (UICC_RET_ERROR, disk_zero).
Proof.
  destruct (C8_load_failure junk_zero example_magic 100) as [HA [HR HB]].
  split; [ | split ].
  - destruct (uicc_disk_load junk_zero example_magic 100 disk_zero None)
      as [[r d] | ] eqn:E.
    + cbn. f_equal. apply (HA disk_zero None r d E).
      vm_compute in E. injection E as Hr _. subst r. discriminate.
    + vm_compute in E. discriminate E.
  - apply HR. unfold many_disk. cbn [root]. discriminate.
  - apply HB.
    + vm_compute. reflexivity.
    + cbn. lia.
    + vm_compute. lia.
    + vm_compute. reflexivity.
Defined.

(** C8, the claim as stated fails: a load into the disk that already
    holds the flat tree is refused, although the file given starts with
    a tree whose root is a DF, and the disk keeps its tree and its ID
    LUT. *)
Lemma C8_load_refused_keeps_disk :
  uicc_disk_load junk_zero example_magic 100 (loaded_disk flat_image)
    (Some (example_magic ++ df_root_image)) =
    Some (UICC_RET_ERROR, loaded_disk flat_image) /\
  length (root (loaded_disk flat_image)) = 1%nat /\
  count (lutid (loaded_disk flat_image)) = 4.
Proof.
  split_all; vm_compute; reflexivity.
Qed.

(** ** READ RECORD *)



Lemma st_set_fs_same (st : uicc_st) : st_set_fs st (fs st) = st.
Proof. destruct st; reflexivity. Qed.





(** ** SELECT *)

(** Bits 2 and 3 of a byte, as SELECT reads them from P2. *)
Lemma land_12_cases (x : Z) :
  Z.land x 12 = 0 \/ Z.land x 12 = 4 \/ Z.land x 12 = 8 \/ Z.land x 12 = 12.
Proof.
  assert (H : Z.land x 12 = Z.shiftl (Z.land (Z.shiftr x 2) 3) 2).
  { apply Z.bits_inj'. intros n Hn.
    rewrite Z.land_spec.
    destruct (Z.lt_ge_cases n 2) as [Hlt | Hge].
    - rewrite Z.shiftl_spec_low by exact Hlt.
      assert (Hc : n = 0 \/ n = 1) by lia.
      destruct Hc as [-> | ->]; cbn; apply andb_false_r.
    - rewrite Z.shiftl_spec by exact Hn.
      rewrite Z.land_spec, Z.shiftr_spec by lia.
      replace (n - 2 + 2) with n by lia.
      f_equal.
      change 12 with (Z.shiftl 3 2).
      rewrite Z.shiftl_spec by exact Hn. reflexivity. }
  rewrite H.
  change 3 with (Z.ones 2). rewrite Z.land_ones by lia.
  rewrite Z.shiftl_mul_pow2 by lia.
  change (2 ^ 2) with 4.
  pose proof (Z.mod_pos_bound (Z.shiftr x 2) 4 ltac:(lia)) as Hb.
  lia.
Qed.

(** C10 (amended).  SELECT with P1 = 00 and command data whose length is
    neither 2 nor in [5, 16]: the handler returns success, leaves the
    state, the VA with it, untouched, and returns no data.  The status
    is 6A86 when P2 has a bit set in its upper half.  Otherwise, on the
    first entry it is 6F00 when data is present, the ACK-all procedure
    byte asking for [P3] bytes when there is no data and [P3] is not 0,
    and 6F00 when there is no data and [P3] is 0; on a later entry it is
    6702 when the data length is not [P3], and SW1 = 6F, SW2 = 00 when
    it is [P3]. *)
Theorem C10_select_bad_length
    (bertlv_respond :
       uicc_st -> uicc_fs_file_st -> bool -> data_req_e ->
       uicc_st * uicc_apdu_res_st)
    (st : uicc_st) (cmd : uicc_apdu_cmd_st) (pc : Z) :
  p1 cmd = 0x00 ->
  cmd_data_len cmd <> 2 ->
  cmd_data_len cmd < 5 \/ 16 < cmd_data_len cmd ->
  exists rsp,
    apduh_select bertlv_respond st cmd pc = (UICC_RET_SUCCESS, st, rsp) /\
    resp_data_b rsp = [] /\
    (Z.land (p2 cmd) 0xF0 <> 0 ->
     rsp = mk_res UICC_APDU_SW1_CHER_P1P2_INFO 0x86) /\
    (Z.land (p2 cmd) 0xF0 = 0 -> pc = 0 -> cmd_data_len cmd <> 0 ->
     rsp = mk_res UICC_APDU_SW1_CHER_UNK 0) /\
    (Z.land (p2 cmd) 0xF0 = 0 -> pc = 0 -> cmd_data_len cmd = 0 ->
     0 < p3 cmd ->
     rsp = {| sw1 := UICC_APDU_SW1_PROC_ACK_ALL; sw2 := 0;
              resp_data_len := p3 cmd; resp_data_b := [] |}) /\
    (Z.land (p2 cmd) 0xF0 = 0 -> pc = 0 -> cmd_data_len cmd = 0 ->
     p3 cmd = 0 ->
     rsp = mk_res UICC_APDU_SW1_CHER_UNK 0) /\
    (Z.land (p2 cmd) 0xF0 = 0 -> 1 <= pc -> cmd_data_len cmd <> p3 cmd ->
     rsp = mk_res UICC_APDU_SW1_CHER_LEN 0x02) /\
    (Z.land (p2 cmd) 0xF0 = 0 -> 1 <= pc -> cmd_data_len cmd = p3 cmd ->
     rsp = mk_res UICC_APDU_SW1_CHER_UNK 0).
Proof.
  intros Hp1 Hne Hlen.
  assert (Hperf : select_perform (fs st) cmd = (UICC_RET_ERROR, fs st)).
  { unfold select_perform, select_meth. rewrite Hp1. cbn [Z.eqb].
    replace (cmd_data_len cmd =? 2) with false
      by (symmetry; apply Z.eqb_neq; exact Hne).
    cbn [negb].
    unfold UICC_FS_ADF_AID_LEN, UICC_FS_ADF_AID_RID_LEN,
      UICC_FS_ADF_AID_PIX_LEN.
    destruct Hlen as [Hlt | Hgt].
    - replace (cmd_data_len cmd <? 5) with true
        by (symmetry; apply Z.ltb_lt; exact Hlt).
      rewrite orb_true_r. reflexivity.
    - replace (cmd_data_len cmd >? 5 + 11) with true
        by (symmetry; rewrite Z.gtb_ltb; apply Z.ltb_lt; lia).
      reflexivity. }
  unfold apduh_select.
  destruct (Z.land (p2 cmd) 240 =? 0) eqn:Ep2; cbn [negb].
  2:{ apply Z.eqb_neq in Ep2.
      eexists. split; [ reflexivity | ]. split; [ reflexivity | ].
      split; [ reflexivity | ].
      split_all; intros H; exfalso; apply Ep2; exact H. }
  apply Z.eqb_eq in Ep2.
  assert (Hreq : select_data_req cmd <> DATA_REQ_RFU).
  { unfold select_data_req, select_meth. rewrite Hp1. cbn [Z.eqb].
    destruct (land_12_cases (p2 cmd)) as [E | [E | [E | E]]];
      rewrite E; cbn; discriminate. }
  destruct (pc =? 0) eqn:Epc; cbn [andb].
  - apply Z.eqb_eq in Epc. subst pc.
    destruct (cmd_data_len cmd =? 0) eqn:El; cbn [negb].
    + apply Z.eqb_eq in El.
      destruct (p3 cmd >? 0) eqn:E3.
      * apply Z.gtb_lt in E3.
        eexists. split; [ reflexivity | ]. split; [ reflexivity | ].
        split_all; intros; try reflexivity; try contradiction; lia.
      * rewrite Z.gtb_ltb in E3. apply Z.ltb_ge in E3.
        change (0 >=? 1) with false. rewrite andb_false_r.
        unfold select_meth at 1. rewrite Hp1. cbn [Z.eqb orb].
        rewrite Hperf, st_set_fs_same.
        destruct (select_data_req cmd);
          try (exfalso; apply Hreq; reflexivity);
          (eexists; split; [ reflexivity | ]; split; [ reflexivity | ];
           split_all; intros; try reflexivity; try contradiction; lia).
    + apply Z.eqb_neq in El.
      eexists. split; [ reflexivity | ]. split; [ reflexivity | ].
      split_all; intros; try reflexivity; try contradiction; lia.
  - apply Z.eqb_neq in Epc.
    destruct (cmd_data_len cmd =? p3 cmd) eqn:El; cbn [negb andb].
    + apply Z.eqb_eq in El.
      unfold select_meth at 1. rewrite Hp1. cbn [Z.eqb orb].
      rewrite Hperf, st_set_fs_same.
      destruct (select_data_req cmd);
        try (exfalso; apply Hreq; reflexivity);
        (eexists; split; [ reflexivity | ]; split; [ reflexivity | ];
         split_all; intros; try reflexivity; try contradiction; lia).
    + apply Z.eqb_neq in El.
      destruct (pc >=? 1) eqn:Ege.
      * eexists. split; [ reflexivity | ]. split; [ reflexivity | ].
        split_all; intros; try reflexivity; try contradiction; lia.
      * rewrite Z.geb_leb in Ege. apply Z.leb_gt in Ege.
        unfold select_meth at 1. rewrite Hp1. cbn [Z.eqb orb].
        rewrite Hperf, st_set_fs_same.
        destruct (select_data_req cmd);
          try (exfalso; apply Hreq; reflexivity);
          (eexists; split; [ reflexivity | ]; split; [ reflexivity | ];
           split_all; intros; try reflexivity; try contradiction; lia).
Qed.

Lemma C10_select_bad_length_witness :
  apduh_select no_bertlv mf_selected (cmd_select 0x00 0x04 3 [1; 2; 3]) 1 =
    (UICC_RET_SUCCESS, mf_selected, mk_res UICC_APDU_SW1_CHER_UNK 0) /\
  apduh_select no_bertlv mf_selected (cmd_select 0x00 0x04 3 [1; 2; 3]) 0 =
    (UICC_RET_SUCCESS, mf_selected, mk_res UICC_APDU_SW1_CHER_UNK 0).
Proof.
  split.
  - destruct (C10_select_bad_length no_bertlv mf_selected
                (cmd_select 0x00 0x04 3 [1; 2; 3]) 1)
      as (rsp & H & _ & _ & _ & _ & _ & _ & H6).
    + reflexivity.
    + cbn. discriminate.
    + left. cbn. lia.
    + rewrite H. rewrite (H6 eq_refl ltac:(lia) eq_refl). reflexivity.
  - destruct (C10_select_bad_length no_bertlv mf_selected
                (cmd_select 0x00 0x04 3 [1; 2; 3]) 0)
      as (rsp & H & _ & _ & H2 & _).
    + reflexivity.
    + cbn. discriminate.
    + left. cbn. lia.
    + rewrite H. rewrite (H2 eq_refl eq_refl ltac:(cbn; discriminate)).
      reflexivity.
Defined.

(** C10, the claim as stated fails: with a data length of 3 and P1 = 00,
    the handler answers 6A86 when P2 has a bit set in its upper half,
    6702 when the data length is not P3, and the ACK-ALL procedure on
    the first entry with P3 = 3. *)
Lemma C10_select_other_answers :
  snd (apduh_select no_bertlv mf_selected
         (cmd_select 0x00 0x10 3 [1; 2; 3]) 1) =
    mk_res UICC_APDU_SW1_CHER_P1P2_INFO 0x86 /\
  snd (apduh_select no_bertlv mf_selected
         (cmd_select 0x00 0x04 2 [1; 2; 3]) 1) =
    mk_res UICC_APDU_SW1_CHER_LEN 0x02 /\
  sw1 (snd (apduh_select no_bertlv mf_selected
              (cmd_select 0x00 0x04 3 []) 0)) =
    UICC_APDU_SW1_PROC_ACK_ALL.
Proof.
  split_all; vm_compute; reflexivity.
Qed.

(** * Further properties of the disk store *)

(** ** The tree iterator *)

Lemma tree_iter_idx_loop_reach (d : uicc_disk_st) (n : Z) :
  forall (fuel k : nat),
    Z.of_nat k <= n <= 255 ->
    (Z.to_nat n < length (root d))%nat ->
    (Z.to_nat n - k <= fuel)%nat ->
    tree_iter_idx_loop fuel d
      {| iter_tree := k; iter_tree_idx := Z.of_nat k |} n =
    (UICC_RET_SUCCESS, Some (Z.to_nat n)).
Proof.
  induction fuel as [ | fuel IH]; intros k Hk Hn Hfuel.
  - assert (Hkn : Z.of_nat k = n) by lia.
    cbn [tree_iter_idx_loop iter_tree_idx iter_tree].
    rewrite Hkn, Z.eqb_refl. f_equal. f_equal. lia.
  - cbn [tree_iter_idx_loop iter_tree_idx iter_tree].
    destruct (Z.of_nat k =? n) eqn:E.
    + apply Z.eqb_eq in E. f_equal. f_equal. lia.
    + apply Z.eqb_neq in E.
      unfold uicc_disk_tree_iter_next. cbn [iter_tree iter_tree_idx].
      destruct (nth_error (root d) (S k)) as [t | ] eqn:Hnth.
      * replace (u8 (Z.of_nat k + 1)) with (Z.of_nat (S k))
          by (unfold u8; rewrite Z.mod_small; lia).
        apply IH; lia.
      * apply nth_error_None in Hnth. lia.
Qed.

Lemma tree_iter_idx_loop_miss (d : uicc_disk_st) (n : Z) :
  forall (fuel k : nat),
    (k < length (root d))%nat ->
    Z.of_nat (length (root d)) <= n <= 255 ->
    tree_iter_idx_loop fuel d
      {| iter_tree := k; iter_tree_idx := Z.of_nat k |} n =
    (UICC_RET_FS_NOT_FOUND, None).
Proof.
  induction fuel as [ | fuel IH]; intros k Hk Hn;
    cbn [tree_iter_idx_loop iter_tree_idx iter_tree];
    replace (Z.of_nat k =? n) with false by (symmetry; apply Z.eqb_neq; lia).
  - reflexivity.
  - unfold uicc_disk_tree_iter_next. cbn [iter_tree iter_tree_idx].
    destruct (nth_error (root d) (S k)) as [t | ] eqn:Hnth.
    + assert (Hlt : (S k < length (root d))%nat)
        by (apply nth_error_Some; rewrite Hnth; discriminate).
      replace (u8 (Z.of_nat k + 1)) with (Z.of_nat (S k))
        by (unfold u8; rewrite Z.mod_small; lia).
      apply IH; lia.
    + reflexivity.
Qed.

(** X2.  On a disk that holds trees, the iterator started at the root
    and moved to index [n] (a [uint8_t]) stops on the tree at position
    [n] of the forest when there is one, and reports that nothing was
    found when the forest is shorter. *)
Theorem tree_iter_idx_finds (d : uicc_disk_st) (n : Z) :
  root d <> [] ->
  0 <= n <= 255 ->
  fst (uicc_disk_tree_iter d) = UICC_RET_SUCCESS /\
  uicc_disk_tree_iter_idx d (snd (uicc_disk_tree_iter d)) n =
    if n <? Z.of_nat (length (root d))
    then (UICC_RET_SUCCESS, Some (Z.to_nat n))
    else (UICC_RET_FS_NOT_FOUND, None).
Proof.
  intros Hroot Hn. unfold uicc_disk_tree_iter.
  destruct (root d) as [ | t ts] eqn:Hd; [ contradiction | ].
  cbn [fst snd]. split; [ reflexivity | ].
  unfold uicc_disk_tree_iter_idx. rewrite Hd.
  change {| iter_tree := 0; iter_tree_idx := 0 |}
    with {| iter_tree := 0; iter_tree_idx := Z.of_nat 0 |}.
  destruct (n <? Z.of_nat (length (t :: ts))) eqn:E.
  - apply Z.ltb_lt in E. rewrite <- Hd in *.
    apply tree_iter_idx_loop_reach; lia.
  - apply Z.ltb_ge in E. rewrite <- Hd in *.
    apply tree_iter_idx_loop_miss; [ rewrite Hd; cbn; lia | lia ].
Qed.

Lemma tree_iter_idx_finds_witness :
  uicc_disk_tree_iter_idx many_disk (snd (uicc_disk_tree_iter many_disk)) 0 =
    (UICC_RET_SUCCESS, Some 0%nat) /\
  uicc_disk_tree_iter_idx many_disk (snd (uicc_disk_tree_iter many_disk)) 7 =
    (UICC_RET_FS_NOT_FOUND, None).
Proof.
  split.
  - exact (proj2 (tree_iter_idx_finds many_disk 0
                    ltac:(discriminate) ltac:(lia))).
  - exact (proj2 (tree_iter_idx_finds many_disk 7
                    ltac:(discriminate) ltac:(lia))).
Defined.

(** ** Records *)

(** X3.  The record accessor on a linear-fixed or cyclic EF whose record
    size is not zero: record [idx] is found exactly when it is below the
    number of whole records in the contents, it then starts at
    [rcrd_size * idx] and lies wholly inside the contents; past the last
    record the answer is "not found", and the offset test of the
    function never fires. *)
Theorem file_rcrd_in_bounds (tree : uicc_disk_tree_st)
    (file : uicc_fs_file_st) (i : Z) :
  is_rcrd_ef (type (hdr_item file)) = true ->
  0 < file_rcrd_size file <= 255 ->
  0 <= i <= 255 ->
  0 <= data_size file <= UINT32_MAX ->
  uicc_disk_file_rcrd (Some tree) file i =
    (if i <? data_size file / file_rcrd_size file
     then Some (UICC_RET_SUCCESS,
                skipn (Z.to_nat (file_rcrd_size file * i)) (data file),
                file_rcrd_size file)
     else Some (UICC_RET_FS_NOT_FOUND, [], 0)) /\
  (i < data_size file / file_rcrd_size file ->
   file_rcrd_size file * i + file_rcrd_size file <= data_size file).
Proof.
  intros Hty Hrs Hi Hds. unfold UINT32_MAX in Hds.
  assert (Hq : 0 <= data_size file / file_rcrd_size file <= data_size file).
  { split; [ apply Z.div_pos; lia | ].
    apply Z.div_le_upper_bound; [ lia | nia ]. }
  assert (Hin : i < data_size file / file_rcrd_size file ->
                file_rcrd_size file * i + file_rcrd_size file
                <= data_size file).
  { intros Hlt.
    pose proof (Z.mul_div_le (data_size file) (file_rcrd_size file)
                  ltac:(lia)) as Hm.
    nia. }
  split; [ | exact Hin ].
  unfold uicc_disk_file_rcrd, uicc_disk_file_rcrd_cnt.
  destruct (type (hdr_item file)); try discriminate Hty;
    (replace (file_rcrd_size file =? 0) with false
       by (symmetry; apply Z.eqb_neq; lia);
     replace (u32 (data_size file / file_rcrd_size file))
       with (data_size file / file_rcrd_size file)
       by (unfold u32; rewrite Z.mod_small; lia);
     cbv zeta; rewrite Z.geb_leb;
     destruct (i <? data_size file / file_rcrd_size file) eqn:E;
     [ apply Z.ltb_lt in E; specialize (Hin E);
       replace (data_size file / file_rcrd_size file <=? i) with false
         by (symmetry; apply Z.leb_gt; lia);
       replace (u32 (file_rcrd_size file * i))
         with (file_rcrd_size file * i)
         by (unfold u32; rewrite Z.mod_small; nia);
       rewrite Z.geb_leb;
       replace (data_size file <=? file_rcrd_size file * i) with false
         by (symmetry; apply Z.leb_gt; lia);
       reflexivity
     | apply Z.ltb_ge in E;
       replace (data_size file / file_rcrd_size file <=? i) with true
         by (symmetry; apply Z.leb_le; lia);
       reflexivity ]).
Qed.

Lemma file_rcrd_in_bounds_witness :
  uicc_disk_file_rcrd (Some flat_tree) flat_lf 1 =
    Some (UICC_RET_SUCCESS, skipn 4 (data flat_lf), 4) /\
  uicc_disk_file_rcrd (Some flat_tree) flat_lf 2 =
    Some (UICC_RET_FS_NOT_FOUND, [], 0).
Proof.
  split.
  - exact (proj1 (file_rcrd_in_bounds flat_tree flat_lf 1
                    eq_refl ltac:(vm_compute; split; [ reflexivity | discriminate ])
                    ltac:(lia)
                    ltac:(vm_compute; split; discriminate))).
  - exact (proj1 (file_rcrd_in_bounds flat_tree flat_lf 2
                    eq_refl ltac:(vm_compute; split; [ reflexivity | discriminate ])
                    ltac:(lia)
                    ltac:(vm_compute; split; discriminate))).
Defined.

(** ** Insertion into a lookup table *)

Lemma buf_read_length (b : list Z) (o n : Z) :
  0 <= o -> 0 <= n -> o + n <= Z.of_nat (length b) ->
  length (buf_read b o n) = Z.to_nat n.
Proof.
  intros Ho Hn Hlen. unfold buf_read.
  rewrite length_firstn, length_skipn. lia.
Qed.

Lemma buf_read_app_l (x y : list Z) (o n : Z) :
  0 <= o -> 0 <= n -> o + n <= Z.of_nat (length x) ->
  buf_read (x ++ y) o n = buf_read x o n.
Proof.
  intros Ho Hn Hlen.
  pose proof (buf_read_inside [] x y o n Ho Hn Hlen) as H.
  cbn [app length] in H. change (Z.of_nat 0 + o) with (0 + o) in H.
  rewrite Z.add_0_l in H. exact H.
Qed.

Lemma buf_read_firstn (b : list Z) (m : nat) (o n : Z) :
  0 <= o -> 0 <= n -> o + n <= Z.of_nat m ->
  buf_read (firstn m b) o n = buf_read b o n.
Proof.
  intros Ho Hn Hlen. unfold buf_read.
  rewrite skipn_firstn_comm, firstn_firstn. f_equal. lia.
Qed.

Lemma buf_read_buf_read (b : list Z) (o n o' n' : Z) :
  0 <= o -> 0 <= o' -> 0 <= n' -> o' + n' <= n ->
  buf_read (buf_read b o n) o' n' = buf_read b (o + o') n'.
Proof.
  intros Ho Ho' Hn' Hlen. unfold buf_read.
  rewrite skipn_firstn_comm, firstn_firstn, skipn_skipn.
  replace (Z.to_nat o' + Z.to_nat o)%nat with (Z.to_nat (o + o')) by lia.
  f_equal. lia.
Qed.

(** The buffer after the [memmove] and the [memcpy] of [lut_insert]:
    the entries below [p], the new item, the entries from [p] on. *)
Lemma insert_buf_shape (b item : list Z) (s n p : Z) :
  0 < s -> 0 <= p <= n -> s * (n + 1) <= Z.of_nat (length b) ->
  length item = Z.to_nat s ->
  buf_write (buf_move b (s * (p + 1)) (s * p) (s * (n - p))) (s * p) item =
  firstn (Z.to_nat (s * p)) b ++ item ++
  buf_read b (s * p) (s * (n - p)) ++ skipn (Z.to_nat (s * (n + 1))) b.
Proof.
  intros Hs Hp Hlen Hitem.
  assert (Hm : length (buf_read b (s * p) (s * (n - p)))
               = Z.to_nat (s * (n - p)))
    by (apply buf_read_length; nia).
  unfold buf_move, buf_write. rewrite Hm, Hitem.
  set (M := buf_read b (s * p) (s * (n - p))) in *.
  replace (Z.to_nat (s * (p + 1)) + Z.to_nat (s * (n - p)))%nat
    with (Z.to_nat (s * (n + 1))) by nia.
  set (R := skipn (Z.to_nat (s * (n + 1))) b).
  assert (Hf : length (firstn (Z.to_nat (s * (p + 1))) b)
               = Z.to_nat (s * (p + 1)))
    by (rewrite length_firstn; nia).
  rewrite firstn_app, firstn_firstn.
  replace (Nat.min (Z.to_nat (s * p)) (Z.to_nat (s * (p + 1))))
    with (Z.to_nat (s * p)) by nia.
  rewrite Hf.
  replace (Z.to_nat (s * p) - Z.to_nat (s * (p + 1)))%nat with 0%nat by nia.
  cbn [firstn]. rewrite app_nil_r.
  f_equal. f_equal.
  rewrite skipn_app, Hf.
  replace (Z.to_nat (s * p) + Z.to_nat s - Z.to_nat (s * (p + 1)))%nat
    with 0%nat by nia.
  cbn [skipn].
  rewrite (skipn_all2 (firstn _ b)) by (rewrite Hf; nia).
  reflexivity.
Qed.

(** Reading entry [j] of the buffer built by [lut_insert]. *)
Lemma insert_buf_entry (b item : list Z) (s n p j : Z) :
  0 < s -> 0 <= p <= n -> s * (n + 1) <= Z.of_nat (length b) ->
  length item = Z.to_nat s ->
  0 <= j <= n ->
  buf_read
    (buf_write (buf_move b (s * (p + 1)) (s * p) (s * (n - p))) (s * p) item)
    (s * j) s =
  if j <? p then buf_read b (s * j) s
  else if j =? p then item
  else buf_read b (s * (j - 1)) s.
Proof.
  intros Hs Hp Hlen Hitem Hj.
  rewrite insert_buf_shape by assumption.
  assert (HL : length (firstn (Z.to_nat (s * p)) b) = Z.to_nat (s * p))
    by (rewrite length_firstn; nia).
  assert (Hm : length (buf_read b (s * p) (s * (n - p)))
               = Z.to_nat (s * (n - p)))
    by (apply buf_read_length; nia).
  destruct (j <? p) eqn:E1.
  - apply Z.ltb_lt in E1.
    rewrite buf_read_app_l by (rewrite ?HL; nia).
    apply buf_read_firstn; nia.
  - apply Z.ltb_ge in E1.
    destruct (j =? p) eqn:E2.
    + apply Z.eqb_eq in E2. subst j.
      set (L := firstn (Z.to_nat (s * p)) b) in *.
      set (M := buf_read b (s * p) (s * (n - p))) in *.
      set (R := skipn (Z.to_nat (s * (n + 1))) b).
      replace (s * p) with (Z.of_nat (length L) + 0) by (rewrite HL; nia).
      rewrite (buf_read_inside L item (M ++ R) 0 s) by lia.
      unfold buf_read. change (Z.to_nat 0) with 0%nat. rewrite skipn_O.
      apply firstn_all2. lia.
    + apply Z.eqb_neq in E2.
      set (L := firstn (Z.to_nat (s * p)) b) in *.
      set (R := skipn (Z.to_nat (s * (n + 1))) b).
      rewrite app_assoc.
      replace (s * j)
        with (Z.of_nat (length (L ++ item)) + s * (j - p - 1))
        by (rewrite length_app, HL, Hitem; nia).
      rewrite (buf_read_inside (L ++ item) _ R) by (rewrite ?Hm; nia).
      rewrite buf_read_buf_read by nia.
      f_equal. nia.
Qed.

(** The binary search of [lut_insert] ends inside the interval it was
    given. *)
Lemma lut_insert_search_range (b1 e1 : list Z) (s1 : Z) :
  forall (fuel : nat) (start end_ : Z),
    0 <= start <= end_ -> end_ <= 1073741824 ->
    start <= lut_insert_search fuel b1 s1 e1 start end_ <= end_.
Proof.
  induction fuel as [ | fuel IH]; intros start end_ Hse Hmax;
    cbn [lut_insert_search]; [ lia | ].
  destruct (start <? end_) eqn:E; [ | lia ].
  apply Z.ltb_lt in E.
  assert (Hmid : u32 (start + end_) / 2 = (start + end_) / 2)
    by (unfold u32; rewrite Z.mod_small; lia).
  rewrite Hmid.
  assert (Hm : start <= (start + end_) / 2 < end_).
  { split; [ apply Z.div_le_lower_bound; lia
           | apply Z.div_lt_upper_bound; lia ]. }
  destruct (memcmp _ _ <? 0).
  - replace (u32 ((start + end_) / 2 + 1)) with ((start + end_) / 2 + 1)
      by (unfold u32; rewrite Z.mod_small; lia).
    specialize (IH ((start + end_) / 2 + 1) end_ ltac:(lia) Hmax). lia.
  - specialize (IH start ((start + end_) / 2) ltac:(lia) ltac:(lia)). lia.
Qed.

(** What [lut_insert] does to a table with room: the entries are kept,
    in their order, and the new one sits at the place [p] found by the
    search. *)
Lemma lut_insert_entries (junk : nat -> Z) (lut : uicc_disk_lut_st)
    (e1 e2 : list Z) :
  lut_has_room lut ->
  length e1 = Z.to_nat (size_item1 lut) ->
  length e2 = Z.to_nat (size_item2 lut) ->
  let lut' := snd (lut_insert junk lut e1 e2) in
  let p := lut_insert_search (S (Z.to_nat (count lut))) (buf_of (buf1 lut))
             (size_item1 lut) e1 0 (count lut) in
  fst (lut_insert junk lut e1 e2) = UICC_RET_SUCCESS /\
  0 <= p <= count lut /\
  size_item1 lut' = size_item1 lut /\ size_item2 lut' = size_item2 lut /\
  count lut' = count lut + 1 /\ count_max lut' = count_max lut /\
  buf1 lut' <> None /\
  length (buf_of (buf1 lut')) = length (buf_of (buf1 lut)) /\
  length (buf_of (buf2 lut')) = length (buf_of (buf2 lut)) /\
  forall j, 0 <= j <= count lut ->
    lut_item1 lut' j =
      (if j <? p then lut_item1 lut j
       else if j =? p then e1 else lut_item1 lut (j - 1)) /\
    lut_item2 lut' j =
      (if j <? p then lut_item2 lut j
       else if j =? p then e2 else lut_item2 lut (j - 1)).
Proof.
  intros (Hs1 & Hs2 & Hc & Hmax & Hb1 & Hb2) He1 He2 lut' p.
  assert (Hp : 0 <= p <= count lut)
    by (apply lut_insert_search_range; lia).
  assert (Hr1 : buf_read e1 0 (size_item1 lut) = e1).
  { unfold buf_read. change (Z.to_nat 0) with 0%nat. rewrite skipn_O.
    apply firstn_all2. lia. }
  assert (Hr2 : buf_read e2 0 (size_item2 lut) = e2).
  { unfold buf_read. change (Z.to_nat 0) with 0%nat. rewrite skipn_O.
    apply firstn_all2. lia. }
  assert (Hl1 : size_item1 lut * (count lut + 1)
                <= Z.of_nat (length (buf_of (buf1 lut)))) by nia.
  assert (Hl2 : size_item2 lut * (count lut + 1)
                <= Z.of_nat (length (buf_of (buf2 lut)))) by nia.
  assert (Hlut' :
    lut' =
    {| buf1 := Some (buf_write
                       (buf_move (buf_of (buf1 lut))
                          (size_item1 lut * (p + 1)) (size_item1 lut * p)
                          (size_item1 lut * (count lut - p)))
                       (size_item1 lut * p) e1);
       buf2 := Some (buf_write
                       (buf_move (buf_of (buf2 lut))
                          (size_item2 lut * (p + 1)) (size_item2 lut * p)
                          (size_item2 lut * (count lut - p)))
                       (size_item2 lut * p) e2);
       size_item1 := size_item1 lut; size_item2 := size_item2 lut;
       count := count lut + 1; count_max := count_max lut |}).
  { unfold lut', lut_insert.
    replace (count lut >=? count_max lut) with false
      by (symmetry; rewrite Z.geb_leb; apply Z.leb_gt; lia).
    cbv zeta. fold p. rewrite Hr1, Hr2. cbn [snd].
    replace (u32 (count lut + 1)) with (count lut + 1)
      by (unfold u32; rewrite Z.mod_small; lia).
    reflexivity. }
  split.
  { unfold lut_insert.
    destruct (count lut >=? count_max lut); reflexivity. }
  split; [ exact Hp | ].
  rewrite Hlut'. cbn [size_item1 size_item2 count count_max buf1 buf2 buf_of].
  split; [ reflexivity | ]. split; [ reflexivity | ].
  split; [ reflexivity | ]. split; [ reflexivity | ].
  split; [ discriminate | ].
  split.
  { rewrite insert_buf_shape by (try assumption; lia).
    rewrite !length_app, length_firstn, length_skipn.
    rewrite buf_read_length by nia. nia. }
  split.
  { rewrite insert_buf_shape by (try assumption; lia).
    rewrite !length_app, length_firstn, length_skipn.
    rewrite buf_read_length by nia. nia. }
  intros j Hj. unfold lut_item1, lut_item2.
  cbn [size_item1 size_item2 count count_max buf1 buf2 buf_of].
  split; apply insert_buf_entry; try assumption; lia.
Qed.

(** ** Lookup after insertion *)

(** The linear scan of the lookups stops on the first entry whose item 1
    matches the key. *)
Lemma lut_scan_unique (b1 key : list Z) (s1 : Z) :
  forall (n : nat) (i r : Z),
    0 <= i -> i + Z.of_nat n <= UINT32_MAX ->
    i <= r <= i + Z.of_nat n ->
    (forall j, i <= j < r ->
               memcmp (buf_read b1 (s1 * j) s1) (buf_read key 0 s1) <> 0) ->
    (r < i + Z.of_nat n ->
     memcmp (buf_read b1 (s1 * r) s1) (buf_read key 0 s1) = 0) ->
    lut_scan n b1 s1 key i = r.
Proof.
  unfold UINT32_MAX.
  induction n as [ | n IH]; intros i r Hi Hmax Hr Hbefore Hat;
    cbn [lut_scan].
  - lia.
  - destruct (memcmp (buf_read b1 (s1 * i) s1) (buf_read key 0 s1) =? 0)
      eqn:E.
    + apply Z.eqb_eq in E.
      destruct (Z.eq_dec i r) as [Heq | Hne]; [ exact Heq | ].
      exfalso. apply (Hbefore i); [ lia | exact E ].
    + apply Z.eqb_neq in E.
      assert (Hir : i <> r).
      { intros Heq. subst r. apply E. apply Hat. lia. }
      replace (u32 (i + 1)) with (i + 1)
        by (unfold u32; rewrite Z.mod_small; lia).
      apply IH; [ lia | lia | lia | | ].
      * intros j Hj. apply Hbefore. lia.
      * intros Hlt. apply Hat. lia.
Qed.

Lemma lut_scan_sound (b1 key : list Z) (s1 : Z) :
  forall (n : nat) (i : Z),
    0 <= i -> i + Z.of_nat n <= UINT32_MAX ->
    let r := lut_scan n b1 s1 key i in
    i <= r <= i + Z.of_nat n /\
    (forall j, i <= j < r ->
               memcmp (buf_read b1 (s1 * j) s1) (buf_read key 0 s1) <> 0) /\
    (r < i + Z.of_nat n ->
     memcmp (buf_read b1 (s1 * r) s1) (buf_read key 0 s1) = 0).
Proof.
  unfold UINT32_MAX.
  induction n as [ | n IH]; intros i Hi Hmax; cbn [lut_scan].
  - split; [ lia | ]. split; [ intros j Hj; lia | intros Hlt; lia ].
  - destruct (memcmp (buf_read b1 (s1 * i) s1) (buf_read key 0 s1) =? 0)
      eqn:E.
    + apply Z.eqb_eq in E.
      split; [ lia | ]. split; [ intros j Hj; lia | intros _; exact E ].
    + apply Z.eqb_neq in E.
      replace (u32 (i + 1)) with (i + 1)
        by (unfold u32; rewrite Z.mod_small; lia).
      destruct (IH (i + 1) ltac:(lia) ltac:(lia)) as (Hr & Hbefore & Hat).
      split; [ lia | ]. split.
      * intros j Hj. destruct (Z.eq_dec j i) as [-> | Hne];
          [ exact E | apply Hbefore; lia ].
      * intros Hlt. apply Hat. lia.
Qed.

Lemma memcmp_byte (a b : Z) : memcmp [a] [b] = 0 <-> a = b.
Proof.
  cbn [memcmp].
  destruct (a <? b) eqn:E1; [ apply Z.ltb_lt in E1; split; [ discriminate | lia ] | ].
  destruct (b <? a) eqn:E2; [ apply Z.ltb_lt in E2; split; [ discriminate | lia ] | ].
  apply Z.ltb_ge in E1, E2. split; [ lia | reflexivity ].
Qed.

Lemma le_decode_encode (n : nat) :
  forall w, 0 <= w < 256 ^ Z.of_nat n -> le_decode (le_encode n w) = w.
Proof.
  induction n as [ | n IH]; intros w Hw.
  - cbn in *. lia.
  - cbn [le_encode le_decode].
    rewrite Nat2Z.inj_succ, Z.pow_succ_r in Hw by lia.
    rewrite IH.
    + pose proof (Z.div_mod w 256 ltac:(lia)). lia.
    + split; [ apply Z.div_pos; lia | apply Z.div_lt_upper_bound; lia ].
Qed.

Lemma file_prs_same_buf (t1 t2 : uicc_disk_tree_st) (o : Z) :
  buf t1 = buf t2 -> len t1 = len t2 ->
  uicc_fs_file_prs t1 o = uicc_fs_file_prs t2 o.
Proof. intros Hb Hl. unfold uicc_fs_file_prs. rewrite Hb, Hl. reflexivity. Qed.

(** The scan of a table after an insertion, for the key inserted
    (absent before) and for any other key. *)
Lemma lut_scan_after_insert (junk : nat -> Z) (lut : uicc_disk_lut_st)
    (e1 e2 key : list Z) :
  lut_has_room lut ->
  length e1 = Z.to_nat (size_item1 lut) ->
  length e2 = Z.to_nat (size_item2 lut) ->
  length key = Z.to_nat (size_item1 lut) ->
  let lut' := snd (lut_insert junk lut e1 e2) in
  let r := lut_scan (Z.to_nat (count lut)) (buf_of (buf1 lut))
             (size_item1 lut) key 0 in
  let r' := lut_scan (Z.to_nat (count lut')) (buf_of (buf1 lut'))
              (size_item1 lut') key 0 in
  (memcmp e1 key = 0 -> r >= count lut ->
   r' < count lut' /\ lut_item2 lut' r' = e2) /\
  (memcmp e1 key <> 0 ->
   (r >= count lut -> r' >= count lut') /\
   (r < count lut -> r' < count lut' /\
                     lut_item2 lut' r' = lut_item2 lut r)).
Proof.
  intros Hroom He1 He2 Hkey lut' r r'.
  destruct (lut_insert_entries junk lut e1 e2 Hroom He1 He2)
    as (_ & Hp & Hs1 & Hs2 & Hc & _ & _ & _ & _ & Hent).
  fold lut' in Hs1, Hs2, Hc, Hent.
  set (p := lut_insert_search (S (Z.to_nat (count lut))) (buf_of (buf1 lut))
              (size_item1 lut) e1 0 (count lut)) in *.
  destruct Hroom as (Hpos1 & Hpos2 & Hcnt & Hmax & Hb1 & Hb2).
  assert (Hk : buf_read key 0 (size_item1 lut) = key).
  { unfold buf_read. change (Z.to_nat 0) with 0%nat. rewrite skipn_O.
    apply firstn_all2. lia. }
  destruct (lut_scan_sound (buf_of (buf1 lut)) key (size_item1 lut)
              (Z.to_nat (count lut)) 0 ltac:(lia)
              ltac:(unfold UINT32_MAX; lia))
    as (Hr & Hbefore & Hat).
  fold r in Hr, Hbefore, Hat. rewrite Hk in Hbefore, Hat.
  rewrite Z2Nat.id in Hr, Hat by lia. rewrite Z.add_0_l in Hr, Hat.
  assert (Hscan : forall q,
    0 <= q <= count lut + 1 ->
    (forall j, 0 <= j < q -> memcmp (lut_item1 lut' j) key <> 0) ->
    (q < count lut + 1 -> memcmp (lut_item1 lut' q) key = 0) ->
    r' = q).
  { intros q Hq Hbq Haq. unfold r'. rewrite Hs1, Hc.
    apply lut_scan_unique; rewrite ?Hk, ?Z2Nat.id; unfold UINT32_MAX;
      try lia.
    - intros j Hj. specialize (Hbq j Hj). unfold lut_item1 in Hbq.
      rewrite Hs1 in Hbq. exact Hbq.
    - intros Hlt. specialize (Haq ltac:(lia)). unfold lut_item1 in Haq.
      rewrite Hs1 in Haq. exact Haq. }
  assert (Hold : forall j, 0 <= j < r -> memcmp (lut_item1 lut j) key <> 0)
    by (intros j Hj; apply Hbefore; lia).
  split.
  - intros Hmatch Hnone.
    assert (Hrn : r = count lut) by lia.
    assert (Hq : r' = p).
    { apply Hscan; [ lia | | ].
      - intros j Hj. destruct (Hent j ltac:(lia)) as [H1 _]. rewrite H1.
        replace (j <? p) with true by (symmetry; apply Z.ltb_lt; lia).
        apply Hold. lia.
      - intros _. destruct (Hent p ltac:(lia)) as [H1 _]. rewrite H1.
        rewrite Z.ltb_irrefl, Z.eqb_refl. exact Hmatch. }
    rewrite Hq, Hc. split; [ lia | ].
    destruct (Hent p ltac:(lia)) as [_ H2]. rewrite H2.
    rewrite Z.ltb_irrefl, Z.eqb_refl. reflexivity.
  - intros Hdiff. split.
    + intros Hnone.
      assert (Hrn : r = count lut) by lia.
      assert (Hq : r' = count lut + 1).
      { apply Hscan; [ lia | | lia ].
        intros j Hj. destruct (Hent j ltac:(lia)) as [H1 _]. rewrite H1.
        destruct (j <? p) eqn:E1.
        - apply Z.ltb_lt in E1. apply Hold. lia.
        - apply Z.ltb_ge in E1. destruct (j =? p) eqn:E2.
          + exact Hdiff.
          + apply Z.eqb_neq in E2. apply Hold. lia. }
      rewrite Hq, Hc. lia.
    + intros Hfound. specialize (Hat Hfound).
      destruct (Z.lt_ge_cases r p) as [Hlt | Hge].
      * assert (Hq : r' = r).
        { apply Hscan; [ lia | | ].
          - intros j Hj. destruct (Hent j ltac:(lia)) as [H1 _]. rewrite H1.
            replace (j <? p) with true by (symmetry; apply Z.ltb_lt; lia).
            apply Hold. lia.
          - intros _. destruct (Hent r ltac:(lia)) as [H1 _]. rewrite H1.
            replace (r <? p) with true by (symmetry; apply Z.ltb_lt; lia).
            exact Hat. }
        rewrite Hq, Hc. split; [ lia | ].
        destruct (Hent r ltac:(lia)) as [_ H2]. rewrite H2.
        replace (r <? p) with true by (symmetry; apply Z.ltb_lt; lia).
        reflexivity.
      * assert (Hq : r' = r + 1).
        { apply Hscan; [ lia | | ].
          - intros j Hj. destruct (Hent j ltac:(lia)) as [H1 _]. rewrite H1.
            destruct (j <? p) eqn:E1.
            + apply Z.ltb_lt in E1. apply Hold. lia.
            + apply Z.ltb_ge in E1. destruct (j =? p) eqn:E2.
              * exact Hdiff.
              * apply Z.eqb_neq in E2. apply Hold. lia.
          - intros _. destruct (Hent (r + 1) ltac:(lia)) as [H1 _].
            rewrite H1.
            replace (r + 1 <? p) with false
              by (symmetry; apply Z.ltb_ge; lia).
            replace (r + 1 =? p) with false
              by (symmetry; apply Z.eqb_neq; lia).
            replace (r + 1 - 1) with r by lia. exact Hat. }
        rewrite Hq, Hc. split; [ lia | ].
        destruct (Hent (r + 1) ltac:(lia)) as [_ H2]. rewrite H2.
        replace (r + 1 <? p) with false by (symmetry; apply Z.ltb_ge; lia).
        replace (r + 1 =? p) with false by (symmetry; apply Z.eqb_neq; lia).
        replace (r + 1 - 1) with r by lia. reflexivity.
Qed.

(** X4.  Insertion into the SID LUT of a tree, when the table has room,
    and lookup afterwards: a SID that was not in the table is now found,
    and the lookup parses the file at the offset that was inserted; the
    lookup of any other SID answers what it answered before. *)
Theorem lutsid_insert_lookup (junk : nat -> Z) (t : uicc_disk_tree_st)
    (s off s' : Z) :
  lut_has_room (lutsid t) ->
  buf1 (lutsid t) <> None ->
  size_item1 (lutsid t) = 1 -> size_item2 (lutsid t) = 4 ->
  0 <= off <= UINT32_MAX ->
  let t' :=
    tree_set_lutsid t
      (snd (lut_insert junk (lutsid t) [s] (le_encode 4 off))) in
  (fst (uicc_disk_lutsid_lookup (Some t) s) = UICC_RET_FS_NOT_FOUND ->
   uicc_disk_lutsid_lookup (Some t') s =
     if off >=? len t then (UICC_RET_ERROR, file_zero)
     else
       let '(r, file) := uicc_fs_file_prs t off in
       match r with
       | UICC_RET_SUCCESS => (UICC_RET_SUCCESS, file)
       | _ => (UICC_RET_ERROR, file)
       end) /\
  (s' <> s ->
   uicc_disk_lutsid_lookup (Some t') s' =
   uicc_disk_lutsid_lookup (Some t) s').
Proof.
  intros Hroom Hb1 Hs1 Hs2 Hoff t'.
  assert (He1 : length [s] = Z.to_nat (size_item1 (lutsid t)))
    by (rewrite Hs1; reflexivity).
  assert (He2 : length (le_encode 4 off) = Z.to_nat (size_item2 (lutsid t)))
    by (rewrite Hs2; reflexivity).
  destruct (lut_insert_entries junk (lutsid t) [s] (le_encode 4 off)
              Hroom He1 He2)
    as (_ & _ & Hs1' & Hs2' & Hc' & _ & Hb1' & _ & _ & _).
  set (lut' := snd (lut_insert junk (lutsid t) [s] (le_encode 4 off))) in *.
  assert (Hprs : forall o, uicc_fs_file_prs t' o = uicc_fs_file_prs t o)
    by (intros o; apply file_prs_same_buf; reflexivity).
  destruct (buf1 (lutsid t)) as [b1 | ] eqn:Eb1; [ | contradiction ].
  destruct (buf1 lut') as [b1' | ] eqn:Eb1'; [ | contradiction ].
  assert (Hlook' : forall k,
    uicc_disk_lutsid_lookup (Some t') k =
    let entry_idx := lut_scan (Z.to_nat (count lut')) (buf_of (buf1 lut'))
                       (size_item1 lut') [k] 0 in
    if entry_idx >=? count lut' then (UICC_RET_FS_NOT_FOUND, file_zero)
    else
      let offset := le_decode (lut_item2 lut' entry_idx) in
      if offset >=? len t then (UICC_RET_ERROR, file_zero)
      else
        let '(r, file) := uicc_fs_file_prs t offset in
        match r with
        | UICC_RET_SUCCESS => (UICC_RET_SUCCESS, file)
        | _ => (UICC_RET_ERROR, file)
        end).
  { intros k. unfold uicc_disk_lutsid_lookup, t', tree_set_lutsid.
    cbn [lutsid len]. fold lut'. rewrite Eb1'. cbn [buf_of].
    unfold lut_item2. rewrite Hs1', Hs2', Hs1, Hs2. cbn [Z.eqb Pos.eqb negb orb].
    cbv zeta. destruct (_ >=? count lut'); [ reflexivity | ].
    destruct (_ >=? len t); [ reflexivity | ].
    fold (tree_set_lutsid t lut'). fold t'. rewrite Hprs. reflexivity. }
  assert (Hlook : forall k,
    uicc_disk_lutsid_lookup (Some t) k =
    let entry_idx := lut_scan (Z.to_nat (count (lutsid t)))
                       (buf_of (buf1 (lutsid t)))
                       (size_item1 (lutsid t)) [k] 0 in
    if entry_idx >=? count (lutsid t) then (UICC_RET_FS_NOT_FOUND, file_zero)
    else
      let offset := le_decode (lut_item2 (lutsid t) entry_idx) in
      if offset >=? len t then (UICC_RET_ERROR, file_zero)
      else
        let '(r, file) := uicc_fs_file_prs t offset in
        match r with
        | UICC_RET_SUCCESS => (UICC_RET_SUCCESS, file)
        | _ => (UICC_RET_ERROR, file)
        end).
  { intros k. unfold uicc_disk_lutsid_lookup.
    rewrite Eb1. cbn [buf_of].
    unfold lut_item2. rewrite Hs1, Hs2. cbn [Z.eqb Pos.eqb negb orb].
    reflexivity. }
  split.
  - intros Hnf. rewrite Hlook in Hnf. cbv zeta in Hnf.
    assert (Hr : lut_scan (Z.to_nat (count (lutsid t)))
                   (buf_of (buf1 (lutsid t))) (size_item1 (lutsid t)) [s] 0
                 >= count (lutsid t)).
    { destruct (_ >=? count (lutsid t)) eqn:E in Hnf.
      - rewrite Z.geb_leb in E. apply Z.leb_le in E. lia.
      - destruct (_ >=? len t) in Hnf; [ discriminate Hnf | ].
        destruct (uicc_fs_file_prs t _) as [r f] in Hnf.
        destruct r; discriminate Hnf. }
    rewrite Eb1 in Hr.
    destruct (lut_scan_after_insert junk (lutsid t) [s] (le_encode 4 off) [s]
                Hroom He1 He2 He1) as [Hin _].
    fold lut' in Hin. rewrite Eb1, Eb1' in Hin.
    destruct (Hin (memcmp_refl [s]) Hr) as [Hlt Hval].
    rewrite Hlook'. cbv zeta. rewrite Eb1'.
    replace (_ >=? count lut') with false
      by (symmetry; rewrite Z.geb_leb; apply Z.leb_gt; lia).
    rewrite Hval.
    rewrite (le_decode_encode 4)
      by (unfold UINT32_MAX in Hoff; change (256 ^ Z.of_nat 4) with 4294967296;
          lia).
    reflexivity.
  - intros Hne.
    assert (Hk1 : length [s'] = Z.to_nat (size_item1 (lutsid t)))
      by (rewrite Hs1; reflexivity).
    destruct (lut_scan_after_insert junk (lutsid t) [s] (le_encode 4 off) [s']
                Hroom He1 He2 Hk1) as [_ Hout].
    fold lut' in Hout.
    assert (Hd : memcmp [s] [s'] <> 0)
      by (intros E; apply Hne; symmetry; apply memcmp_byte; exact E).
    destruct (Hout Hd) as [Hnone Hsome].
    rewrite Hlook', Hlook. cbv zeta.
    destruct (lut_scan (Z.to_nat (count (lutsid t)))
                (buf_of (buf1 (lutsid t))) (size_item1 (lutsid t)) [s'] 0
              >=? count (lutsid t)) eqn:E.
    + rewrite Z.geb_leb in E. apply Z.leb_le in E.
      specialize (Hnone ltac:(lia)).
      replace (_ >=? count lut') with true
        by (symmetry; rewrite Z.geb_leb; apply Z.leb_le; lia).
      reflexivity.
    + rewrite Z.geb_leb in E. apply Z.leb_gt in E.
      destruct (Hsome E) as [Hlt Hval].
      replace (_ >=? count lut') with false
        by (symmetry; rewrite Z.geb_leb; apply Z.leb_gt; lia).
      rewrite Hval. reflexivity.
Qed.

Lemma lutsid_insert_lookup_witness :
  let t' :=
    tree_set_lutsid flat_tree
      (snd (lut_insert junk_zero (lutsid flat_tree) [9] (le_encode 4 30))) in
  uicc_disk_lutsid_lookup (Some t') 9 =
    (UICC_RET_SUCCESS, snd (uicc_fs_file_prs flat_tree 30)) /\
  uicc_disk_lutsid_lookup (Some t') 7 =
    uicc_disk_lutsid_lookup (Some flat_tree) 7.
Proof.
  assert (Hroom : lut_has_room (lutsid flat_tree)).
  { unfold lut_has_room. vm_compute. split_all; try reflexivity;
      intros H; discriminate H. }
  pose proof (lutsid_insert_lookup junk_zero flat_tree 9 30 7 Hroom
                ltac:(vm_compute; discriminate) eq_refl eq_refl
                ltac:(unfold UINT32_MAX; lia)) as H.
  cbv zeta in H. cbv zeta. split.
  - rewrite (proj1 H) by (vm_compute; reflexivity).
    vm_compute. reflexivity.
  - apply (proj2 H). discriminate.
Defined.

(** ** The order of the entries *)

Lemma memcmp_antisym (a : list Z) : forall b, memcmp b a = - memcmp a b.
Proof.
  induction a as [ | x a IH]; intros [ | y b]; cbn [memcmp];
    try reflexivity.
  destruct (x <? y) eqn:E1, (y <? x) eqn:E2;
    try apply Z.ltb_lt in E1; try apply Z.ltb_lt in E2;
    try reflexivity; try lia.
  apply IH.
Qed.

Lemma memcmp_trans (a : list Z) :
  forall b c,
    length a = length b -> length b = length c ->
    memcmp a b <= 0 -> memcmp b c <= 0 ->
    memcmp a c <= 0 /\ (memcmp a b < 0 \/ memcmp b c < 0 -> memcmp a c < 0).
Proof.
  induction a as [ | x a IH]; intros [ | y b] [ | z c] Hab Hbc;
    try discriminate Hab; try discriminate Hbc; cbn [memcmp].
  - intros _ _. split; [ lia | intros [H | H]; lia ].
  - cbn [length] in Hab, Hbc.
    destruct (x <? y) eqn:Exy, (y <? x) eqn:Eyx, (y <? z) eqn:Eyz,
             (z <? y) eqn:Ezy, (x <? z) eqn:Exz, (z <? x) eqn:Ezx;
      try apply Z.ltb_lt in Exy; try apply Z.ltb_lt in Eyx;
      try apply Z.ltb_lt in Eyz; try apply Z.ltb_lt in Ezy;
      try apply Z.ltb_lt in Exz; try apply Z.ltb_lt in Ezx;
      try apply Z.ltb_ge in Exy; try apply Z.ltb_ge in Eyx;
      try apply Z.ltb_ge in Eyz; try apply Z.ltb_ge in Ezy;
      try apply Z.ltb_ge in Exz; try apply Z.ltb_ge in Ezx;
      try lia; intros H1 H2; try lia;
      try (split; [ lia | intros _; lia ]).
    apply IH; congruence.
Qed.

(** The binary search of [lut_insert] on a sorted table: the entries
    below the place it returns are smaller than the new item, the
    others are not. *)
Lemma lut_insert_search_spec (b1 e1 : list Z) (s1 n : Z) :
  0 < s1 -> s1 * n <= Z.of_nat (length b1) -> n <= 1073741824 ->
  length e1 = Z.to_nat s1 ->
  (forall i j, 0 <= i -> i <= j -> j < n ->
     memcmp (buf_read b1 (s1 * i) s1) (buf_read b1 (s1 * j) s1) <= 0) ->
  forall (fuel : nat) (start end_ : Z),
    0 <= start <= end_ -> end_ <= n ->
    end_ - start < Z.of_nat fuel ->
    (forall j, 0 <= j < start -> memcmp (buf_read b1 (s1 * j) s1) e1 < 0) ->
    (forall j, end_ <= j < n -> memcmp (buf_read b1 (s1 * j) s1) e1 >= 0) ->
    let p := lut_insert_search fuel b1 s1 e1 start end_ in
    (forall j, 0 <= j < p -> memcmp (buf_read b1 (s1 * j) s1) e1 < 0) /\
    (forall j, p <= j < n -> memcmp (buf_read b1 (s1 * j) s1) e1 >= 0).
Proof.
  intros Hs Hlen Hmax He1 Hsorted.
  assert (Hr1 : buf_read e1 0 s1 = e1).
  { unfold buf_read. change (Z.to_nat 0) with 0%nat. rewrite skipn_O.
    apply firstn_all2. lia. }
  assert (HE : forall j, 0 <= j < n ->
                         length (buf_read b1 (s1 * j) s1) = length e1).
  { intros j Hj. rewrite buf_read_length by nia. lia. }
  induction fuel as [ | fuel IH]; intros start end_ Hse Hen Hfuel Hlo Hhi;
    [ lia | ].
  cbn [lut_insert_search].
  destruct (start <? end_) eqn:E.
  - apply Z.ltb_lt in E.
    assert (Hmid : u32 (start + end_) / 2 = (start + end_) / 2)
      by (unfold u32; rewrite Z.mod_small; lia).
    rewrite Hmid, Hr1.
    set (mid := (start + end_) / 2) in *.
    assert (Hm : start <= mid < end_).
    { unfold mid. split; [ apply Z.div_le_lower_bound; lia
                         | apply Z.div_lt_upper_bound; lia ]. }
    destruct (memcmp (buf_read b1 (s1 * mid) s1) e1 <? 0) eqn:Ec.
    + apply Z.ltb_lt in Ec.
      replace (u32 (mid + 1)) with (mid + 1)
        by (unfold u32; rewrite Z.mod_small; lia).
      apply IH; try lia; [ | exact Hhi ].
      intros j Hj.
      apply (memcmp_trans (buf_read b1 (s1 * j) s1)
               (buf_read b1 (s1 * mid) s1) e1);
        [ rewrite !HE by lia; reflexivity | apply HE; lia
        | apply Hsorted; lia | lia | right; exact Ec ].
    + apply Z.ltb_ge in Ec.
      apply IH; try lia; [ exact Hlo | ].
      intros j Hj.
      assert (H1 : memcmp e1 (buf_read b1 (s1 * mid) s1) <= 0)
        by (rewrite memcmp_antisym; lia).
      assert (H2 : memcmp (buf_read b1 (s1 * mid) s1)
                     (buf_read b1 (s1 * j) s1) <= 0)
        by (apply Hsorted; lia).
      destruct (memcmp_trans e1 (buf_read b1 (s1 * mid) s1)
                  (buf_read b1 (s1 * j) s1)
                  ltac:(symmetry; apply HE; lia)
                  ltac:(rewrite !HE by lia; reflexivity) H1 H2) as [H3 _].
      rewrite (memcmp_antisym e1). lia.
  - apply Z.ltb_ge in E. split; [ exact Hlo | ].
    intros j Hj. apply Hhi. lia.
Qed.

(** X5.  [lut_insert] keeps a table with room sorted: when the items 1
    of the entries are in increasing order before the insertion, they
    are in increasing order after it, the new entry included. *)
Theorem lut_insert_keeps_sorted (junk : nat -> Z) (lut : uicc_disk_lut_st)
    (e1 e2 : list Z) :
  lut_has_room lut ->
  length e1 = Z.to_nat (size_item1 lut) ->
  length e2 = Z.to_nat (size_item2 lut) ->
  lut_sorted lut ->
  lut_sorted (snd (lut_insert junk lut e1 e2)) /\
  count (snd (lut_insert junk lut e1 e2)) = count lut + 1.
Proof.
  intros Hroom He1 He2 Hsorted.
  destruct (lut_insert_entries junk lut e1 e2 Hroom He1 He2)
    as (_ & Hp & _ & _ & Hc & _ & _ & _ & _ & Hent).
  set (lut' := snd (lut_insert junk lut e1 e2)) in *.
  set (p := lut_insert_search (S (Z.to_nat (count lut))) (buf_of (buf1 lut))
              (size_item1 lut) e1 0 (count lut)) in *.
  destruct Hroom as (Hpos1 & Hpos2 & Hcnt & Hmax & Hb1 & Hb2).
  destruct (lut_insert_search_spec (buf_of (buf1 lut)) e1 (size_item1 lut)
              (count lut) Hpos1 ltac:(nia) ltac:(lia) He1 Hsorted
              (S (Z.to_nat (count lut))) 0 (count lut)
              ltac:(lia) ltac:(lia) ltac:(lia)
              ltac:(intros j Hj; lia) ltac:(intros j Hj; lia))
    as [Hlo Hhi].
  fold p in Hlo, Hhi.
  split; [ | exact Hc ].
  intros i j Hi Hij Hj. rewrite Hc in Hj.
  destruct (Hent i ltac:(lia)) as [Hi1 _].
  destruct (Hent j ltac:(lia)) as [Hj1 _].
  rewrite Hi1, Hj1.
  destruct (i <? p) eqn:Eip; [ apply Z.ltb_lt in Eip | apply Z.ltb_ge in Eip ].
  - destruct (j <? p) eqn:Ejp;
      [ apply Z.ltb_lt in Ejp | apply Z.ltb_ge in Ejp ].
    + apply Hsorted; lia.
    + destruct (j =? p) eqn:Ej;
        [ apply Z.eqb_eq in Ej | apply Z.eqb_neq in Ej ].
      * specialize (Hlo i ltac:(lia)). unfold lut_item1. lia.
      * apply Hsorted; lia.
  - replace (j <? p) with false by (symmetry; apply Z.ltb_ge; lia).
    destruct (i =? p) eqn:Ei;
      [ apply Z.eqb_eq in Ei | apply Z.eqb_neq in Ei ].
    + destruct (j =? p) eqn:Ej;
        [ apply Z.eqb_eq in Ej | apply Z.eqb_neq in Ej ].
      * rewrite memcmp_refl. lia.
      * specialize (Hhi (j - 1) ltac:(lia)).
        rewrite memcmp_antisym. unfold lut_item1. lia.
    + replace (j =? p) with false by (symmetry; apply Z.eqb_neq; lia).
      apply Hsorted; lia.
Qed.

Lemma lut_insert_keeps_sorted_witness :
  lut_sorted (snd (lut_insert junk_zero (lutsid flat_tree) [5]
                     (le_encode 4 30))) /\
  count (snd (lut_insert junk_zero (lutsid flat_tree) [5]
                (le_encode 4 30))) = count (lutsid flat_tree) + 1.
Proof.
  apply (lut_insert_keeps_sorted junk_zero (lutsid flat_tree)
           [5] (le_encode 4 30)).
  - unfold lut_has_room. vm_compute. split_all; try reflexivity;
      intros H; discriminate H.
  - reflexivity.
  - reflexivity.
  - intros i j Hi Hij Hj. change (count (lutsid flat_tree)) with 3 in Hj.
    assert (Hc : (i = 0 \/ i = 1 \/ i = 2) /\ (j = 0 \/ j = 1 \/ j = 2))
      by lia.
    destruct Hc as [[-> | [-> | ->]] [-> | [-> | ->]]]; try lia;
      vm_compute; intros H; discriminate H.
Defined.

(** ** Tables built by successive insertions *)

Lemma memcmp_eq (a : list Z) :
  forall b, length a = length b -> memcmp a b = 0 -> a = b.
Proof.
  induction a as [ | x a IH]; intros [ | y b] Hlen; try discriminate Hlen;
    cbn [memcmp]; [ reflexivity | ].
  destruct (x <? y) eqn:E1; [ discriminate | ].
  destruct (y <? x) eqn:E2; [ discriminate | ].
  apply Z.ltb_ge in E1, E2. intros H.
  f_equal; [ lia | apply IH; [ cbn in Hlen; congruence | exact H ] ].
Qed.

(** One more insertion into a table with room, of an item 1 it does not
    hold. *)
Lemma lut_holds_insert (junk : nat -> Z) (lut : uicc_disk_lut_st)
    (es : list (list Z * list Z)) (k v : list Z) :
  lut_has_room lut ->
  length k = Z.to_nat (size_item1 lut) ->
  length v = Z.to_nat (size_item2 lut) ->
  lut_holds lut es ->
  ~ In k (map fst es) ->
  lut_holds (snd (lut_insert junk lut k v)) (es ++ [(k, v)]).
Proof.
  intros Hroom Hk Hv (Hcount & Hin & Hout) Hfresh.
  destruct (lut_insert_entries junk lut k v Hroom Hk Hv)
    as (_ & _ & Hs1 & _ & Hc & _ & _ & _ & _ & _).
  pose proof (fun key Hkey =>
                lut_scan_after_insert junk lut k v key Hroom Hk Hv Hkey)
    as Hscan.
  cbv zeta in Hscan.
  set (lut' := snd (lut_insert junk lut k v)) in *.
  fold (lut_find lut') in Hscan.
  assert (Hscan' : forall key,
    length key = Z.to_nat (size_item1 lut) ->
    (memcmp k key = 0 -> lut_find lut key >= count lut ->
     lut_find lut' key < count lut' /\
     lut_item2 lut' (lut_find lut' key) = v) /\
    (memcmp k key <> 0 ->
     (lut_find lut key >= count lut -> lut_find lut' key >= count lut') /\
     (lut_find lut key < count lut ->
      lut_find lut' key < count lut' /\
      lut_item2 lut' (lut_find lut' key) =
        lut_item2 lut (lut_find lut key)))).
  { intros key Hkey. exact (Hscan key Hkey). }
  clear Hscan.
  split; [ rewrite Hc, Hcount, length_app; cbn [length]; lia | ].
  split.
  - intros k0 v0 Hin0. apply in_app_or in Hin0.
    destruct Hin0 as [Hold | [Hnew | []]].
    + destruct (Hin k0 v0 Hold) as (Hlen0 & Hlt0 & Hval0).
      rewrite Hs1. split; [ exact Hlen0 | ].
      destruct (Hscan' k0 Hlen0) as [_ Hdiff].
      assert (Hne : memcmp k k0 <> 0).
      { intros E. apply memcmp_eq in E; [ | congruence ].
        apply Hfresh. subst k0.
        change k with (fst (k, v0)). apply in_map. exact Hold. }
      destruct (Hdiff Hne) as [_ Hsome].
      destruct (Hsome Hlt0) as [H1 H2].
      split; [ exact H1 | rewrite H2; exact Hval0 ].
    + inversion Hnew; subst k0 v0.
      rewrite Hs1. split; [ exact Hk | ].
      destruct (Hscan' k Hk) as [Hsame _].
      apply Hsame; [ apply memcmp_refl | ].
      apply Hout; assumption.
  - intros k0 Hlen0 Hnot. rewrite Hs1 in Hlen0.
    rewrite map_app, in_app_iff in Hnot. cbn [map fst In] in Hnot.
    destruct (Hscan' k0 Hlen0) as [_ Hdiff].
    assert (Hne : memcmp k k0 <> 0).
    { intros E. apply memcmp_eq in E; [ | congruence ].
      apply Hnot. right. left. exact E. }
    destruct (Hdiff Hne) as [Hnone _].
    apply Hnone. apply Hout; [ exact Hlen0 | ].
    intros H. apply Hnot. left. exact H.
Qed.

(** ** The walk of a tree without DFs, for any callback *)

Lemma file_prs_root_inside (hdr : list Z) (efs : list (list Z)) :
  flat_root_ok hdr efs ->
  let r := uicc_fs_file_prs (tree_of_image (hdr ++ concat efs)) 0 in
  fst r = UICC_RET_SUCCESS /\
  type (hdr_item (snd r)) = UICC_FS_ITEM_TYPE_FILE_MF /\
  size (hdr_item (snd r)) = Z.of_nat (length (hdr ++ concat efs)) /\
  offset_trel (hdr_item (snd r)) = 0.
Proof.
  intros (Hlen & Hty & Hsz & Hmax).
  unfold uicc_fs_file_prs, tree_of_image. cbn [buf len].
  assert (Hl : Z.of_nat (length (hdr ++ concat efs)) =
               30 + Z.of_nat (length (concat efs)))
    by (rewrite length_app, Hlen; lia).
  change (0 <? 0) with false.
  replace (Z.of_nat (length (hdr ++ concat efs)) <? 0 + sizeof_file_raw)
    with false by (symmetry; apply Z.ltb_ge; unfold sizeof_file_raw; lia).
  cbn [orb].
  replace (Z.of_nat (length (hdr ++ concat efs)) - 0)
    with (Z.of_nat (length (hdr ++ concat efs))) by lia.
  assert (Hall : buf_read (hdr ++ concat efs) 0
                   (Z.of_nat (length (hdr ++ concat efs))) =
                 hdr ++ concat efs).
  { unfold buf_read. change (Z.to_nat 0) with 0%nat. rewrite skipn_O.
    rewrite Nat2Z.id. apply firstn_all. }
  rewrite Hall.
  assert (Hnth : nth 5 (hdr ++ concat efs) 0 = nth 5 hdr 0)
    by (apply app_nth1; lia).
  assert (Hrd : buf_read (hdr ++ concat efs) 0 4 = buf_read hdr 0 4)
    by (apply buf_read_app_l; lia).
  cbv zeta. unfold uicc_fs_item_hdr_prs. cbn [type size].
  rewrite Hnth, Hrd, Hty, Hsz.
  change (item_type_of_Z 1) with UICC_FS_ITEM_TYPE_FILE_MF.
  cbn [hdr_spec_len].
  replace (Z.of_nat (length (hdr ++ concat efs))
           <? 0 + (sizeof_file_raw + 0))
    with false by (symmetry; apply Z.ltb_ge; unfold sizeof_file_raw; lia).
  cbn [fst snd hdr_item type size offset_trel]. split_all; reflexivity.
Qed.

Lemma ef_image_ok_length (img : list Z) :
  ef_image_ok img = true -> 30 <= Z.of_nat (length img).
Proof.
  unfold ef_image_ok. intros Hok.
  apply andb_prop in Hok. destruct Hok as [_ Hlen].
  apply Z.leb_le in Hlen. unfold sizeof_file_raw in Hlen.
  destruct (item_type_of_Z (nth 5 img 0)); cbn in Hlen; lia.
Qed.

(** Every EF of the tree parses at its offset. *)
Lemma ef_offsets_parse (efs : list (list Z)) :
  forall (pre : list Z) (off : Z),
    forallb ef_image_ok efs = true ->
    In off (ef_offsets (Z.of_nat (length pre)) efs) ->
    let r := uicc_fs_file_prs (tree_of_image (pre ++ concat efs)) off in
    fst r = UICC_RET_SUCCESS /\
    offset_trel (hdr_item (snd r)) = off /\
    Z.of_nat (length pre) <= off < Z.of_nat (length (pre ++ concat efs)).
Proof.
  induction efs as [ | img efs IH]; intros pre off Hok Hin;
    cbn [ef_offsets In] in Hin; [ contradiction | ].
  cbn [forallb] in Hok. apply andb_prop in Hok. destruct Hok as [Hok1 Hok].
  pose proof (ef_image_ok_length img Hok1) as H30.
  cbn [concat].
  destruct Hin as [Heq | Hin].
  - subst off.
    destruct (file_prs_ef_inside pre img (concat efs) Hok1)
      as (Hr & _ & _ & Hoff).
    cbv zeta. split; [ exact Hr | ]. split; [ exact Hoff | ].
    rewrite !length_app. lia.
  - rewrite <- Nat2Z.inj_add, <- length_app in Hin.
    specialize (IH (pre ++ img) off Hok Hin). cbv zeta in IH.
    rewrite <- app_assoc in IH.
    destruct IH as (Hr & Hoff & Hrange).
    cbv zeta. split; [ exact Hr | ]. split; [ exact Hoff | ].
    rewrite length_app in Hrange. lia.
Qed.

Lemma foreach_loop_flat_fold {U : Type}
    (cb : uicc_disk_tree_st -> uicc_fs_file_st -> U -> uicc_ret_et * U)
    (efs : list (list Z)) :
  (forall t f u, fst (cb t f u) = UICC_RET_SUCCESS) ->
  forall (k : nat) (pre : list Z) (a b : Z) (u : U),
    forallb ef_image_ok efs = true ->
    Z.of_nat (length (pre ++ concat efs)) <= UINT32_MAX ->
    foreach_loop cb (S (length efs) + k)
      (tree_of_image (pre ++ concat efs))
      (Z.of_nat (length (pre ++ concat efs)))
      [Z.of_nat (length pre); a; b] 1 u =
    Some (UICC_RET_SUCCESS,
          fold_left
            (fun u off =>
               snd (cb (tree_of_image (pre ++ concat efs))
                      (snd (uicc_fs_file_prs
                              (tree_of_image (pre ++ concat efs)) off)) u))
            (ef_offsets (Z.of_nat (length pre)) efs) u).
Proof.
  intros Hcb.
  induction efs as [ | img efs IH]; intros k pre a b u Hok Hmax.
  - cbn [concat length ef_offsets Nat.add fold_left]. rewrite !app_nil_r.
    apply foreach_loop_done. lia.
  - cbn [forallb] in Hok. apply andb_prop in Hok. destruct Hok as [Hok1 Hok].
    cbn [concat length ef_offsets Nat.add fold_left].
    destruct (file_prs_ef_inside pre img (concat efs) Hok1)
      as (Hr & Hty & Hsz & Hoff).
    pose proof (ef_image_ok_length img Hok1) as H30.
    assert (Hl : Z.of_nat (length (pre ++ img ++ concat efs)) =
                 Z.of_nat (length pre) + Z.of_nat (length img)
                 + Z.of_nat (length (concat efs)))
      by (rewrite !length_app; lia).
    destruct (uicc_fs_file_prs (tree_of_image (pre ++ img ++ concat efs))
                (Z.of_nat (length pre))) as [r f] eqn:Hf.
    cbn [fst snd] in Hr, Hty, Hsz, Hoff. subst r.
    rewrite (foreach_loop_ef cb _ _ _ _ a b u f); try assumption; [ | lia ].
    rewrite Hcb, Hsz. cbn [snd].
    replace (u32 (Z.of_nat (length pre) + Z.of_nat (length img)))
      with (Z.of_nat (length (pre ++ img)))
      by (cbn [concat] in Hmax; unfold UINT32_MAX in Hmax;
          rewrite length_app, Nat2Z.inj_add; unfold u32;
          rewrite Z.mod_small; lia).
    rewrite (app_assoc pre img (concat efs)).
    change (S (length efs + k)) with (S (length efs) + k)%nat.
    rewrite (IH k (pre ++ img) a b _ Hok)
      by (rewrite <- app_assoc; exact Hmax).
    rewrite <- (app_assoc pre img (concat efs)).
    rewrite length_app, Nat2Z.inj_add. reflexivity.
Qed.

(** The walk of a tree made of an MF and of EFs, for a callback that
    never fails: it succeeds, and the user data has gone through the
    callback once for each file, the root first, the EFs in the order
    of the image. *)
Lemma foreach_flat_fold {U : Type}
    (cb : uicc_disk_tree_st -> uicc_fs_file_st -> U -> uicc_ret_et * U)
    (hdr : list Z) (efs : list (list Z)) (k : nat) (u : U) :
  (forall t f u, fst (cb t f u) = UICC_RET_SUCCESS) ->
  flat_root_ok hdr efs ->
  forallb ef_image_ok efs = true ->
  uicc_disk_tree_file_foreach cb (S (length efs) + k)
    (Some (tree_of_image (hdr ++ concat efs))) u =
  Some (UICC_RET_SUCCESS,
        fold_left
          (fun u f => snd (cb (tree_of_image (hdr ++ concat efs)) f u))
          (flat_files hdr efs) u).
Proof.
  intros Hcb Hroot Hok.
  destruct (file_prs_root_inside hdr efs Hroot) as (Hr & Hft & Hfs & Hfo).
  destruct Hroot as (Hlen & Hty & Hsz & Hmax).
  unfold uicc_disk_tree_file_foreach, uicc_disk_tree_file_root.
  unfold flat_files. cbn [map fold_left].
  destruct (uicc_fs_file_prs (tree_of_image (hdr ++ concat efs)) 0)
    as [r f] eqn:Hf.
  cbn [fst snd] in Hr, Hft, Hfs, Hfo. subst r. cbn [snd].
  cbv beta iota zeta. rewrite Hft.
  pose proof (Hcb (tree_of_image (hdr ++ concat efs)) f u) as Hc.
  destruct (cb (tree_of_image (hdr ++ concat efs)) f u) as [rc u1] eqn:Ecb.
  cbn [fst] in Hc. subst rc. cbn [snd]. cbv beta iota zeta. rewrite Hft, Hfs.
  unfold sizeof_file_raw. change (30 + 0) with (Z.of_nat 30).
  rewrite <- Hlen.
  rewrite (foreach_loop_flat_fold cb efs Hcb k hdr 0 0 u1 Hok Hmax).
  f_equal. f_equal.
  generalize (ef_offsets (Z.of_nat (length hdr)) efs) as offs.
  intros offs. clear Ecb. revert u1.
  induction offs as [ | o offs IH]; intros u1; cbn [map fold_left];
    [ reflexivity | apply IH ].
Qed.

(** ** The LUTs of a tree without DFs *)

Lemma lutsid_rebuild_cb_ok (junk : nat -> Z) (t : uicc_disk_tree_st)
    (f : uicc_fs_file_st) (l : uicc_disk_lut_st) :
  fst (lutsid_rebuild_cb junk t f l) = UICC_RET_SUCCESS.
Proof.
  unfold lutsid_rebuild_cb, lut_insert.
  destruct (sid (hdr_file f) =? UICC_FS_SID_MISSING); reflexivity.
Qed.

Lemma lutid_rebuild_cb_ok (junk : nat -> Z) (i : Z) (t : uicc_disk_tree_st)
    (f : uicc_fs_file_st) (l : uicc_disk_lut_st) :
  fst (lutid_rebuild_cb junk i t f l) = UICC_RET_SUCCESS.
Proof.
  unfold lutid_rebuild_cb, lut_insert.
  destruct (id (hdr_file f) =? UICC_FS_ID_MISSING); reflexivity.
Qed.

Lemma lut_fresh_shape_room (lut : uicc_disk_lut_st) (s1 s2 : Z) :
  0 < s1 -> 0 < s2 -> lut_fresh_shape lut s1 s2 ->
  0 <= count lut < LUT_COUNT_START -> lut_has_room lut.
Proof.
  intros H1 H2 (Hs1 & Hs2 & Hcm & _ & Hb1 & Hb2) Hc.
  unfold lut_has_room. rewrite Hs1, Hs2, Hcm.
  unfold LUT_COUNT_START in *. split_all; lia.
Qed.

Lemma lut_fresh_shape_insert (junk : nat -> Z) (lut : uicc_disk_lut_st)
    (s1 s2 : Z) (k v : list Z) :
  0 < s1 -> 0 < s2 -> lut_fresh_shape lut s1 s2 ->
  0 <= count lut < LUT_COUNT_START ->
  length k = Z.to_nat s1 -> length v = Z.to_nat s2 ->
  lut_fresh_shape (snd (lut_insert junk lut k v)) s1 s2.
Proof.
  intros H1 H2 Hshape Hc Hk Hv.
  pose proof (lut_fresh_shape_room lut s1 s2 H1 H2 Hshape Hc) as Hroom.
  destruct Hshape as (Hs1 & Hs2 & Hcm & Hnn & Hb1 & Hb2).
  destruct (lut_insert_entries junk lut k v Hroom
              ltac:(rewrite Hs1; exact Hk) ltac:(rewrite Hs2; exact Hv))
    as (_ & _ & Hs1' & Hs2' & _ & Hcm' & Hnn' & Hl1 & Hl2 & _).
  unfold lut_fresh_shape. rewrite Hs1', Hs2', Hcm', Hl1, Hl2.
  split_all; assumption.
Qed.

Lemma lut_fresh_shape_malloc (junk : nat -> Z) (s1 s2 : Z) :
  0 < s1 -> 0 < s2 ->
  let l0 := {| buf1 := Some (malloc junk (LUT_COUNT_START * s1));
               buf2 := Some (malloc junk (LUT_COUNT_START * s2));
               size_item1 := s1; size_item2 := s2;
               count := 0; count_max := LUT_COUNT_START |} in
  lut_fresh_shape l0 s1 s2 /\ lut_holds l0 [].
Proof.
  intros H1 H2 l0. split.
  - unfold lut_fresh_shape, l0, malloc, LUT_COUNT_START.
    cbn [size_item1 size_item2 count_max buf1 buf2 buf_of].
    rewrite !length_map, !length_seq.
    split_all; try reflexivity; try discriminate; lia.
  - unfold lut_holds, l0. cbn [count length]. split; [ reflexivity | ].
    split; [ intros k0 v0 [] | ].
    intros k0 _ _. unfold lut_find. cbn [count Z.to_nat lut_scan]. lia.
Qed.

(** A table after a run of insertions of items 1 that are pairwise
    distinct, as the callbacks of the two rebuilds make them: [keep]
    tells the files that get an entry, [key] and [val] give its items. *)
Lemma lut_fold_holds (junk : nat -> Z) (s1 s2 : Z)
    (keep : uicc_fs_file_st -> bool)
    (key val : uicc_fs_file_st -> list Z) :
  0 < s1 -> 0 < s2 ->
  (forall f, length (key f) = Z.to_nat s1) ->
  (forall f, length (val f) = Z.to_nat s2) ->
  forall (files : list uicc_fs_file_st) (l : uicc_disk_lut_st)
         (es : list (list Z * list Z)),
    lut_fresh_shape l s1 s2 ->
    lut_holds l es ->
    count l + Z.of_nat (length files) <= LUT_COUNT_START ->
    NoDup (map key (filter keep files)) ->
    (forall f, In f files -> keep f = true -> ~ In (key f) (map fst es)) ->
    let l' :=
      fold_left
        (fun l f =>
           if keep f then snd (lut_insert junk l (key f) (val f)) else l)
        files l in
    lut_fresh_shape l' s1 s2 /\
    lut_holds l' (es ++ map (fun f => (key f, val f)) (filter keep files)).
Proof.
  intros H1 H2 Hkey Hval.
  induction files as [ | f files IH]; intros l es Hshape Hholds Hcnt Hnd Hfresh.
  - cbn [fold_left filter map]. rewrite app_nil_r. split; assumption.
  - cbn [fold_left filter length] in *.
    assert (Hc0 : 0 <= count l)
      by (destruct Hholds as (Hc & _); rewrite Hc; lia).
    destruct (keep f) eqn:Hkeep.
    + cbn [map] in Hnd. inversion Hnd as [ | s ss Hnotin Hnd' ]; subst.
      assert (Hc : 0 <= count l < LUT_COUNT_START) by lia.
      pose proof (lut_fresh_shape_room l s1 s2 H1 H2 Hshape Hc) as Hroom.
      assert (Hk : length (key f) = Z.to_nat (size_item1 l))
        by (destruct Hshape as (-> & _); apply Hkey).
      assert (Hv : length (val f) = Z.to_nat (size_item2 l))
        by (destruct Hshape as (_ & -> & _); apply Hval).
      assert (Hf : ~ In (key f) (map fst es))
        by (apply Hfresh; [ left; reflexivity | exact Hkeep ]).
      pose proof (lut_holds_insert junk l es _ _ Hroom Hk Hv Hholds Hf)
        as Hholds1.
      pose proof (lut_fresh_shape_insert junk l s1 s2 (key f) (val f)
                    H1 H2 Hshape Hc (Hkey f) (Hval f)) as Hshape1.
      destruct (lut_insert_entries junk l _ _ Hroom Hk Hv)
        as (_ & _ & _ & _ & Hc1 & _).
      set (l1 := snd (lut_insert junk l (key f) (val f))) in *.
      destruct (IH l1 (es ++ [(key f, val f)]) Hshape1 Hholds1
                  ltac:(lia) Hnd') as [Hs' Hh'].
      { intros f' Hin' Hkeep' Hin.
        rewrite map_app, in_app_iff in Hin. cbn [map fst In] in Hin.
        destruct Hin as [Hin | [Heq | []]].
        - exact (Hfresh f' (or_intror Hin') Hkeep' Hin).
        - apply Hnotin. rewrite Heq.
          apply (in_map key _ f').
          apply filter_In. split; assumption. }
      split; [ exact Hs' | ].
      cbn [map]. rewrite <- app_assoc in Hh'. exact Hh'.
    + apply IH; try assumption; [ lia | ].
      intros f' Hin'. apply Hfresh. right. exact Hin'.
Qed.

Lemma fold_left_ext {A B : Type} (f g : A -> B -> A) :
  (forall a x, f a x = g a x) ->
  forall l a, fold_left f l a = fold_left g l a.
Proof.
  intros H. induction l as [ | x l IH]; intros a; cbn [fold_left];
    [ reflexivity | rewrite H; apply IH ].
Qed.

Lemma NoDup_map_inj {A B : Type} (h : A -> B) (l : list A) :
  (forall x y, In x l -> In y l -> h x = h y -> x = y) ->
  NoDup l -> NoDup (map h l).
Proof.
  intros Hinj Hnd. induction Hnd as [ | x l Hnotin Hnd IH]; cbn [map].
  - constructor.
  - constructor.
    + intros Hin. apply in_map_iff in Hin. destruct Hin as (y & Heq & Hy).
      apply Hnotin.
      rewrite (Hinj x y (or_introl eq_refl) (or_intror Hy) (eq_sym Heq)).
      exact Hy.
    + apply IH. intros a b Ha Hb. apply Hinj; right; assumption.
Qed.

Lemma ef_offsets_length (efs : list (list Z)) :
  forall o, length (ef_offsets o efs) = length efs.
Proof.
  induction efs as [ | e efs IH]; intros o; cbn; [ | rewrite IH ];
    reflexivity.
Qed.

(** The files of the tree, each with its offset. *)
Lemma flat_files_parse (hdr : list Z) (efs : list (list Z))
    (f : uicc_fs_file_st) :
  flat_root_ok hdr efs ->
  forallb ef_image_ok efs = true ->
  In f (flat_files hdr efs) ->
  let t := tree_of_image (hdr ++ concat efs) in
  uicc_fs_file_prs t (offset_trel (hdr_item f)) = (UICC_RET_SUCCESS, f) /\
  0 <= offset_trel (hdr_item f) < len t.
Proof.
  intros Hroot Hok Hin t.
  unfold flat_files in Hin. apply in_map_iff in Hin.
  destruct Hin as (off & Hf & Hoff).
  destruct Hoff as [H0 | Hoff].
  - subst off.
    destruct (file_prs_root_inside hdr efs Hroot) as (Hr & _ & _ & Hfo).
    fold t in Hr, Hfo, Hf.
    destruct (uicc_fs_file_prs t 0) as [r f0] eqn:E. cbn [fst snd] in *.
    subst. rewrite Hfo. split; [ exact E | ].
    unfold t, tree_of_image. cbn [len].
    destruct Hroot as (Hlen & _). rewrite length_app, Hlen. lia.
  - destruct (ef_offsets_parse efs hdr off Hok Hoff) as (Hr & Hfo & Hrange).
    fold t in Hr, Hfo, Hf.
    destruct (uicc_fs_file_prs t off) as [r f0] eqn:E. cbn [fst snd] in *.
    subst. split; [ exact E | ].
    unfold t, tree_of_image. cbn [len]. lia.
Qed.

(** X6.  The SID LUT built for a tree made of an MF and of at most 63
    EFs below it, the SIDs in use being pairwise distinct: the rebuild
    succeeds, leaves the image of the tree as it is, and afterwards
    every file that has a SID is what the lookup of its SID returns. *)
Theorem lutsid_rebuild_flat (junk : nat -> Z) (hdr : list Z)
    (efs : list (list Z)) (k : nat) :
  flat_root_ok hdr efs ->
  forallb ef_image_ok efs = true ->
  (length efs < 64)%nat ->
  NoDup (map (fun f => sid (hdr_file f))
             (filter has_sid (flat_files hdr efs))) ->
  exists t',
    uicc_disk_lutsid_rebuild junk (S (length efs) + k)
      (tree_of_image (hdr ++ concat efs)) =
      Some (UICC_RET_SUCCESS, t') /\
    buf t' = hdr ++ concat efs /\
    len t' = Z.of_nat (length (hdr ++ concat efs)) /\
    forall f, In f (flat_files hdr efs) -> has_sid f = true ->
              uicc_disk_lutsid_lookup (Some t') (sid (hdr_file f)) =
              (UICC_RET_SUCCESS, f).
Proof.
  intros Hroot Hok Hn Hnd.
  set (t := tree_of_image (hdr ++ concat efs)).
  set (key := fun f : uicc_fs_file_st => [sid (hdr_file f)]).
  set (val := fun f : uicc_fs_file_st =>
                le_encode 4 (offset_trel (hdr_item f))).
  destruct (lut_fresh_shape_malloc junk 1 4 ltac:(lia) ltac:(lia))
    as [Hshape0 Hholds0].
  set (l0 := {| buf1 := Some (malloc junk (LUT_COUNT_START * 1));
                buf2 := Some (malloc junk (LUT_COUNT_START * 4));
                size_item1 := 1; size_item2 := 4;
                count := 0; count_max := LUT_COUNT_START |}) in *.
  destruct (lut_fold_holds junk 1 4 has_sid key val ltac:(lia) ltac:(lia)
              ltac:(reflexivity) ltac:(reflexivity)
              (flat_files hdr efs) l0 [] Hshape0 Hholds0)
    as [Hshape Hholds].
  { unfold l0, LUT_COUNT_START, flat_files. cbn [count].
    rewrite length_map. cbn [length]. rewrite ef_offsets_length. lia. }
  { unfold key. rewrite <- (map_map (fun f => sid (hdr_file f))
                              (fun s => [s])).
    apply NoDup_map_inj; [ | exact Hnd ].
    intros x y _ _ H. inversion H. reflexivity. }
  { intros f _ _ []. }
  cbn [app] in Hholds.
  assert (Hstep : forall l,
    fold_left (fun l f => snd (lutsid_rebuild_cb junk t f l))
      (flat_files hdr efs) l =
    fold_left
      (fun l f => if has_sid f
                  then snd (lut_insert junk l (key f) (val f)) else l)
      (flat_files hdr efs) l).
  { apply fold_left_ext. intros l f.
    unfold lutsid_rebuild_cb, has_sid, key, val.
    destruct (sid (hdr_file f) =? UICC_FS_SID_MISSING); reflexivity. }
  rewrite <- Hstep in Hshape, Hholds.
  set (l' := fold_left (fun l f => snd (lutsid_rebuild_cb junk t f l))
               (flat_files hdr efs) l0) in *.
  exists (tree_set_lutsid t l').
  split.
  { unfold uicc_disk_lutsid_rebuild. fold l0. fold t.
    unfold t at 1.
    rewrite (foreach_flat_fold (lutsid_rebuild_cb junk) hdr efs k l0
               (lutsid_rebuild_cb_ok junk) Hroot Hok).
    fold t. fold l'. reflexivity. }
  split; [ reflexivity | ]. split; [ reflexivity | ].
  intros f Hin Hsid.
  destruct Hholds as (_ & Hfound & _).
  destruct (Hfound (key f) (val f)) as (_ & Hlt & Hitem).
  { apply (in_map (fun f => (key f, val f))).
    apply filter_In. split; assumption. }
  destruct (flat_files_parse hdr efs f Hroot Hok Hin) as [Hprs Hrange].
  fold t in Hprs, Hrange.
  destruct Hshape as (Hs1 & Hs2 & _ & Hnn & _ & _).
  unfold uicc_disk_lutsid_lookup, tree_set_lutsid. cbn [lutsid len].
  destruct (buf1 l') as [b1 | ] eqn:Eb1; [ | contradiction ].
  rewrite Hs1, Hs2. cbn [Z.eqb Pos.eqb negb orb]. cbv zeta.
  unfold lut_find, key in Hlt, Hitem. rewrite Eb1, Hs1 in Hlt, Hitem.
  cbn [buf_of] in Hlt, Hitem.
  replace (_ >=? count l') with false
    by (symmetry; rewrite Z.geb_leb; apply Z.leb_gt; lia).
  unfold lut_item2 in Hitem. rewrite Hs2 in Hitem. rewrite Hitem.
  assert (Hmax : len t <= UINT32_MAX).
  { destruct Hroot as (_ & _ & _ & Hm). exact Hm. }
  unfold val.
  rewrite (le_decode_encode 4)
    by (unfold UINT32_MAX in Hmax; change (256 ^ Z.of_nat 4) with 4294967296;
        lia).
  replace (offset_trel (hdr_item f) >=? len t) with false
    by (symmetry; rewrite Z.geb_leb; apply Z.leb_gt; lia).
  fold (tree_set_lutsid t l').
  rewrite (file_prs_same_buf (tree_set_lutsid t l') t _ eq_refl eq_refl).
  rewrite Hprs. reflexivity.
Qed.

Lemma lutsid_rebuild_flat_witness :
  exists t',
    uicc_disk_lutsid_rebuild junk_zero 4
      (tree_of_image (flat_hdr ++ concat flat_efs)) =
      Some (UICC_RET_SUCCESS, t') /\
    buf t' = flat_hdr ++ concat flat_efs /\
    len t' = Z.of_nat (length (flat_hdr ++ concat flat_efs)) /\
    forall f, In f (flat_files flat_hdr flat_efs) -> has_sid f = true ->
              uicc_disk_lutsid_lookup (Some t') (sid (hdr_file f)) =
              (UICC_RET_SUCCESS, f).
Proof.
  apply (lutsid_rebuild_flat junk_zero flat_hdr flat_efs 0).
  - unfold flat_root_ok. vm_compute. split_all; try reflexivity.
    intros H; discriminate H.
  - vm_compute. reflexivity.
  - cbn. lia.
  - vm_compute.
    repeat (constructor; [ cbn; intuition discriminate | ]). constructor.
Defined.

Lemma id_be_bytes_inj (a b : Z) :
  0 <= a < 65536 -> 0 <= b < 65536 ->
  id_be_bytes a = id_be_bytes b -> a = b.
Proof.
  intros Ha Hb H. unfold id_be_bytes, u8 in H. inversion H as [[H1 H2]].
  rewrite (Z.mod_small (a / 256)) in H1
    by (split; [ apply Z.div_pos; lia | apply Z.div_lt_upper_bound; lia ]).
  rewrite (Z.mod_small (b / 256)) in H1
    by (split; [ apply Z.div_pos; lia | apply Z.div_lt_upper_bound; lia ]).
  pose proof (Z.div_mod a 256 ltac:(lia)).
  pose proof (Z.div_mod b 256 ltac:(lia)). lia.
Qed.

Lemma nth_buf_read (b : list Z) (o n : Z) (i : nat) :
  0 <= o -> (i < Z.to_nat n)%nat ->
  nth i (buf_read b o n) 0 = nth (Z.to_nat o + i) b 0.
Proof.
  intros Ho Hi. unfold buf_read. rewrite nth_firstn, nth_skipn.
  replace (i <? Z.to_nat n)%nat with true
    by (symmetry; apply Nat.ltb_lt; exact Hi).
  reflexivity.
Qed.

Lemma lut_scan_nonneg (b1 key : list Z) (s1 : Z) :
  forall (n : nat) (i : Z), 0 <= i -> 0 <= lut_scan n b1 s1 key i.
Proof.
  induction n as [ | n IH]; intros i Hi; cbn [lut_scan]; [ exact Hi | ].
  destruct (_ =? 0); [ exact Hi | ].
  apply IH. unfold u32. apply Z.mod_pos_bound. lia.
Qed.

(** X7.  The ID LUT built for a disk whose only tree is made of an MF
    and of at most 63 EFs, the FIDs in use being pairwise distinct: the
    rebuild succeeds, keeps the forest, and afterwards the lookup of the
    FID of a file returns that file and the tree it is in. *)
Theorem lutid_rebuild_flat (junk : nat -> Z) (hdr : list Z)
    (efs : list (list Z)) (k : nat) (lut_old : uicc_disk_lut_st) :
  flat_root_ok hdr efs ->
  forallb ef_image_ok efs = true ->
  (length efs < 64)%nat ->
  (forall f, In f (flat_files hdr efs) -> 0 <= id (hdr_file f) < 65536) ->
  NoDup (map (fun f => id (hdr_file f))
             (filter has_id (flat_files hdr efs))) ->
  let d := {| root := [tree_of_image (hdr ++ concat efs)];
              lutid := lut_old |} in
  exists d',
    uicc_disk_lutid_rebuild junk (S (length efs) + k) d =
      Some (UICC_RET_SUCCESS, d') /\
    root d' = root d /\
    forall f, In f (flat_files hdr efs) -> has_id f = true ->
              uicc_disk_lutid_lookup d' (id (hdr_file f)) =
              (UICC_RET_SUCCESS, Some 0%nat, f).
Proof.
  intros Hroot Hok Hn Hrange Hnd d.
  set (t := tree_of_image (hdr ++ concat efs)) in *.
  set (key := fun f : uicc_fs_file_st => id_be_bytes (id (hdr_file f))).
  set (val := fun f : uicc_fs_file_st =>
                le_encode 4 (offset_trel (hdr_item f)) ++ [0]).
  destruct (lut_fresh_shape_malloc junk 2 (4 + 1) ltac:(lia) ltac:(lia))
    as [Hshape0 Hholds0].
  set (l0 := {| buf1 := Some (malloc junk (LUT_COUNT_START * 2));
                buf2 := Some (malloc junk (LUT_COUNT_START * (4 + 1)));
                size_item1 := 2; size_item2 := 4 + 1;
                count := 0; count_max := LUT_COUNT_START |}) in *.
  destruct (lut_fold_holds junk 2 (4 + 1) has_id key val
              ltac:(lia) ltac:(lia)
              ltac:(reflexivity) ltac:(reflexivity)
              (flat_files hdr efs) l0 [] Hshape0 Hholds0)
    as [Hshape Hholds].
  { unfold l0, LUT_COUNT_START, flat_files. cbn [count].
    rewrite length_map. cbn [length]. rewrite ef_offsets_length. lia. }
  { unfold key. rewrite <- (map_map (fun f => id (hdr_file f)) id_be_bytes).
    apply NoDup_map_inj; [ | exact Hnd ].
    intros x y Hx Hy. apply in_map_iff in Hx, Hy.
    destruct Hx as (fx & <- & Hfx). destruct Hy as (fy & <- & Hfy).
    apply filter_In in Hfx, Hfy.
    apply id_be_bytes_inj; apply Hrange; tauto. }
  { intros f _ _ []. }
  cbn [app] in Hholds.
  assert (Hstep : forall l,
    fold_left (fun l f => snd (lutid_rebuild_cb junk 0 t f l))
      (flat_files hdr efs) l =
    fold_left
      (fun l f => if has_id f
                  then snd (lut_insert junk l (key f) (val f)) else l)
      (flat_files hdr efs) l).
  { apply fold_left_ext. intros l f.
    unfold lutid_rebuild_cb, has_id, key, val.
    destruct (id (hdr_file f) =? UICC_FS_ID_MISSING); reflexivity. }
  rewrite <- Hstep in Hshape, Hholds.
  set (l' := fold_left (fun l f => snd (lutid_rebuild_cb junk 0 t f l))
               (flat_files hdr efs) l0) in *.
  exists {| root := [t]; lutid := l' |}.
  split.
  { unfold uicc_disk_lutid_rebuild, d. cbn [root lutid_rebuild_loop].
    fold l0. unfold t at 1.
    rewrite (foreach_flat_fold (lutid_rebuild_cb junk 0) hdr efs k l0
               (lutid_rebuild_cb_ok junk 0) Hroot Hok).
    fold t. fold l'. reflexivity. }
  split; [ reflexivity | ].
  intros f Hin Hid.
  destruct Hholds as (_ & Hfound & _).
  destruct (Hfound (key f) (val f)) as (_ & Hlt & Hitem).
  { apply (in_map (fun f => (key f, val f))).
    apply filter_In. split; assumption. }
  destruct (flat_files_parse hdr efs f Hroot Hok Hin) as [Hprs Hoff].
  fold t in Hprs, Hoff.
  destruct Hshape as (Hs1 & Hs2 & _ & Hnn & _ & Hb2).
  assert (Hc0 : 0 <= lut_find l' (key f))
    by (apply lut_scan_nonneg; lia).
  unfold uicc_disk_lutid_lookup. cbn [lutid root].
  destruct (buf1 l') as [b1 | ] eqn:Eb1; [ | contradiction ].
  rewrite Hs1, Hs2. cbn [Z.eqb Pos.eqb negb orb Z.add Pos.add].
  cbv zeta.
  unfold lut_find, key in Hlt, Hitem, Hc0.
  rewrite Eb1, Hs1 in Hlt, Hitem, Hc0.
  cbn [buf_of] in Hlt, Hitem, Hc0.
  set (idx := lut_scan (Z.to_nat (count l')) b1 2
                (id_be_bytes (id (hdr_file f))) 0) in *.
  replace (idx >=? count l') with false
    by (symmetry; rewrite Z.geb_leb; apply Z.leb_gt; lia).
  unfold lut_item2 in Hitem. rewrite Hs2 in Hitem.
  change (4 + 1) with 5 in Hitem.
  assert (Hmax : len t <= UINT32_MAX).
  { destruct Hroot as (_ & _ & _ & Hm). exact Hm. }
  assert (Ho : le_decode (buf_read (buf_of (buf2 l')) (5 * idx + 0) 4)
               = offset_trel (hdr_item f)).
  { replace (5 * idx + 0) with (5 * idx + 0) by reflexivity.
    rewrite <- (buf_read_buf_read (buf_of (buf2 l')) (5 * idx) 5 0 4)
      by lia.
    rewrite Hitem. unfold val.
    rewrite buf_read_app_l by (cbn; lia).
    unfold buf_read. cbn [Z.to_nat skipn Pos.to_nat Pos.iter_op Nat.add].
    rewrite firstn_all2 by (cbn; lia).
    apply (le_decode_encode 4).
    unfold UINT32_MAX in Hmax. change (256 ^ Z.of_nat 4) with 4294967296.
    lia. }
  assert (Ht : nth (Z.to_nat (5 * idx + 4)) (buf_of (buf2 l')) 0 = 0).
  { replace (Z.to_nat (5 * idx + 4)) with (Z.to_nat (5 * idx) + 4)%nat
      by lia.
    rewrite <- (nth_buf_read (buf_of (buf2 l')) (5 * idx) 5 4)
      by (try lia; cbn; lia).
    rewrite Hitem. unfold val. reflexivity. }
  rewrite Ho, Ht.
  unfold uicc_disk_tree_iter, uicc_disk_tree_iter_idx. cbn [root length].
  cbn [tree_iter_idx_loop iter_tree_idx iter_tree Z.eqb].
  cbn [tree_deref root nth_error].
  replace (len t <=? offset_trel (hdr_item f)) with false
    by (symmetry; apply Z.leb_gt; lia).
  rewrite Hprs. reflexivity.
Qed.

Lemma lutid_rebuild_flat_witness :
  exists d',
    uicc_disk_lutid_rebuild junk_zero 4
      {| root := [tree_of_image (flat_hdr ++ concat flat_efs)];
         lutid := lut_zero |} =
      Some (UICC_RET_SUCCESS, d') /\
    root d' = [tree_of_image (flat_hdr ++ concat flat_efs)] /\
    forall f, In f (flat_files flat_hdr flat_efs) -> has_id f = true ->
              uicc_disk_lutid_lookup d' (id (hdr_file f)) =
              (UICC_RET_SUCCESS, Some 0%nat, f).
Proof.
  apply (lutid_rebuild_flat junk_zero flat_hdr flat_efs 0 lut_zero).
  - unfold flat_root_ok. vm_compute. split_all; try reflexivity.
    intros H; discriminate H.
  - vm_compute. reflexivity.
  - cbn. lia.
  - intros f Hin.
    assert (Hl : forallb (fun f => (0 <=? id (hdr_file f))
                                   && (id (hdr_file f) <? 65536))
                   (flat_files flat_hdr flat_efs) = true)
      by (vm_compute; reflexivity).
    rewrite forallb_forall in Hl. specialize (Hl f Hin).
    apply andb_prop in Hl. destruct Hl as [H1 H2].
    apply Z.leb_le in H1. apply Z.ltb_lt in H2. lia.
  - vm_compute.
    repeat (constructor; [ cbn; intuition discriminate | ]). constructor.
Defined.

(** ** Saving what was loaded *)

Lemma buf_read_adjacent (f : list Z) (o n m : Z) :
  0 <= o -> 0 <= n -> 0 <= m ->
  buf_read f o n ++ buf_read f (o + n) m = buf_read f o (n + m).
Proof.
  intros Ho Hn Hm. unfold buf_read.
  replace (Z.to_nat (o + n)) with (Z.to_nat n + Z.to_nat o)%nat by lia.
  rewrite <- skipn_skipn.
  replace (Z.to_nat (n + m)) with (Z.to_nat n + Z.to_nat m)%nat by lia.
  generalize (skipn (Z.to_nat o) f) as l. intros l.
  rewrite <- (firstn_skipn (Z.to_nat n) l) at 3.
  rewrite firstn_app, firstn_firstn.
  replace (Nat.min (Z.to_nat n + Z.to_nat m) (Z.to_nat n))
    with (Z.to_nat n) by lia.
  f_equal. rewrite length_firstn.
  destruct (Nat.le_gt_cases (Z.to_nat n) (length l)) as [Hle | Hgt].
  - f_equal. lia.
  - rewrite (skipn_all2 l) by lia. rewrite !firstn_nil. reflexivity.
Qed.

Lemma fread_some (f : list Z) (pos n : Z) (bytes : list Z) :
  fread f pos n = Some bytes ->
  pos + n <= Z.of_nat (length f) /\ bytes = buf_read f pos n.
Proof.
  unfold fread. destruct (pos + n <=? Z.of_nat (length f)) eqn:E;
    [ | discriminate ].
  apply Z.leb_le in E. intros H. inversion H. split; [ exact E | reflexivity ].
Qed.

(** The trees read by the loop of [uicc_disk_load] when it succeeds:
    their buffers, one after the other, are the rest of the file. *)
Lemma load_loop_success (junk : nat -> Z) (f : list Z) :
  Z.of_nat (length f) <= UINT32_MAX ->
  forall (fuel : nat) (data_idx tree_idx : Z)
         (trees trees' : list uicc_disk_tree_st),
    0 <= data_idx <= Z.of_nat (length f) ->
    load_loop junk fuel f (Z.of_nat (length f)) data_idx tree_idx trees =
      Some (UICC_RET_SUCCESS, trees') ->
    exists new,
      trees' = trees ++ new /\
      concat (map buf new) = skipn (Z.to_nat data_idx) f /\
      Forall (fun t => len t = Z.of_nat (length (buf t)) /\ 0 < len t) new.
Proof.
  intros Hmax. unfold UINT32_MAX in Hmax.
  induction fuel as [ | fuel IH]; intros data_idx tree_idx trees trees' Hidx;
    cbn [load_loop]; [ discriminate | ].
  destruct (data_idx <? Z.of_nat (length f)) eqn:Elt.
  - apply Z.ltb_lt in Elt.
    destruct (fread f data_idx sizeof_item_hdr_raw) as [raw | ] eqn:Eraw;
      [ | discriminate ].
    apply fread_some in Eraw. destruct Eraw as [Hraw ->].
    unfold sizeof_item_hdr_raw in *.
    set (raw := buf_read f data_idx 10).
    cbv zeta.
    destruct (load_type_bad tree_idx
                (type (uicc_fs_item_hdr_prs raw 0))); [ discriminate | ].
    set (sz := size (uicc_fs_item_hdr_prs raw 0)).
    destruct (sz <? 10) eqn:Esz; [ discriminate | ].
    apply Z.ltb_ge in Esz.
    destruct (sz - 10 =? 0) eqn:Erest; [ discriminate | ].
    apply Z.eqb_neq in Erest.
    destruct (fread f (data_idx + 10) (sz - 10)) as [rest | ] eqn:Er;
      [ | discriminate ].
    apply fread_some in Er. destruct Er as [Hrest ->].
    replace (u32 (data_idx + sz)) with (data_idx + sz)
      by (unfold u32; rewrite Z.mod_small; lia).
    intros Hloop.
    assert (Hnext : 0 <= data_idx + sz <= Z.of_nat (length f)) by lia.
    destruct (IH _ _ _ _ Hnext Hloop) as (new & -> & Hcat & Hall).
    assert (Hbuf : raw ++ buf_read f (data_idx + 10) (sz - 10)
                   = buf_read f data_idx sz).
    { unfold raw. rewrite buf_read_adjacent by lia. f_equal. lia. }
    eexists (_ :: new). split; [ rewrite <- app_assoc; reflexivity | ].
    cbn [map concat buf]. split.
    + rewrite Hcat, Hbuf. unfold buf_read.
      replace (Z.to_nat (data_idx + sz))
        with (Z.to_nat sz + Z.to_nat data_idx)%nat by lia.
      rewrite <- skipn_skipn. apply firstn_skipn.
    + constructor; [ | exact Hall ]. cbn [len buf]. rewrite Hbuf.
      rewrite buf_read_length by lia. lia.
  - apply Z.ltb_ge in Elt. intros H. inversion H. subst trees'.
    exists []. rewrite app_nil_r. split; [ reflexivity | ].
    split; [ | constructor ].
    cbn [map concat]. symmetry. apply skipn_all2. lia.
Qed.

Lemma load_lutsid_images (junk : nat -> Z) (fuel : nat) :
  forall trees trees1,
    load_lutsid junk fuel trees = Some (UICC_RET_SUCCESS, trees1) ->
    map buf trees1 = map buf trees /\ map len trees1 = map len trees.
Proof.
  induction trees as [ | t trees IH]; intros trees1; cbn [load_lutsid].
  - intros H. inversion H. split; reflexivity.
  - unfold uicc_disk_lutsid_rebuild.
    destruct (uicc_disk_tree_file_foreach _ _ _ _) as [[r l] | ];
      [ | discriminate ].
    destruct r; try discriminate.
    destruct (load_lutsid junk fuel trees) as [[r rest1] | ];
      [ | discriminate ].
    intros H. inversion H. subst r trees1.
    destruct (IH rest1 eq_refl) as [Hb Hl].
    cbn [map buf len]. rewrite Hb, Hl. split; reflexivity.
Qed.

Lemma save_loop_images :
  forall (trees : list uicc_disk_tree_st) (ret : uicc_ret_et) (out : list Z),
    Forall (fun t => len t = Z.of_nat (length (buf t)) /\ 0 < len t) trees ->
    save_loop trees ret out =
    Some (match trees with [] => ret | _ :: _ => UICC_RET_SUCCESS end,
          out ++ concat (map buf trees)).
Proof.
  induction trees as [ | t trees IH]; intros ret out Hall;
    cbn [save_loop map concat].
  - rewrite app_nil_r. reflexivity.
  - inversion Hall as [ | t0 ts [Hlen Hpos] Hall' ]; subst.
    replace (len t =? 0) with false by (symmetry; apply Z.eqb_neq; lia).
    unfold mem_read.
    replace (len t =? 0) with false by (symmetry; apply Z.eqb_neq; lia).
    replace (0 + len t <=? Z.of_nat (length (buf t))) with true
      by (symmetry; apply Z.leb_le; lia).
    rewrite (IH UICC_RET_SUCCESS _ Hall').
    assert (Hb : buf_read (buf t) 0 (len t) = buf t).
    { unfold buf_read. change (Z.to_nat 0) with 0%nat. rewrite skipn_O.
      apply firstn_all2. lia. }
    rewrite Hb, <- app_assoc.
    destruct trees; reflexivity.
Qed.

Lemma images_transfer :
  forall (l1 l2 : list uicc_disk_tree_st),
    map buf l1 = map buf l2 -> map len l1 = map len l2 ->
    Forall (fun t => len t = Z.of_nat (length (buf t)) /\ 0 < len t) l2 ->
    Forall (fun t => len t = Z.of_nat (length (buf t)) /\ 0 < len t) l1.
Proof.
  induction l1 as [ | t1 l1 IH]; intros [ | t2 l2] Hb Hl Hall;
    try discriminate Hb; constructor.
  - cbn [map] in Hb, Hl. inversion Hb as [[Hb1 Hb2]].
    inversion Hl as [[Hl1 Hl2]]. inversion Hall as [ | ? ? [H1 H2] ]; subst.
    rewrite Hb1, Hl1. split; assumption.
  - cbn [map] in Hb, Hl. inversion Hb. inversion Hl.
    inversion Hall; subst. apply (IH l2); assumption.
Qed.

(** X8.  Saving a disk that a load has just built writes the file that
    was loaded, byte for byte; and loading that file again, once the
    disk is unloaded, builds the same disk. *)
Theorem load_then_save (junk : nat -> Z) (magic : list Z) (fuel : nat)
    (disk0 d : uicc_disk_st) (file : list Z) :
  uicc_disk_load junk magic fuel disk0 (Some file) =
    Some (UICC_RET_SUCCESS, d) ->
  uicc_disk_save magic d = Some (UICC_RET_SUCCESS, file) /\
  uicc_disk_load junk magic fuel (uicc_disk_unload d) (Some file) =
    Some (UICC_RET_SUCCESS, d).
Proof.
  intros Hload.
  assert (Hroot0 : root disk0 = []).
  { unfold uicc_disk_load in Hload.
    destruct (root disk0); [ reflexivity | discriminate Hload ]. }
  split.
  2:{ unfold uicc_disk_load in *. rewrite Hroot0 in Hload.
      cbn [uicc_disk_unload root]. exact Hload. }
  unfold uicc_disk_load in Hload. rewrite Hroot0 in Hload.
  destruct (load_read junk magic (Some file)) as [[r trees] | ] eqn:Eread;
    [ | discriminate Hload ].
  destruct r; try discriminate Hload.
  destruct trees as [ | t0 trees0]; [ discriminate Hload | ].
  destruct (load_lutsid junk fuel (t0 :: trees0)) as [[r trees1] | ] eqn:Elut;
    [ | discriminate Hload ].
  destruct r; try discriminate Hload.
  destruct (uicc_disk_lutid_rebuild junk fuel _) as [[r d1] | ] eqn:Eid;
    [ | discriminate Hload ].
  destruct r; try discriminate Hload.
  inversion Hload. subst d1. clear Hload.
  (* the forest of the disk *)
  assert (Hroot : root d = trees1).
  { unfold uicc_disk_lutid_rebuild in Eid. cbn [root] in Eid.
    destruct (lutid_rebuild_loop _ _ _ _ _ _) as [[r l] | ];
      [ | discriminate Eid ].
    inversion Eid. reflexivity. }
  destruct (load_lutsid_images junk fuel _ _ Elut) as [Hbufs Hlens].
  (* the reading phase *)
  unfold load_read in Eread.
  destruct (Z.of_nat (length file) <=? UINT32_MAX) eqn:Emax;
    [ | discriminate Eread ].
  apply Z.leb_le in Emax.
  destruct (fread file 0 UICC_DISK_MAGIC_LEN) as [m | ] eqn:Em;
    [ | discriminate Eread ].
  apply fread_some in Em. destruct Em as [Hm8 ->].
  unfold UICC_DISK_MAGIC_LEN in *.
  destruct (memcmp (buf_read file 0 8) (magic_expected magic) =? 0) eqn:Ecmp;
    [ | discriminate Eread ].
  apply Z.eqb_eq in Ecmp.
  apply memcmp_eq in Ecmp;
    [ | rewrite magic_expected_length; apply buf_read_length; lia ].
  assert (H8 : 0 <= 8 <= Z.of_nat (length file)) by lia.
  destruct (load_loop_success junk file Emax _ 8 0 [] _ H8 Eread)
    as (new & Hnew & Hcat & Hall).
  cbn [app] in Hnew. subst new.
  unfold uicc_disk_save. rewrite Hroot.
  rewrite save_loop_images
    by (apply (images_transfer trees1 (t0 :: trees0)); assumption).
  rewrite Hbufs, Hcat, <- Ecmp.
  destruct trees1 as [ | t1 trees1]; [ discriminate Hbufs | ].
  f_equal. f_equal. unfold buf_read.
  change (Z.to_nat 0) with 0%nat. rewrite skipn_O. apply firstn_skipn.
Qed.

Lemma load_then_save_witness :
  uicc_disk_save example_magic (loaded_disk flat_image) =
    Some (UICC_RET_SUCCESS, example_magic ++ flat_image) /\
  uicc_disk_load junk_zero example_magic 100
    (uicc_disk_unload (loaded_disk flat_image))
    (Some (example_magic ++ flat_image)) =
    Some (UICC_RET_SUCCESS, loaded_disk flat_image).
Proof.
  apply (load_then_save junk_zero example_magic 100 disk_zero).
  vm_compute. reflexivity.
Defined.

(** ** A walk that does not end *)

(** X9.  An EF whose size field is 0, right below the root: the cursor
    of the walk does not move past it, the same file is parsed and
    given to the callback at every iteration, and with a callback that
    does not fail the walk never returns, whatever the fuel. *)
Theorem foreach_zero_size_ef {U : Type}
    (cb : uicc_disk_tree_st -> uicc_fs_file_st -> U -> uicc_ret_et * U)
    (tree : uicc_disk_tree_st) (file_root f : uicc_fs_file_st) :
  (forall t f u, fst (cb t f u) = UICC_RET_SUCCESS) ->
  uicc_disk_tree_file_root (Some tree) = (UICC_RET_SUCCESS, file_root) ->
  let hdr_len :=
    sizeof_file_raw +
    match type (hdr_item file_root) with
    | UICC_FS_ITEM_TYPE_FILE_ADF => sizeof_adf_hdr_raw
    | _ => 0
    end in
  hdr_len < size (hdr_item file_root) ->
  uicc_fs_file_prs tree hdr_len = (UICC_RET_SUCCESS, f) ->
  is_ef (type (hdr_item f)) = true ->
  size (hdr_item f) = 0 ->
  forall (fuel : nat) (u : U),
    uicc_disk_tree_file_foreach cb fuel (Some tree) u = None.
Proof.
  intros Hcb Hroot hdr_len Hlt Hprs Hef Hsz fuel u.
  assert (Hloop : forall fuel u,
            foreach_loop cb fuel tree (size (hdr_item file_root))
              [hdr_len; 0; 0] 1 u = None).
  { clear u fuel. induction fuel as [ | fuel IH]; intros u;
      [ reflexivity | ].
    rewrite (foreach_loop_ef cb fuel tree _ hdr_len 0 0 u f Hlt Hprs Hef).
    rewrite Hcb, Hsz.
    replace (u32 (hdr_len + 0)) with hdr_len; [ apply IH | ].
    unfold hdr_len, u32, sizeof_file_raw, sizeof_adf_hdr_raw.
    destruct (type (hdr_item file_root)); reflexivity. }
  unfold uicc_disk_tree_file_foreach. rewrite Hroot.
  pose proof (Hcb tree file_root u) as Hc.
  destruct (cb tree file_root u) as [r u1]. cbn [fst] in Hc. subst r.
  assert (Hty : type (hdr_item file_root) = UICC_FS_ITEM_TYPE_FILE_MF \/
                type (hdr_item file_root) = UICC_FS_ITEM_TYPE_FILE_ADF).
  { unfold uicc_disk_tree_file_root in Hroot.
    destruct (uicc_fs_file_prs tree 0) as [r0 f0].
    destruct r0; try discriminate Hroot.
    destruct (type (hdr_item f0)) eqn:E; try discriminate Hroot;
      inversion Hroot; subst f0; rewrite E; tauto. }
  fold hdr_len.
  destruct Hty as [Hty | Hty]; rewrite Hty; apply Hloop.
Qed.

Lemma foreach_zero_size_ef_witness :
  uicc_disk_tree_file_foreach visit_cb 1000
    (Some (tree_of_image zero_ef_image)) [] = None.
Proof.
  apply (foreach_zero_size_ef visit_cb (tree_of_image zero_ef_image)
           (snd (uicc_fs_file_prs (tree_of_image zero_ef_image) 0))
           (snd (uicc_fs_file_prs (tree_of_image zero_ef_image) 30))).
  - intros t f u. reflexivity.
  - vm_compute. reflexivity.
  - vm_compute. reflexivity.
  - vm_compute. reflexivity.
  - vm_compute. reflexivity.
  - vm_compute. reflexivity.
Defined.

(** ** What a save writes *)

(** X10.  [uicc_disk_save] dumps the forest: after the magic come the
    images of the trees, in the order of the forest, and the save
    succeeds when there is at least one tree.  It stops with an error
    at the first tree whose length is 0, the file then holding the
    trees before that one; a disk without trees yields an error and a
    file that holds the magic only. *)
Theorem save_dumps_images (magic : list Z) (d : uicc_disk_st)
    (good : list uicc_disk_tree_st) :
  Forall tree_image_ok good ->
  (root d = good ->
   uicc_disk_save magic d =
   Some (match good with [] => UICC_RET_ERROR | _ :: _ => UICC_RET_SUCCESS end,
         magic_expected magic ++ concat (map buf good))) /\
  (forall bad rest,
     root d = good ++ bad :: rest -> len bad = 0 ->
     uicc_disk_save magic d =
     Some (UICC_RET_ERROR, magic_expected magic ++ concat (map buf good))).
Proof.
  intros Hgood. unfold uicc_disk_save.
  assert (Hstep : forall t, tree_image_ok t ->
            forall next ret out,
              save_loop (t :: next) ret out =
              save_loop next UICC_RET_SUCCESS (out ++ buf t)).
  { intros t [Hlen Hpos] next ret out. cbn [save_loop].
    unfold mem_read.
    replace (len t =? 0) with false by (symmetry; apply Z.eqb_neq; lia).
    replace (0 + len t <=? Z.of_nat (length (buf t))) with true
      by (symmetry; apply Z.leb_le; lia).
    replace (buf_read (buf t) 0 (len t)) with (buf t); [ reflexivity | ].
    unfold buf_read. change (Z.to_nat 0) with 0%nat. rewrite skipn_O.
    symmetry. apply firstn_all2. lia. }
  split.
  - intros Hroot. rewrite Hroot. clear Hroot.
    assert (Hgen : forall ret out,
              save_loop good ret out =
              Some (match good with
                    | [] => ret
                    | _ :: _ => UICC_RET_SUCCESS
                    end, out ++ concat (map buf good))).
    { induction Hgood as [ | t good Ht Hgood IH]; intros ret out.
      - cbn [save_loop map concat]. rewrite app_nil_r. reflexivity.
      - rewrite (Hstep t Ht), IH. cbn [map concat]. rewrite <- app_assoc.
        destruct good; reflexivity. }
    rewrite Hgen. destruct good; reflexivity.
  - intros bad rest Hroot Hbad. rewrite Hroot. clear Hroot.
    assert (Hgen : forall ret out,
              save_loop (good ++ bad :: rest) ret out =
              Some (UICC_RET_ERROR, out ++ concat (map buf good))).
    { induction Hgood as [ | t good Ht Hgood IH]; intros ret0 out0.
      - cbn [app save_loop map concat]. rewrite Hbad. cbn [Z.eqb].
        rewrite app_nil_r. reflexivity.
      - cbn [app]. rewrite (Hstep t Ht), IH. cbn [map concat].
        rewrite <- app_assoc. reflexivity. }
    apply Hgen.
Qed.

Lemma save_dumps_images_witness :
  uicc_disk_save example_magic
    {| root := [tree_of_image flat_image]; lutid := lut_zero |} =
    Some (UICC_RET_SUCCESS, example_magic ++ flat_image) /\
  uicc_disk_save example_magic
    {| root := [tree_of_image flat_image; tree_zero]; lutid := lut_zero |} =
    Some (UICC_RET_ERROR, example_magic ++ flat_image).
Proof.
  assert (Hok : Forall tree_image_ok [tree_of_image flat_image]).
  { constructor; [ | constructor ].
    unfold tree_image_ok. split; [ reflexivity | vm_compute; reflexivity ]. }
  destruct (save_dumps_images example_magic
              {| root := [tree_of_image flat_image]; lutid := lut_zero |}
              [tree_of_image flat_image] Hok) as [H1 _].
  destruct (save_dumps_images example_magic
              {| root := [tree_of_image flat_image; tree_zero];
                 lutid := lut_zero |}
              [tree_of_image flat_image] Hok) as [_ H2].
  split.
  - rewrite (H1 eq_refl). vm_compute. reflexivity.
  - rewrite (H2 tree_zero [] eq_refl eq_refl). vm_compute. reflexivity.
Defined.

(** ** Mounting *)

(** X11.  A state holds one disk at a time.  On a state without a tree
    the mount succeeds, installs the disk and keeps the VA and the
    response buffer; once the disk mounted has a tree, every further
    mount fails and leaves the state as it is. *)
Theorem mount_once (st : uicc_st) (d d' : uicc_disk_st) :
  root (disk (fs st)) = [] -> root d <> [] ->
  exists st1,
    uicc_fs_disk_mount st d = (UICC_RET_SUCCESS, st1) /\
    disk (fs st1) = d /\ va (fs st1) = va (fs st) /\ res st1 = res st /\
    uicc_fs_disk_mount st1 d' = (UICC_RET_ERROR, st1).
Proof.
  intros Hempty Hd. unfold uicc_fs_disk_mount at 1. rewrite Hempty.
  eexists. split; [ reflexivity | ].
  split; [ reflexivity | ].
  split; [ reflexivity | ].
  split; [ reflexivity | ].
  unfold uicc_fs_disk_mount. cbn [st_set_fs fs disk].
  destruct (root d) as [ | t rest]; [ exfalso; apply Hd | ]; reflexivity.
Qed.

Lemma mount_once_witness :
  exists st1,
    uicc_fs_disk_mount
      {| fs := {| disk := disk_zero; va := va_zero |};
         res := res_buf_empty |}
      (loaded_disk flat_image) = (UICC_RET_SUCCESS, st1) /\
    uicc_fs_disk_mount st1 many_disk = (UICC_RET_ERROR, st1).
Proof.
  destruct (mount_once
              {| fs := {| disk := disk_zero; va := va_zero |};
                 res := res_buf_empty |}
              (loaded_disk flat_image) many_disk)
    as (st1 & H1 & _ & _ & _ & H2).
  - reflexivity.
  - vm_compute. discriminate.
  - exists st1. split; [ exact H1 | exact H2 ].
Defined.

(** * Further properties of the virtual addressing *)

(** What a successful [va_select_file] leaves behind. *)
Lemma va_select_file_success (fs0 fs1 : uicc_fs_st) (tree : tree_ptr)
    (file : uicc_fs_file_st) :
  va_select_file fs0 tree file = (UICC_RET_SUCCESS, fs1) ->
  disk fs1 = disk fs0 /\
  cur_tree (va fs1) = tree /\
  cur_file (va fs1) = file /\
  cur_rcrd (va fs1) = {| idx := 0 |} /\
  type (hdr_item file) <> UICC_FS_ITEM_TYPE_INVALID /\
  (if is_ef (type (hdr_item file))
   then cur_ef (va fs1) = file
   else cur_ef (va fs1) = file_zero /\ cur_df (va fs1) = file).
Proof.
  unfold va_select_file.
  destruct (uicc_disk_tree_file_root (tree_deref (disk fs0) tree))
    as [r file_root].
  destruct r; try (intros H; discriminate H).
  destruct (swicc_disk_tree_file_parent (tree_deref (disk fs0) tree) file)
    as [r file_parent].
  destruct r; try (intros H; discriminate H).
  destruct (type (hdr_item file)) eqn:Ety;
    intros H; inversion H; subst; cbn;
    repeat (split; try reflexivity; try discriminate).
Qed.

Lemma select_adf_loop_success (fuel : nat) (fs0 fs1 : uicc_fs_st)
    (it : uicc_disk_tree_iter_st) (aid : list Z) (pix_len : Z) :
  select_adf_loop fuel fs0 it aid pix_len = (UICC_RET_SUCCESS, fs1) ->
  exists (k : nat) (t : uicc_disk_tree_st) (f : uicc_fs_file_st),
    (iter_tree it < k)%nat /\
    nth_error (root (disk fs0)) k = Some t /\
    uicc_disk_tree_file_root (Some t) = (UICC_RET_SUCCESS, f) /\
    type (hdr_item f) = UICC_FS_ITEM_TYPE_FILE_ADF /\
    memcmp (buf_read (aid_rid (hdr_spec f)) 0 UICC_FS_ADF_AID_RID_LEN)
           (buf_read aid 0 UICC_FS_ADF_AID_RID_LEN) = 0 /\
    memcmp (buf_read (aid_pix (hdr_spec f)) 0 pix_len)
           (buf_read aid UICC_FS_ADF_AID_RID_LEN pix_len) = 0 /\
    va_select_file fs0 (Some k) f = (UICC_RET_SUCCESS, fs1).
Proof.
  revert it. induction fuel as [ | fuel IH]; intros it;
    cbn [select_adf_loop].
  - intros H; discriminate H.
  - unfold uicc_disk_tree_iter_next.
    destruct (nth_error (root (disk fs0)) (S (iter_tree it)))
      as [t | ] eqn:Et; [ | intros H; discriminate H ].
    cbn [iter_tree tree_deref]. rewrite Et.
    destruct (uicc_disk_tree_file_root (Some t)) as [r f] eqn:Eroot.
    destruct r; try (intros H; discriminate H).
    destruct (type (hdr_item f)) eqn:Ety; try (intros H; discriminate H).
    destruct (memcmp (buf_read (aid_rid (hdr_spec f)) 0
                        UICC_FS_ADF_AID_RID_LEN) _ =? 0) eqn:Erid;
      cbn [andb].
    + destruct (memcmp (buf_read (aid_pix (hdr_spec f)) 0 pix_len) _ =? 0)
        eqn:Epix.
      * intros H. exists (S (iter_tree it)), t, f.
        apply Z.eqb_eq in Erid, Epix.
        split; [ lia | ].
        split; [ exact Et | ].
        split; [ exact Eroot | ].
        split; [ exact Ety | ].
        split; [ exact Erid | ].
        split; [ exact Epix | exact H ].
      * intros H. apply IH in H.
        destruct H as (k & t' & f' & Hk & Hrest).
        cbn [iter_tree] in Hk.
        exists k, t', f'. split; [ lia | exact Hrest ].
    + intros H. apply IH in H.
      destruct H as (k & t' & f' & Hk & Hrest).
      cbn [iter_tree] in Hk.
      exists k, t', f'. split; [ lia | exact Hrest ].
Qed.

(** X12.  Selection by AID never looks at the first tree of the forest:
    when it succeeds, the tree selected stands at a position of 1 or
    more, its root is an ADF whose RID and whose first [pix_len] bytes
    of PIX are those of the AID given, and that ADF is the current
    file, folder and application; no EF and no record is current, and
    the disk is as it was. *)
Theorem select_adf_skips_first_tree (fs0 fs1 : uicc_fs_st) (aid : list Z)
    (pix_len : Z) :
  swicc_va_select_adf fs0 aid pix_len = (UICC_RET_SUCCESS, fs1) ->
  exists (k : nat) (t : uicc_disk_tree_st) (f : uicc_fs_file_st),
    (1 <= k)%nat /\
    cur_tree (va fs1) = Some k /\
    nth_error (root (disk fs0)) k = Some t /\
    uicc_disk_tree_file_root (Some t) = (UICC_RET_SUCCESS, f) /\
    type (hdr_item f) = UICC_FS_ITEM_TYPE_FILE_ADF /\
    memcmp (buf_read (aid_rid (hdr_spec f)) 0 UICC_FS_ADF_AID_RID_LEN)
           (buf_read aid 0 UICC_FS_ADF_AID_RID_LEN) = 0 /\
    memcmp (buf_read (aid_pix (hdr_spec f)) 0 pix_len)
           (buf_read aid UICC_FS_ADF_AID_RID_LEN pix_len) = 0 /\
    cur_file (va fs1) = f /\ cur_df (va fs1) = f /\ cur_adf (va fs1) = f /\
    cur_ef (va fs1) = file_zero /\ cur_rcrd (va fs1) = {| idx := 0 |} /\
    disk fs1 = disk fs0.
Proof.
  unfold swicc_va_select_adf, uicc_disk_tree_iter.
  destruct (root (disk fs0)) as [ | t0 rest] eqn:Er;
    [ intros H; discriminate H | ].
  rewrite <- Er. intros H.
  apply select_adf_loop_success in H.
  destruct H as (k & t & f & Hk & Ht & Hroot & Hty & Hrid & Hpix & Hsel).
  cbn [iter_tree] in Hk.
  exists k, t, f.
  split; [ lia | ].
  assert (Hva : cur_tree (va fs1) = Some k /\ cur_file (va fs1) = f /\
                cur_df (va fs1) = f /\ cur_adf (va fs1) = f /\
                cur_ef (va fs1) = file_zero /\
                cur_rcrd (va fs1) = {| idx := 0 |} /\
                disk fs1 = disk fs0).
  { revert Hsel. unfold va_select_file.
    destruct (uicc_disk_tree_file_root (tree_deref (disk fs0) (Some k)))
      as [r file_root].
    destruct r; try (intros H; discriminate H).
    destruct (swicc_disk_tree_file_parent
                (tree_deref (disk fs0) (Some k)) f) as [r file_parent].
    destruct r; try (intros H; discriminate H).
    rewrite Hty. intros H; inversion H; subst; cbn.
    repeat (split; try reflexivity). }
  destruct Hva as (H1 & H2 & H3 & H4 & H5 & H6 & H7).
  split; [ exact H1 | ].
  split; [ exact Ht | ].
  split; [ exact Hroot | ].
  split; [ exact Hty | ].
  split; [ exact Hrid | ].
  split; [ exact Hpix | ].
  split; [ exact H2 | ].
  split; [ exact H3 | ].
  split; [ exact H4 | ].
  split; [ exact H5 | ].
  split; [ exact H6 | exact H7 ].
Qed.

Lemma select_adf_skips_first_tree_witness :
  exists (k : nat) (t : uicc_disk_tree_st) (f : uicc_fs_file_st),
    (1 <= k)%nat /\
    cur_tree (va (snd (swicc_va_select_adf two_tree_fs
                         [0xA0; 0x00; 0x00; 0x00; 0x87] 0))) = Some k /\
    nth_error (root (disk two_tree_fs)) k = Some t /\
    uicc_disk_tree_file_root (Some t) = (UICC_RET_SUCCESS, f) /\
    type (hdr_item f) = UICC_FS_ITEM_TYPE_FILE_ADF.
Proof.
  destruct (select_adf_skips_first_tree two_tree_fs
              (snd (swicc_va_select_adf two_tree_fs
                      [0xA0; 0x00; 0x00; 0x00; 0x87] 0))
              [0xA0; 0x00; 0x00; 0x00; 0x87] 0)
    as (k & t & f & H1 & H2 & H3 & H4 & H5 & _).
  - vm_compute. reflexivity.
  - exists k, t, f. repeat (split; [ assumption | ]). assumption.
Defined.

(** X13.  [swicc_va_reset] forgets every selection made before it: its
    result depends on the disk alone.  It never changes the disk, and a
    second reset gives what the first one gave. *)
Theorem va_reset_idempotent (fs0 : uicc_fs_st) (v : uicc_fs_va_st) :
  swicc_va_reset (fs_set_va fs0 v) = swicc_va_reset fs0 /\
  disk (snd (swicc_va_reset fs0)) = disk fs0 /\
  swicc_va_reset (snd (swicc_va_reset fs0)) = swicc_va_reset fs0.
Proof.
  assert (Hforget : forall f w,
             swicc_va_reset (fs_set_va f w) = swicc_va_reset f)
    by (intros f w; reflexivity).
  assert (Hdisk : forall f, disk (snd (swicc_va_reset f)) = disk f).
  { intros f. unfold swicc_va_reset.
    destruct (uicc_disk_tree_iter (disk (fs_set_va f va_zero))) as [r it].
    destruct r; try reflexivity.
    unfold swicc_va_select_file_id.
    destruct (uicc_disk_lutid_lookup _ _) as [[r t] file].
    destruct r; try reflexivity.
    rewrite va_select_file_disk. reflexivity. }
  split; [ apply Hforget | ].
  split; [ apply Hdisk | ].
  pose proof (Hdisk fs0) as Hd.
  destruct (snd (swicc_va_reset fs0)) as [d1 v1].
  cbn [disk] in Hd. subst d1.
  destruct fs0 as [d0 v0]. cbn [disk].
  exact (Hforget {| disk := d0; va := v0 |} v1).
Qed.

(** * Further properties of the APDU handlers *)

(** ** The dispatcher *)

(** The selection step of SELECT leaves the file system as it is when
    it does not succeed. *)
Lemma select_perform_failure (fs0 : uicc_fs_st) (cmd : uicc_apdu_cmd_st) :
  fst (select_perform fs0 cmd) <> UICC_RET_SUCCESS ->
  snd (select_perform fs0 cmd) = fs0.
Proof.
  unfold select_perform, swicc_va_select_file_dfname,
    swicc_va_select_file_path.
  destruct (select_meth cmd); try reflexivity.
  - destruct (negb (cmd_data_len cmd =? 2)).
    + destruct (_ || _); [ reflexivity | apply select_adf_failure ].
    + apply select_file_id_failure.
  - destruct (_ || _); reflexivity.
  - destruct (_ || _); reflexivity.
  - destruct (_ || _); reflexivity.
Qed.

(** X14.  What the dispatcher answers without going to a file: a
    command whose class is invalid or RFU gets "class not supported";
    a command of the proprietary class, when no handler is registered,
    and a command of the interindustry class whose INS is none of A4,
    B0, B2 and C0 (B1 and B3 included) get "instruction not supported".
    In each case the call succeeds and the state is untouched. *)
Theorem demux_rejects
    (bertlv_respond :
       uicc_st -> uicc_fs_file_st -> bool -> data_req_e ->
       uicc_st * uicc_apdu_res_st)
    (apduh_pro : option uicc_apduh_ft) (st : uicc_st)
    (cmd : uicc_apdu_cmd_st) (pc : Z) :
  uicc_apduh_demux bertlv_respond apduh_pro st
    UICC_APDU_CLA_TYPE_INVALID cmd pc =
    Some (UICC_RET_SUCCESS, st, mk_res UICC_APDU_SW1_CHER_CLA 0) /\
  uicc_apduh_demux bertlv_respond apduh_pro st
    UICC_APDU_CLA_TYPE_RFU cmd pc =
    Some (UICC_RET_SUCCESS, st, mk_res UICC_APDU_SW1_CHER_CLA 0) /\
  uicc_apduh_demux bertlv_respond None st
    UICC_APDU_CLA_TYPE_PROPRIETARY cmd pc =
    Some (UICC_RET_SUCCESS, st, mk_res UICC_APDU_SW1_CHER_INS 0) /\
  (ins cmd <> 0xA4 -> ins cmd <> 0xB0 -> ins cmd <> 0xB2 ->
   ins cmd <> 0xC0 ->
   uicc_apduh_demux bertlv_respond apduh_pro st
     UICC_APDU_CLA_TYPE_INTERINDUSTRY cmd pc =
     Some (UICC_RET_SUCCESS, st, mk_res UICC_APDU_SW1_CHER_INS 0)).
Proof.
  split_all; try reflexivity.
  intros HA4 HB0 HB2 HC0.
  unfold uicc_apduh_demux, uicc_apduh.
  replace (ins cmd =? 0xA4) with false by (symmetry; apply Z.eqb_neq; lia).
  replace (ins cmd =? 0xB0) with false by (symmetry; apply Z.eqb_neq; lia).
  replace (ins cmd =? 0xB2) with false by (symmetry; apply Z.eqb_neq; lia).
  replace (ins cmd =? 0xC0) with false by (symmetry; apply Z.eqb_neq; lia).
  cbn [orb].
  destruct (ins cmd =? 0xB1) eqn:EB1; [ | destruct (ins cmd =? 0xB3) eqn:EB3 ].
  - unfold apduh_bin_read.
    replace (ins cmd =? 0xB0) with false by (symmetry; apply Z.eqb_neq; lia).
    reflexivity.
  - cbn [orb]. unfold apduh_rcrd_read.
    replace (ins cmd =? 0xB2) with false by (symmetry; apply Z.eqb_neq; lia).
    reflexivity.
  - reflexivity.
Qed.

Lemma demux_rejects_witness :
  uicc_apduh_demux no_bertlv None flat_selected
    UICC_APDU_CLA_TYPE_INTERINDUSTRY (cmd_case2 0xB1 0 0 5) 1 =
    Some (UICC_RET_SUCCESS, flat_selected, mk_res UICC_APDU_SW1_CHER_INS 0).
Proof.
  apply (proj2 (proj2 (proj2 (demux_rejects no_bertlv None flat_selected
                                (cmd_case2 0xB1 0 0 5) 1))));
    cbn; discriminate.
Defined.

(** ** Handlers never fail *)

Ltac break_all :=
  repeat match goal with
         | |- context [match ?x with _ => _ end] => destruct x
         | |- context [if ?x then _ else _] => destruct x
         end.

Lemma apduh_bin_read_ret (st st' : uicc_st) (cmd : uicc_apdu_cmd_st)
    (pc : Z) (r : uicc_ret_et) (res : uicc_apdu_res_st) :
  apduh_bin_read st cmd pc = Some (r, st', res) -> r = UICC_RET_SUCCESS.
Proof.
  unfold apduh_bin_read.
  destruct (negb (ins cmd =? 176)); [ intros H; inversion H; reflexivity | ].
  destruct (pc =? 0); [ intros H; inversion H; reflexivity | ].
  destruct (negb (cmd_data_len cmd =? 0));
    [ intros H; inversion H; reflexivity | ].
  cbv zeta.
  match goal with
  | |- match ?t with _ => _ end = _ -> _ => destruct t as [e | [[o s] f]]
  end; [ intros H; inversion H; reflexivity | ].
  destruct (type (hdr_item f)); try (intros H; inversion H; reflexivity).
  destruct (o >=? data_size f); [ intros H; inversion H; reflexivity | ].
  destruct (mem_read _ _ _); [ | discriminate ].
  destruct (negb (Z.land (p1 cmd) 128 =? 0)).
  - destruct (swicc_va_select_file_sid (fs st) s) as [rs fs1].
    destruct rs; intros H; inversion H; reflexivity.
  - intros H; inversion H; reflexivity.
Qed.

Lemma apduh_rcrd_read_ret (st st' : uicc_st) (cmd : uicc_apdu_cmd_st)
    (pc : Z) (r : uicc_ret_et) (res : uicc_apdu_res_st) :
  apduh_rcrd_read st cmd pc = Some (r, st', res) -> r = UICC_RET_SUCCESS.
Proof.
  unfold apduh_rcrd_read. cbv zeta.
  destruct (negb (ins cmd =? 178)); [ intros H; inversion H; reflexivity | ].
  destruct (pc =? 0); [ intros H; inversion H; reflexivity | ].
  destruct (negb (cmd_data_len cmd =? 0));
    [ intros H; inversion H; reflexivity | ].
  destruct (_ || _); [ intros H; inversion H; reflexivity | ].
  destruct (_ || _); [ intros H; inversion H; reflexivity | ].
  match goal with
  | |- (let '(a, b) := ?t in _) = _ -> _ => destruct t as [ret_ef ef_cur]
  end.
  destruct ret_ef; try (intros H; inversion H; reflexivity).
  destruct (uicc_disk_file_rcrd _ ef_cur _) as [[[rr rb] rl] | ];
    [ | discriminate ].
  destruct rr; try (intros H; inversion H; reflexivity).
  destruct (negb (p3 cmd =? rl)); [ intros H; inversion H; reflexivity | ].
  match goal with
  | |- (let '(a, b) := ?t in _) = _ -> _ => destruct t as [rsel fs1]
  end.
  destruct rsel; try (intros H; inversion H; reflexivity).
  destruct (swicc_va_select_record_idx fs1 _) as [[r2 fs2] | ];
    [ | discriminate ].
  destruct r2; try (intros H; inversion H; reflexivity).
  destruct (mem_read rb 0 rl); [ | discriminate ].
  intros H; inversion H; reflexivity.
Qed.

Lemma apduh_res_get_ret (st : uicc_st) (cmd : uicc_apdu_cmd_st) (pc : Z) :
  fst (fst (apduh_res_get st cmd pc)) = UICC_RET_SUCCESS.
Proof. unfold apduh_res_get. cbv zeta. break_all; reflexivity. Qed.

Lemma apduh_select_ret
    (bertlv_respond :
       uicc_st -> uicc_fs_file_st -> bool -> data_req_e ->
       uicc_st * uicc_apdu_res_st)
    (st : uicc_st) (cmd : uicc_apdu_cmd_st) (pc : Z) :
  fst (fst (apduh_select bertlv_respond st cmd pc)) = UICC_RET_SUCCESS.
Proof.
  unfold apduh_select. cbv zeta.
  destruct (negb _); [ reflexivity | ].
  destruct (_ && _); [ reflexivity | ].
  destruct (_ && _); [ reflexivity | ].
  destruct (_ && _); [ reflexivity | ].
  destruct (_ || _); [ reflexivity | ].
  destruct (select_perform (fs st) cmd) as [rs fs1].
  destruct rs; try reflexivity.
  destruct (type (hdr_item (cur_ef (va fs1))));
    destruct (type (hdr_item (cur_df (va fs1)))); try reflexivity;
    destruct (select_data_req cmd); try reflexivity;
    destruct (bertlv_respond _ _ _ _); reflexivity.
Qed.

(** X15.  The handlers of the interindustry class never report a
    failure to the dispatcher: whatever the state and the command, when
    the dispatcher returns for a command that is not of the proprietary
    class, its return code is success; what went wrong is told by the
    status bytes only. *)
Theorem demux_always_succeeds
    (bertlv_respond :
       uicc_st -> uicc_fs_file_st -> bool -> data_req_e ->
       uicc_st * uicc_apdu_res_st)
    (apduh_pro : option uicc_apduh_ft) (st : uicc_st)
    (cla_type : uicc_apdu_cla_type_et) (cmd : uicc_apdu_cmd_st) (pc : Z) :
  cla_type <> UICC_APDU_CLA_TYPE_PROPRIETARY ->
  match uicc_apduh_demux bertlv_respond apduh_pro st cla_type cmd pc with
  | Some (r, _, _) => r = UICC_RET_SUCCESS
  | None => True
  end.
Proof.
  intros Hcla. unfold uicc_apduh_demux.
  destruct cla_type; try reflexivity; [ | contradiction ].
  unfold uicc_apduh.
  destruct (ins cmd =? 164).
  - pose proof (apduh_select_ret bertlv_respond st cmd pc) as Hr.
    destruct (apduh_select bertlv_respond st cmd pc) as [[r0 st0] res0].
    cbn [fst] in Hr. subst r0. reflexivity.
  - destruct ((ins cmd =? 176) || (ins cmd =? 177)).
    + destruct (apduh_bin_read st cmd pc) as [[[r0 st0] res0] | ] eqn:E;
        [ | exact I ].
      apply apduh_bin_read_ret in E. subst r0. reflexivity.
    + destruct ((ins cmd =? 178) || (ins cmd =? 179)).
      * destruct (apduh_rcrd_read st cmd pc) as [[[r0 st0] res0] | ] eqn:E;
          [ | exact I ].
        apply apduh_rcrd_read_ret in E. subst r0. reflexivity.
      * destruct (ins cmd =? 192).
        -- pose proof (apduh_res_get_ret st cmd pc) as Hr.
           destruct (apduh_res_get st cmd pc) as [[r0 st0] res0].
           cbn [fst] in Hr. subst r0. reflexivity.
        -- reflexivity.
Qed.

Lemma demux_always_succeeds_witness :
  match uicc_apduh_demux no_bertlv None lf_selected
          UICC_APDU_CLA_TYPE_INTERINDUSTRY (cmd_case2 0xB2 9 4 4) 1 with
  | Some (r, _, _) => r = UICC_RET_SUCCESS
  | None => True
  end.
Proof.
  apply (demux_always_succeeds no_bertlv None lf_selected
           UICC_APDU_CLA_TYPE_INTERINDUSTRY (cmd_case2 0xB2 9 4 4) 1).
  discriminate.
Defined.

(** ** The first entry of a command *)

Lemma select_perform_no_data (fs0 : uicc_fs_st) (cmd : uicc_apdu_cmd_st) :
  cmd_data_len cmd = 0 ->
  select_perform fs0 cmd = (UICC_RET_ERROR, fs0).
Proof.
  intros Hlen. unfold select_perform. rewrite Hlen.
  destruct (select_meth cmd); reflexivity.
Qed.

(** X16.  The first entry of a command (procedure count 0) of a class
    other than the proprietary one never touches the state and never
    returns data.  READ BINARY, READ RECORD and GET RESPONSE answer the
    ACK-all procedure byte with a length of 0.  SELECT answers 6A86
    when [P2] has a bit set in its upper half; otherwise 6F00 when
    command data is present, and the ACK-all procedure byte asking for
    [P3] bytes when there is no command data and [P3] is not 0. *)
Theorem demux_first_entry
    (bertlv_respond :
       uicc_st -> uicc_fs_file_st -> bool -> data_req_e ->
       uicc_st * uicc_apdu_res_st)
    (apduh_pro : option uicc_apduh_ft) (st : uicc_st)
    (cla_type : uicc_apdu_cla_type_et) (cmd : uicc_apdu_cmd_st) :
  cla_type <> UICC_APDU_CLA_TYPE_PROPRIETARY ->
  exists res,
    uicc_apduh_demux bertlv_respond apduh_pro st cla_type cmd 0 =
      Some (UICC_RET_SUCCESS, st, res) /\
    resp_data_b res = [] /\
    (cla_type = UICC_APDU_CLA_TYPE_INTERINDUSTRY ->
     ins cmd = 0xB0 \/ ins cmd = 0xB2 \/ ins cmd = 0xC0 ->
     res = mk_res UICC_APDU_SW1_PROC_ACK_ALL 0) /\
    (cla_type = UICC_APDU_CLA_TYPE_INTERINDUSTRY ->
     ins cmd = 0xA4 -> Z.land (p2 cmd) 0xF0 = 0 ->
     cmd_data_len cmd = 0 -> 0 < p3 cmd ->
     res = {| sw1 := UICC_APDU_SW1_PROC_ACK_ALL; sw2 := 0;
              resp_data_len := p3 cmd; resp_data_b := [] |}) /\
    (cla_type = UICC_APDU_CLA_TYPE_INTERINDUSTRY ->
     ins cmd = 0xA4 -> Z.land (p2 cmd) 0xF0 <> 0 ->
     res = mk_res UICC_APDU_SW1_CHER_P1P2_INFO 0x86) /\
    (cla_type = UICC_APDU_CLA_TYPE_INTERINDUSTRY ->
     ins cmd = 0xA4 -> Z.land (p2 cmd) 0xF0 = 0 ->
     cmd_data_len cmd <> 0 ->
     res = mk_res UICC_APDU_SW1_CHER_UNK 0).
Proof.
  intros Hcla.
  assert (Hins : forall v, (ins cmd =? v) = false -> ins cmd <> v)
    by (intros v; apply Z.eqb_neq).
  destruct cla_type; try contradiction.
  - eexists. split; [ reflexivity | ].
    split; [ reflexivity | ]. split_all; intros H; discriminate H.
  - eexists. split; [ reflexivity | ].
    split; [ reflexivity | ]. split_all; intros H; discriminate H.
  - unfold uicc_apduh_demux, uicc_apduh.
    destruct (ins cmd =? 164) eqn:EA4.
    + apply Z.eqb_eq in EA4.
      unfold apduh_select. cbv zeta.
      change (0 =? 0) with true. change (0 >=? 1) with false.
      cbn [andb]. rewrite andb_false_r.
      destruct (Z.land (p2 cmd) 240 =? 0) eqn:EP2; cbn [negb].
      2:{ apply Z.eqb_neq in EP2.
          eexists. split; [ reflexivity | ]. split; [ reflexivity | ].
          split_all; intros; first [ reflexivity | lia ]. }
      apply Z.eqb_eq in EP2.
      destruct (cmd_data_len cmd =? 0) eqn:ELen; cbn [negb].
      2:{ apply Z.eqb_neq in ELen.
          eexists. split; [ reflexivity | ]. split; [ reflexivity | ].
          split_all; intros; first [ reflexivity | lia ]. }
      apply Z.eqb_eq in ELen.
      destruct (p3 cmd >? 0) eqn:EP3.
      { eexists. split; [ reflexivity | ]. split; [ reflexivity | ].
        split_all; intros; first [ reflexivity | lia ]. }
      rewrite Z.gtb_ltb in EP3. apply Z.ltb_ge in EP3.
      destruct (_ || _).
      { eexists. split; [ reflexivity | ]. split; [ reflexivity | ].
        split_all; intros; first [ reflexivity | lia ]. }
      rewrite (select_perform_no_data (fs st) cmd ELen).
      rewrite st_set_fs_same.
      eexists. split; [ reflexivity | ]. split; [ reflexivity | ].
      split_all; intros; first [ reflexivity | lia ].
    + apply Hins in EA4.
      destruct ((ins cmd =? 176) || (ins cmd =? 177)) eqn:EB0.
      { unfold apduh_bin_read. change (0 =? 0) with true.
        apply orb_true_iff in EB0.
        destruct (ins cmd =? 176) eqn:E; cbn [negb].
        - eexists. split; [ reflexivity | ]. split; [ reflexivity | ].
          split_all; intros; first [ reflexivity | lia ].
        - apply Hins in E.
          destruct EB0 as [H | H]; [ discriminate H | ].
          apply Z.eqb_eq in H.
          eexists. split; [ reflexivity | ]. split; [ reflexivity | ].
          split_all; intros; first [ reflexivity | lia ]. }
      apply orb_false_iff in EB0. destruct EB0 as [H0 H1].
      apply Hins in H0. apply Hins in H1.
      destruct ((ins cmd =? 178) || (ins cmd =? 179)) eqn:EB2.
      { unfold apduh_rcrd_read. cbv zeta. change (0 =? 0) with true.
        apply orb_true_iff in EB2.
        destruct (ins cmd =? 178) eqn:E; cbn [negb].
        - eexists. split; [ reflexivity | ]. split; [ reflexivity | ].
          split_all; intros; first [ reflexivity | lia ].
        - apply Hins in E.
          destruct EB2 as [H | H]; [ discriminate H | ].
          apply Z.eqb_eq in H.
          eexists. split; [ reflexivity | ]. split; [ reflexivity | ].
          split_all; intros; first [ reflexivity | lia ]. }
      apply orb_false_iff in EB2. destruct EB2 as [H2 H3].
      apply Hins in H2. apply Hins in H3.
      destruct (ins cmd =? 192) eqn:EC0.
      { unfold apduh_res_get. change (0 =? 0) with true.
        eexists. split; [ reflexivity | ]. split; [ reflexivity | ].
        split_all; intros; first [ reflexivity | lia ]. }
      apply Hins in EC0.
      eexists. split; [ reflexivity | ]. split; [ reflexivity | ].
      split_all; intros; first [ reflexivity | lia ].
Qed.

Lemma demux_first_entry_witness :
  uicc_apduh_demux no_bertlv None flat_selected
    UICC_APDU_CLA_TYPE_INTERINDUSTRY (cmd_select 0 0 2 []) 0 =
    Some (UICC_RET_SUCCESS, flat_selected,
          {| sw1 := UICC_APDU_SW1_PROC_ACK_ALL; sw2 := 0;
             resp_data_len := 2; resp_data_b := [] |}) /\
  uicc_apduh_demux no_bertlv None flat_selected
    UICC_APDU_CLA_TYPE_INTERINDUSTRY (cmd_select 0 4 3 [1; 2; 3]) 0 =
    Some (UICC_RET_SUCCESS, flat_selected,
          mk_res UICC_APDU_SW1_CHER_UNK 0).
Proof.
  split.
  - destruct (demux_first_entry no_bertlv None flat_selected
                UICC_APDU_CLA_TYPE_INTERINDUSTRY (cmd_select 0 0 2 []))
      as (rsp & H & _ & _ & H2 & _).
    + discriminate.
    + rewrite H.
      rewrite (H2 eq_refl eq_refl eq_refl eq_refl ltac:(cbn; lia)).
      reflexivity.
  - destruct (demux_first_entry no_bertlv None flat_selected
                UICC_APDU_CLA_TYPE_INTERINDUSTRY
                (cmd_select 0 4 3 [1; 2; 3]))
      as (rsp & H & _ & _ & _ & _ & H4).
    + discriminate.
    + rewrite H.
      rewrite (H4 eq_refl eq_refl eq_refl ltac:(cbn; discriminate)).
      reflexivity.
Defined.

(** ** The cursor of GET RESPONSE *)

(** X17.  GET RESPONSE and the response buffer: the bytes and the
    length of the buffer and the file system are never changed; when
    the cursor is inside the buffer before the command it is inside it
    afterwards, and it has moved forward by exactly the number of bytes
    the response announces. *)
Theorem res_get_cursor (st : uicc_st) (cmd : uicc_apdu_cmd_st) (pc : Z) :
  0 <= res_offset (res st) <= res_len (res st) ->
  res_len (res st) <= 65535 ->
  0 <= p3 cmd ->
  let st' := snd (fst (apduh_res_get st cmd pc)) in
  let r := snd (apduh_res_get st cmd pc) in
  fs st' = fs st /\
  res_b (res st') = res_b (res st) /\
  res_len (res st') = res_len (res st) /\
  res_offset (res st') = res_offset (res st) + resp_data_len r /\
  res_offset (res st') <= res_len (res st') /\
  0 <= resp_data_len r <= p3 cmd.
Proof.
  intros Hoff Hlen Hp3. cbv zeta. unfold apduh_res_get.
  destruct (pc =? 0);
    [ cbn [fst snd fs res res_b res_len res_offset mk_res resp_data_len];
      split_all; try reflexivity; lia | ].
  destruct (negb (cmd_data_len cmd =? 0));
    [ cbn [fst snd fs res res_b res_len res_offset mk_res resp_data_len];
      split_all; try reflexivity; lia | ].
  destruct (_ || _);
    [ cbn [fst snd fs res res_b res_len res_offset mk_res resp_data_len];
      split_all; try reflexivity; lia | ].
  destruct (p3 cmd =? 0);
    [ cbn [fst snd fs res res_b res_len res_offset mk_res resp_data_len];
      split_all; try reflexivity; lia | ].
  cbv zeta.
  replace (u16 (res_len (res st) - res_offset (res st)))
    with (res_len (res st) - res_offset (res st))
    by (unfold u16; rewrite Z.mod_small; lia).
  destruct (_ <? p3 cmd) eqn:E1;
    [ cbn [fst snd fs res res_b res_len res_offset mk_res resp_data_len];
      split_all; try reflexivity; lia | ].
  apply Z.ltb_ge in E1.
  destruct (_ =? p3 cmd) eqn:E2.
  - apply Z.eqb_eq in E2.
    cbn [fst snd fs res res_b res_len res_offset st_set_res resp_data_len].
    split_all; try reflexivity; lia.
  - apply Z.eqb_neq in E2.
    destruct (_ >? UINT8_MAX);
      [ cbn [fst snd fs res res_b res_len res_offset mk_res resp_data_len];
        split_all; try reflexivity; lia | ].
    cbn [fst snd fs res res_b res_len res_offset st_set_res resp_data_len].
    replace (u16 (res_offset (res st) + p3 cmd))
      with (res_offset (res st) + p3 cmd)
      by (unfold u16; rewrite Z.mod_small; lia).
    split_all; try reflexivity; lia.
Qed.

Lemma res_get_cursor_witness :
  let st' := snd (fst (apduh_res_get stash_state (cmd_case2 0xC0 0 0 2) 1)) in
  let r := snd (apduh_res_get stash_state (cmd_case2 0xC0 0 0 2) 1) in
  fs st' = fs stash_state /\
  res_b (res st') = res_b (res stash_state) /\
  res_len (res st') = res_len (res stash_state) /\
  res_offset (res st') = res_offset (res stash_state) + resp_data_len r /\
  res_offset (res st') <= res_len (res st') /\
  0 <= resp_data_len r <= p3 (cmd_case2 0xC0 0 0 2).
Proof.
  apply (res_get_cursor stash_state (cmd_case2 0xC0 0 0 2) 1).
  - vm_compute. split; intros H; discriminate H.
  - vm_compute. intros H; discriminate H.
  - vm_compute. intros H; discriminate H.
Defined.

(** ** READ BINARY *)

Lemma mem_read_length (d : list Z) (off n : Z) (bytes : list Z) :
  0 <= off -> 0 <= n ->
  mem_read d off n = Some bytes -> Z.of_nat (length bytes) = n.
Proof.
  intros Hoff Hn. unfold mem_read.
  destruct (n =? 0) eqn:E0.
  - apply Z.eqb_eq in E0. intros H. inversion H. cbn. lia.
  - destruct (off + n <=? Z.of_nat (length d)) eqn:E; [ | discriminate ].
    apply Z.leb_le in E. intros H. inversion H.
    rewrite buf_read_length by lia. lia.
Qed.

(** X18.  READ BINARY changes the state in one case only: the file was
    designated by a short identifier in [P1] and the read succeeded
    (SW 9000 or 6282), and the change is then the selection of that
    file by its short identifier.  It never returns more than [P3]
    bytes, and the length it announces is the number of bytes it
    returns. *)
Theorem bin_read_frame (st st' : uicc_st) (cmd : uicc_apdu_cmd_st)
    (pc : Z) (r : uicc_ret_et) (rsp : uicc_apdu_res_st) :
  0 <= p1 cmd -> 0 <= p2 cmd -> 0 <= p3 cmd ->
  apduh_bin_read st cmd pc = Some (r, st', rsp) ->
  (st' = st \/
   (Z.land (p1 cmd) 0x80 <> 0 /\
    (sw1 rsp = UICC_APDU_SW1_NORM_NONE \/
     sw1 rsp = UICC_APDU_SW1_WARN_NVM_CHGN) /\
    swicc_va_select_file_sid (fs st) (Z.land (p1 cmd) 0x1F) =
      (UICC_RET_SUCCESS, fs st') /\
    res st' = res st)) /\
  0 <= resp_data_len rsp <= p3 cmd /\
  (resp_data_len rsp <> 0 ->
   Z.of_nat (length (resp_data_b rsp)) = resp_data_len rsp).
Proof.
  intros Hp1 Hp2 Hp3. unfold apduh_bin_read.
  assert (Hmk : forall s s2,
            0 <= resp_data_len (mk_res s s2) <= p3 cmd /\
            (resp_data_len (mk_res s s2) <> 0 ->
             Z.of_nat (length (resp_data_b (mk_res s s2)))
             = resp_data_len (mk_res s s2)))
    by (intros s s2; cbn [mk_res resp_data_len resp_data_b]; split;
        [ lia | intros H; exfalso; apply H; reflexivity ]).
  destruct (negb (ins cmd =? 176));
    [ intros H; inversion H; split; [ left; reflexivity | apply Hmk ] | ].
  destruct (pc =? 0);
    [ intros H; inversion H; split; [ left; reflexivity | apply Hmk ] | ].
  destruct (negb (cmd_data_len cmd =? 0));
    [ intros H; inversion H; split; [ left; reflexivity | apply Hmk ] | ].
  cbv zeta.
  destruct (negb (Z.land (p1 cmd) 128 =? 0)) eqn:Esid.
  - apply negb_true_iff, Z.eqb_neq in Esid.
    destruct (negb (Z.land (p1 cmd) 96 =? 0));
      [ intros H; inversion H; split; [ left; reflexivity | apply Hmk ] | ].
    destruct (uicc_disk_lutsid_lookup _ _) as [rl f].
    destruct rl;
      try (intros H; inversion H; split; [ left; reflexivity | apply Hmk ]).
    destruct (type (hdr_item f));
      try (intros H; inversion H; split; [ left; reflexivity | apply Hmk ]).
    destruct (p2 cmd >=? data_size f);
      [ intros H; inversion H; split; [ left; reflexivity | apply Hmk ] | ].
    set (len_read := if p3 cmd >? u8 (data_size f - p2 cmd)
                     then u8 (data_size f - p2 cmd) else p3 cmd).
    assert (Hlr : 0 <= len_read <= p3 cmd).
    { unfold len_read.
      pose proof (Z.mod_pos_bound (data_size f - p2 cmd) 256 ltac:(lia)).
      unfold u8. destruct (p3 cmd >? _) eqn:E; [ | lia ].
      apply Z.gtb_lt in E. unfold u8 in E. lia. }
    destruct (mem_read _ (p2 cmd) len_read) as [bytes | ] eqn:Em;
      [ | discriminate ].
    apply mem_read_length in Em; [ | lia | lia ].
    destruct (swicc_va_select_file_sid (fs st) (Z.land (p1 cmd) 31))
      as [rs fs1] eqn:Esel.
    destruct rs;
      try (pose proof (select_file_sid_failure (fs st)
                         (Z.land (p1 cmd) 31)) as Hf;
           rewrite Esel in Hf; cbn [fst snd] in Hf;
           rewrite Hf by discriminate;
           intros H; inversion H; rewrite st_set_fs_same;
           cbn [resp_data_len resp_data_b];
           split; [ left; reflexivity | ];
           split; [ lia | intros Hn; exfalso; apply Hn; reflexivity ]).
    intros H; inversion H. split.
    + right. split; [ exact Esid | ].
      split; [ destruct (len_read <? p3 cmd); cbn [sw1]; tauto | ].
      split; reflexivity.
    + destruct (len_read <? p3 cmd); cbn [resp_data_len resp_data_b];
        (split; [ lia | intros _; exact Em ]).
  - set (offset := u16 (Z.lor (Z.shiftl (Z.land 127 (p1 cmd)) 8) (p2 cmd))).
    assert (Hoff : 0 <= offset)
      by (unfold offset, u16; apply Z.mod_pos_bound; lia).
    destruct (type (hdr_item (cur_ef (va (fs st))))) eqn:Ety;
      cbv beta iota; rewrite ?Ety;
      try (intros H; inversion H; split; [ left; reflexivity | apply Hmk ]).
    destruct (offset >=? data_size (cur_ef (va (fs st))));
      [ intros H; inversion H; split; [ left; reflexivity | apply Hmk ] | ].
    set (len_read :=
           if p3 cmd >? u8 (data_size (cur_ef (va (fs st))) - offset)
           then u8 (data_size (cur_ef (va (fs st))) - offset) else p3 cmd).
    assert (Hlr : 0 <= len_read <= p3 cmd).
    { unfold len_read.
      pose proof (Z.mod_pos_bound
                    (data_size (cur_ef (va (fs st))) - offset) 256
                    ltac:(lia)).
      unfold u8. destruct (p3 cmd >? _) eqn:E; [ | lia ].
      apply Z.gtb_lt in E. unfold u8 in E. lia. }
    destruct (mem_read _ offset len_read) as [bytes | ] eqn:Em;
      [ | discriminate ].
    apply mem_read_length in Em; [ | lia | lia ].
    intros H; inversion H. split; [ left; reflexivity | ].
    destruct (len_read <? p3 cmd); cbn [resp_data_len resp_data_b];
      (split; [ lia | intros _; exact Em ]).
Qed.

Lemma bin_read_frame_witness :
  apduh_bin_read long_ef_state (cmd_case2 0xB0 0 0 100) 1 =
    Some (UICC_RET_SUCCESS, long_ef_state,
          {| sw1 := UICC_APDU_SW1_WARN_NVM_CHGN; sw2 := 0x82;
             resp_data_len := 44; resp_data_b := repeat 0xAB 44 |}) /\
  0 <= 44 <= p3 (cmd_case2 0xB0 0 0 100) /\
  Z.of_nat (length (repeat 0xAB 44)) = 44.
Proof.
  assert (E : apduh_bin_read long_ef_state (cmd_case2 0xB0 0 0 100) 1 =
              Some (UICC_RET_SUCCESS, long_ef_state,
                    {| sw1 := UICC_APDU_SW1_WARN_NVM_CHGN; sw2 := 0x82;
                       resp_data_len := 44;
                       resp_data_b := repeat 0xAB 44 |}))
    by (vm_compute; reflexivity).
  split; [ exact E | ].
  destruct (bin_read_frame long_ef_state long_ef_state
              (cmd_case2 0xB0 0 0 100) 1 UICC_RET_SUCCESS _
              ltac:(cbn; lia) ltac:(cbn; lia) ltac:(cbn; lia) E)
    as [_ [Hlen Hcnt]].
  split; [ exact Hlen | ].
  apply Hcnt. cbn [resp_data_len]. lia.
Defined.

(** ** SELECT *)

Lemma select_meth_p1 (cmd : uicc_apdu_cmd_st) :
  p1 cmd <> 0 -> select_meth cmd <> METH_MF_DF_EF.
Proof.
  intros Hp1. unfold select_meth. cbv zeta.
  replace (p1 cmd =? 0) with false by (symmetry; apply Z.eqb_neq; exact Hp1).
  repeat break_match; discriminate.
Qed.

Lemma select_perform_p1 (fs0 : uicc_fs_st) (cmd : uicc_apdu_cmd_st) :
  p1 cmd <> 0 ->
  select_perform fs0 cmd = (UICC_RET_ERROR, fs0) \/
  select_perform fs0 cmd = (UICC_RET_UNKNOWN, fs0).
Proof.
  intros Hp1. apply select_meth_p1 in Hp1.
  unfold select_perform, swicc_va_select_file_dfname,
    swicc_va_select_file_path.
  destruct (select_meth cmd); try (left; reflexivity);
    try (exfalso; apply Hp1; reflexivity);
    destruct (_ || _); [ left | right | left | right | left | right ];
    reflexivity.
Qed.

(** X19.  SELECT selects by file identifier or by AID only: whenever
    [P1] is not 00 (selection of a child, of the parent, by DF name, by
    path, of a data object) the state is left as it was, no data is
    returned, and the status is one of 6A86, 6F00, 6702, 6B00 or the
    ACK-all procedure byte, never 9000 or 61xx. *)
Theorem select_p1_nonzero
    (bertlv_respond :
       uicc_st -> uicc_fs_file_st -> bool -> data_req_e ->
       uicc_st * uicc_apdu_res_st)
    (st : uicc_st) (cmd : uicc_apdu_cmd_st) (pc : Z) :
  p1 cmd <> 0 ->
  exists rsp,
    apduh_select bertlv_respond st cmd pc = (UICC_RET_SUCCESS, st, rsp) /\
    resp_data_b rsp = [] /\
    (rsp = mk_res UICC_APDU_SW1_CHER_P1P2_INFO 0x86 \/
     rsp = mk_res UICC_APDU_SW1_CHER_UNK 0 \/
     rsp = mk_res UICC_APDU_SW1_CHER_LEN 0x02 \/
     rsp = mk_res UICC_APDU_SW1_CHER_P1P2 0 \/
     (pc = 0 /\ sw1 rsp = UICC_APDU_SW1_PROC_ACK_ALL)).
Proof.
  intros Hp1. unfold apduh_select. cbv zeta.
  destruct (negb (Z.land (p2 cmd) 240 =? 0));
    [ eexists; split; [ reflexivity | ]; split; [ reflexivity | tauto ] | ].
  destruct ((pc =? 0) && negb (cmd_data_len cmd =? 0));
    [ eexists; split; [ reflexivity | ]; split; [ reflexivity | tauto ] | ].
  destruct ((pc =? 0) && (p3 cmd >? 0)) eqn:Eack.
  { apply andb_true_iff in Eack. destruct Eack as [Epc _].
    apply Z.eqb_eq in Epc.
    eexists; split; [ reflexivity | ]; split; [ reflexivity | ].
    right; right; right; right. split; [ exact Epc | reflexivity ]. }
  destruct (negb (cmd_data_len cmd =? p3 cmd) && (pc >=? 1));
    [ eexists; split; [ reflexivity | ]; split; [ reflexivity | tauto ] | ].
  destruct (_ || _);
    [ eexists; split; [ reflexivity | ]; split; [ reflexivity | tauto ] | ].
  destruct (select_perform_p1 (fs st) cmd Hp1) as [E | E]; rewrite E;
    rewrite st_set_fs_same;
    eexists; split; try reflexivity; split; try reflexivity; tauto.
Qed.

Lemma select_p1_nonzero_witness :
  exists rsp,
    apduh_select no_bertlv mf_selected
      (cmd_select 0x04 0x0C 2 [0x6F; 0x07]) 1 =
      (UICC_RET_SUCCESS, mf_selected, rsp) /\
    resp_data_b rsp = [].
Proof.
  destruct (select_p1_nonzero no_bertlv mf_selected
              (cmd_select 0x04 0x0C 2 [0x6F; 0x07]) 1)
    as (rsp & H1 & H2 & _).
  - cbn. discriminate.
  - exists rsp. split; [ exact H1 | exact H2 ].
Defined.

(** X20.  SELECT by file identifier with no response data asked for
    ([P1] = 00, [P2] = 0C, two bytes of data, second entry or later):
    the identifier is the two data bytes, most significant first; when
    [swicc_va_select_file_id] finds and selects the file the answer is
    9000 and the state is the one that selection gives; when the
    identifier is not on the disk the answer is 6A82, on any other
    failure 6F00, and in both cases the state is as it was. *)
Theorem select_by_fid
    (bertlv_respond :
       uicc_st -> uicc_fs_file_st -> bool -> data_req_e ->
       uicc_st * uicc_apdu_res_st)
    (st : uicc_st) (cmd : uicc_apdu_cmd_st) (pc : Z) :
  p1 cmd = 0x00 -> p2 cmd = 0x0C ->
  cmd_data_len cmd = 2 -> p3 cmd = 2 -> 1 <= pc ->
  apduh_select bertlv_respond st cmd pc =
    match swicc_va_select_file_id (fs st)
            (256 * nth 0 (cmd_data_b cmd) 0 + nth 1 (cmd_data_b cmd) 0) with
    | (UICC_RET_SUCCESS, fs1) =>
        (UICC_RET_SUCCESS, st_set_fs st fs1,
         mk_res UICC_APDU_SW1_NORM_NONE 0)
    | (UICC_RET_FS_NOT_FOUND, _) =>
        (UICC_RET_SUCCESS, st, mk_res UICC_APDU_SW1_CHER_P1P2_INFO 0x82)
    | (_, _) => (UICC_RET_SUCCESS, st, mk_res UICC_APDU_SW1_CHER_UNK 0)
    end.
Proof.
  intros Hp1 Hp2 Hlen Hp3 Hpc.
  unfold apduh_select, select_data_req, select_meth, select_perform.
  unfold select_meth.
  rewrite Hp1, Hp2, Hlen, Hp3.
  replace (pc =? 0) with false by (symmetry; apply Z.eqb_neq; lia).
  cbn.
  pose proof (select_file_id_failure (fs st)
                (256 * nth 0 (cmd_data_b cmd) 0 + nth 1 (cmd_data_b cmd) 0))
    as Hfail.
  destruct (swicc_va_select_file_id (fs st) _) as [r fs1] eqn:Esel.
  cbn [fst snd] in Hfail.
  destruct r;
    try (rewrite Hfail by discriminate; rewrite st_set_fs_same;
         reflexivity).
  clear Hfail. unfold swicc_va_select_file_id in Esel.
  destruct (uicc_disk_lutid_lookup _ _) as [[r t] file].
  destruct r; try discriminate Esel.
  apply va_select_file_success in Esel.
  destruct Esel as (_ & _ & _ & _ & Hty & Hcur).
  destruct (is_ef (type (hdr_item file))) eqn:Eef.
  - rewrite Hcur.
    destruct (type (hdr_item file)); try discriminate Eef;
      destruct (type (hdr_item (cur_df (va fs1)))); reflexivity.
  - destruct Hcur as [Hef Hdf]. rewrite Hef, Hdf.
    cbn [file_zero hdr_item type].
    destruct (type (hdr_item file)); try discriminate Eef;
      try reflexivity; exfalso; apply Hty; reflexivity.
Qed.

Lemma select_by_fid_witness :
  apduh_select no_bertlv mf_selected
    (cmd_select 0x00 0x0C 2 [0x6F; 0x07]) 1 =
    (UICC_RET_SUCCESS, flat_selected, mk_res UICC_APDU_SW1_NORM_NONE 0) /\
  apduh_select no_bertlv mf_selected
    (cmd_select 0x00 0x0C 2 [0x12; 0x34]) 1 =
    (UICC_RET_SUCCESS, mf_selected,
     mk_res UICC_APDU_SW1_CHER_P1P2_INFO 0x82).
Proof.
  split.
  - rewrite (select_by_fid no_bertlv mf_selected
               (cmd_select 0x00 0x0C 2 [0x6F; 0x07]) 1
               eq_refl eq_refl eq_refl eq_refl ltac:(lia)).
    vm_compute. reflexivity.
  - rewrite (select_by_fid no_bertlv mf_selected
               (cmd_select 0x00 0x0C 2 [0x12; 0x34]) 1
               eq_refl eq_refl eq_refl eq_refl ltac:(lia)).
    vm_compute. reflexivity.
Defined.
